(** * A verification development for the ledger-and-persistence core

    The Python sources under [blockchain/advanced_blockchain/src] are embedded
    as Rocq functions: objects become records, [dict]s become [gmap]s, methods
    that mutate [self] return the new object next to their result, and the
    calls that leave the repository ([hashlib], [json], [time], [secrets],
    [ecdsa], [requests], [sqlite3]) are either implemented here ([hashlib]) or
    taken from an explicit environment. *)

From Stdlib Require Import ZArith NArith QArith String Ascii List Lia.
From stdpp Require Import base gmap strings list fin_maps pretty sorting.

Open Scope string_scope.
Open Scope list_scope.
Open Scope Z_scope.

(** ** [hashlib]: SHA-256 and MD5 on byte strings

    A Rocq [string] is read as the UTF-8 encoding of the Python [str], so
    [data.encode('utf-8')] is the list of its character codes. *)

Module Hashlib.

Definition mask32 : N := 0xFFFFFFFF%N.

Definition add32 (x y : N) : N := N.land (x + y) mask32.

Definition not32 (x : N) : N := N.lxor x mask32.

Definition rotr32 (r x : N) : N :=
  N.lor (N.shiftr x r) (N.land (N.shiftl x (32 - r)) mask32).

Definition rotl32 (r x : N) : N :=
  N.lor (N.land (N.shiftl x r) mask32) (N.shiftr x (32 - r)).

Definition encode (s : string) : list N :=
  map N_of_ascii (list_ascii_of_string s).

(** Message padding: a [0x80] byte, zero bytes up to 56 modulo 64, and the
    bit length on eight bytes ([big] selects the byte order). *)
Definition bytes_of_len (big : bool) (bits : N) : list N :=
  let le := map (fun i => N.land (N.shiftr bits (8 * N.of_nat i)) 0xFF)%N (seq 0 8) in
  if big then rev le else le.

Definition pad (big : bool) (msg : list N) : list N :=
  let len := N.of_nat (length msg) in
  let zeros := N.to_nat ((64 + 55 - len mod 64) mod 64)%N in
  msg ++ 0x80%N :: repeat 0%N zeros ++ bytes_of_len big (8 * len)%N.

Definition word_of_bytes (big : bool) (b0 b1 b2 b3 : N) : N :=
  if big
  then (N.shiftl b0 24 + N.shiftl b1 16 + N.shiftl b2 8 + b3)%N
  else (N.shiftl b3 24 + N.shiftl b2 16 + N.shiftl b1 8 + b0)%N.

Fixpoint words (big : bool) (bs : list N) : list N :=
  match bs with
  | b0 :: b1 :: b2 :: b3 :: rest => word_of_bytes big b0 b1 b2 b3 :: words big rest
  | _ => []
  end.

Fixpoint blocks (n : nat) (ws : list N) : list (list N) :=
  match n with
  | O => []
  | S n' => match ws with
            | [] => []
            | _ => take 16 ws :: blocks n' (drop 16 ws)
            end
  end.

Definition hex_digit (d : N) : ascii :=
  nth (N.to_nat d)
      (list_ascii_of_string "0123456789abcdef") "0"%char.

Definition hex_byte (b : N) : string :=
  String (hex_digit (N.shiftr b 4)) (String (hex_digit (N.land b 0xF)) "").

Definition word_bytes (big : bool) (w : N) : list N :=
  let le := map (fun i => N.land (N.shiftr w (8 * N.of_nat i)) 0xFF)%N (seq 0 4) in
  if big then rev le else le.

Definition hex_words (big : bool) (ws : list N) : string :=
  foldr (fun w acc => foldr (fun b acc' => hex_byte b +:+ acc') acc (word_bytes big w))
        "" ws.

(** *** SHA-256 (FIPS 180-4) *)

(** The round constants are the first 32 bits of the fractional parts of
    the cube roots of the first 64 primes, the initial state those of the
    square roots of the first 8 primes. *)
Definition is_prime (n : nat) : bool :=
  forallb (fun d => negb (n mod d =? 0)%nat) (seq 2 (n - 2)).

Definition primes (count : nat) : list N :=
  map N.of_nat (take count (filter (fun n => is_prime n = true) (seq 2 400))).

(** The integer cube root, one bit at a time from bit [bits - 1] down. *)
Fixpoint cube_root (bits : nat) (n root : N) : N :=
  match bits with
  | O => root
  | S bits' =>
      let try := (root + N.shiftl 1 (N.of_nat bits'))%N in
      cube_root bits' n (if (try * try * try <=? n)%N then try else root)
  end.

Definition K256 : list N :=
  Eval vm_compute in
    map (fun p => N.land (cube_root 36 (N.shiftl p 96) 0) mask32) (primes 64).

Definition H256 : list N :=
  Eval vm_compute in
    map (fun p => N.land (N.sqrt (N.shiftl p 64)) mask32) (primes 8).

Definition Ch (x y z : N) : N := N.lxor (N.land x y) (N.land (not32 x) z).
Definition Maj (x y z : N) : N :=
  N.lxor (N.lxor (N.land x y) (N.land x z)) (N.land y z).
Definition Sigma0 (x : N) : N :=
  N.lxor (N.lxor (rotr32 2 x) (rotr32 13 x)) (rotr32 22 x).
Definition Sigma1 (x : N) : N :=
  N.lxor (N.lxor (rotr32 6 x) (rotr32 11 x)) (rotr32 25 x).
Definition sigma0 (x : N) : N :=
  N.lxor (N.lxor (rotr32 7 x) (rotr32 18 x)) (N.shiftr x 3).
Definition sigma1 (x : N) : N :=
  N.lxor (N.lxor (rotr32 17 x) (rotr32 19 x)) (N.shiftr x 10).

(** [recent] holds the last sixteen schedule words, newest first. *)
Fixpoint schedule (n : nat) (recent : list N) : list N :=
  match n with
  | O => []
  | S n' =>
      let w := add32 (add32 (sigma1 (nth 1 recent 0%N)) (nth 6 recent 0%N))
                     (add32 (sigma0 (nth 14 recent 0%N)) (nth 15 recent 0%N)) in
      w :: schedule n' (w :: take 15 recent)
  end.

Definition round256 (st : list N) (kw : N * N) : list N :=
  match st with
  | [a; b; c; d; e; f; g; h] =>
      let t1 := add32 (add32 (add32 h (Sigma1 e)) (add32 (Ch e f g) kw.1)) kw.2 in
      let t2 := add32 (Sigma0 a) (Maj a b c) in
      [add32 t1 t2; a; b; c; add32 d t1; e; f; g]
  | _ => st
  end.

Definition compress256 (st : list N) (block : list N) : list N :=
  let w := block ++ schedule 48 (rev block) in
  zip_with add32 st (foldl round256 st (zip K256 w)).

Definition sha256_hexdigest (s : string) : string :=
  let ws := words true (pad true (encode s)) in
  hex_words true (foldl compress256 H256 (blocks (length ws) ws)).

(** *** MD5 (RFC 1321) *)

Definition T5 : list N :=
  [0xd76aa478; 0xe8c7b756; 0x242070db; 0xc1bdceee;
   0xf57c0faf; 0x4787c62a; 0xa8304613; 0xfd469501;
   0x698098d8; 0x8b44f7af; 0xffff5bb1; 0x895cd7be;
   0x6b901122; 0xfd987193; 0xa679438e; 0x49b40821;
   0xf61e2562; 0xc040b340; 0x265e5a51; 0xe9b6c7aa;
   0xd62f105d; 0x02441453; 0xd8a1e681; 0xe7d3fbc8;
   0x21e1cde6; 0xc33707d6; 0xf4d50d87; 0x455a14ed;
   0xa9e3e905; 0xfcefa3f8; 0x676f02d9; 0x8d2a4c8a;
   0xfffa3942; 0x8771f681; 0x6d9d6122; 0xfde5380c;
   0xa4beea44; 0x4bdecfa9; 0xf6bb4b60; 0xbebfbc70;
   0x289b7ec6; 0xeaa127fa; 0xd4ef3085; 0x04881d05;
   0xd9d4d039; 0xe6db99e5; 0x1fa27cf8; 0xc4ac5665;
   0xf4292244; 0x432aff97; 0xab9423a7; 0xfc93a039;
   0x655b59c3; 0x8f0ccc92; 0xffeff47d; 0x85845dd1;
   0x6fa87e4f; 0xfe2ce6e0; 0xa3014314; 0x4e0811a1;
   0xf7537e82; 0xbd3af235; 0x2ad7d2bb; 0xeb86d391]%N.

Definition S5 : list N :=
  (concat (repeat [7; 12; 17; 22] 4) ++ concat (repeat [5; 9; 14; 20] 4) ++
   concat (repeat [4; 11; 16; 23] 4) ++ concat (repeat [6; 10; 15; 21] 4))%N.

Definition H5 : list N := [0x67452301; 0xefcdab89; 0x98badcfe; 0x10325476]%N.

Definition round5 (block : list N) (st : list N) (i : nat) : list N :=
  match st with
  | [a; b; c; d] =>
      let n := N.of_nat i in
      let '(f, g) :=
        if (n <? 16)%N then (N.lor (N.land b c) (N.land (not32 b) d), n)
        else if (n <? 32)%N then (N.lor (N.land d b) (N.land (not32 d) c), (5 * n + 1) mod 16)%N
        else if (n <? 48)%N then (N.lxor (N.lxor b c) d, (3 * n + 5) mod 16)%N
        else (N.lxor c (N.lor b (not32 d)), (7 * n) mod 16)%N in
      let f' := add32 (add32 f a) (add32 (nth i T5 0%N) (nth (N.to_nat g) block 0%N)) in
      [d; add32 b (rotl32 (nth i S5 0%N) f'); b; c]
  | _ => st
  end.

Definition compress5 (st : list N) (block : list N) : list N :=
  zip_with add32 st (foldl (round5 block) st (seq 0 64)).

Definition md5_hexdigest (s : string) : string :=
  let ws := words false (pad false (encode s)) in
  hex_words false (foldl compress5 H5 (blocks (length ws) ws)).

End Hashlib.

(** ** Python built-ins used by the sources *)

#[global] Instance Q_eq_dec : EqDecision Q.
Proof. solve_decision. Defined.

Module Py.

(** Exceptions that the modelled code can raise, and results of calls that
    may raise. *)
Inductive exn : Type :=
| AttributeError (cls attr : string).

Inductive result (A : Type) : Type :=
| Ok (a : A)
| Raise (e : exn).
Arguments Ok {A} a.
Arguments Raise {A} e.

(** [s * n] on a [str]: the empty string when [n <= 0]. *)
Fixpoint repeat_str (s : string) (n : nat) : string :=
  match n with
  | O => ""
  | S n' => s +:+ repeat_str s n'
  end.

Definition str_mul (s : string) (n : Z) : string := repeat_str s (Z.to_nat n).

(** [s.startswith(p)] *)
Definition startswith (s p : string) : bool := String.prefix p s.

(** Truth value of a [str] or [bytes]: false exactly when empty. *)
Definition truthy (s : string) : bool := negb (String.eqb s "").

(** [str(n)] for an [int]. *)
Definition str_int (n : Z) : string := pretty n.

(** Float comparisons [x < y] and [x <= y]. *)
Definition lt (x y : Q) : bool := negb (Qle_bool y x).
Definition le (x y : Q) : bool := Qle_bool x y.

(** Slice bounds: a negative bound counts from the end, and both are
    clamped to the list. *)
Definition slice_bound {A} (l : list A) (k : Z) : nat :=
  let n := Z.of_nat (length l) in
  Z.to_nat (if k <? 0 then Z.max 0 (n + k) else Z.min k n).

(** [l[:k]] and [l[k:]] *)
Definition slice_to {A} (l : list A) (k : Z) : list A := take (slice_bound l k) l.
Definition slice_from {A} (l : list A) (k : Z) : list A := drop (slice_bound l k) l.

(** [min(l, key=key)]: the first element with the least key ([None] stands
    for the [ValueError] on an empty list). *)
Fixpoint min_from {A} (key : A → Q) (best : A) (l : list A) : A :=
  match l with
  | [] => best
  | x :: rest => min_from key (if lt (key x) (key best) then x else best) rest
  end.

Definition min_by {A} (key : A → Q) (l : list A) : option A :=
  match l with
  | [] => None
  | x :: rest => Some (min_from key x rest)
  end.

(** [l.sort(key=key, reverse=True)]: the sort is stable, also when reversed:
    elements with equal keys keep their relative order. *)
Fixpoint insert_desc {A} (key : A → Q) (x : A) (l : list A) : list A :=
  match l with
  | [] => [x]
  | y :: rest => if lt (key x) (key y) then y :: insert_desc key x rest
                 else x :: y :: rest
  end.

Definition sort_desc {A} (key : A → Q) (l : list A) : list A :=
  foldr (insert_desc key) [] l.

(** [l.remove(x)]: drops the first element equal to [x] (the caller checks
    [x in l] first, so the [ValueError] case is not reached). *)
Fixpoint remove {A} `{EqDecision A} (x : A) (l : list A) : list A :=
  match l with
  | [] => []
  | y :: rest => if decide (x = y) then rest else y :: remove x rest
  end.

(** [int(s, 16)] on a hexadecimal digest. A character that is no hexadecimal
    digit would raise [ValueError]; digests contain none, it counts as 0. *)
Definition hex_value (c : ascii) : N :=
  let n := N_of_ascii c in
  if ((48 <=? n) && (n <=? 57))%N then (n - 48)%N
  else if ((97 <=? n) && (n <=? 102))%N then (n - 87)%N
  else if ((65 <=? n) && (n <=? 70))%N then (n - 55)%N
  else 0%N.

Definition int16 (s : string) : N :=
  foldl (fun acc c => (16 * acc + hex_value c)%N) 0%N (list_ascii_of_string s).

(** The line feed that [json.dumps(..., indent=2)] puts between items. *)
Definition nl : string := String "010"%char "".

(** [s[:k]] on a [str]. *)
Definition str_slice_to (s : string) (k : Z) : string :=
  string_of_list_ascii (slice_to (list_ascii_of_string s) k).

(** [l[i]]: a negative index counts from the end; [None] stands for the
    [IndexError] out of range. *)
Definition getitem {A} (l : list A) (i : Z) : option A :=
  let n := Z.of_nat (length l) in
  if 0 <=? i then l !! Z.to_nat i
  else if - n <=? i then l !! Z.to_nat (n + i)
  else None.

End Py.

(** ** The libraries the sources call

    [hashlib] digests, the [ecdsa]-backed checks of [utils/crypto.py], and the
    text Python produces for a [float] and for a JSON string. The theorems
    hold for every implementation of these; [python] below is the one used to
    evaluate concrete scenarios. *)

Class Libs : Type := {
  (** [hashlib.sha256(s.encode('utf-8')).hexdigest()] *)
  sha256 : string → string;
  (** [hashlib.md5(s.encode('utf-8')).hexdigest()] *)
  md5 : string → string;
  (** [CryptoUtils.verify_signature(data, signature_hex, public_key_hex)];
      any exception inside it yields [False] *)
  verify_signature : string → string → string → bool;
  (** [CryptoUtils.public_key_to_address(public_key_hex)] *)
  public_key_to_address : string → string;
  (** [str(x)] of a [float], as [f"{x}"] and [json.dumps] write it *)
  str_float : Q → string;
  (** [json.dumps(s)] of a [str] *)
  json_str : string → string
}.

Module PythonLibs.

(** Floats with an integral value are written with a trailing [.0]; other
    values do not occur in the scenarios and are written as a fraction. *)
Definition str_float (x : Q) : string :=
  let q := Qred x in
  if decide (Qden q = 1%positive) then pretty (Qnum q) +:+ ".0"
  else pretty (Qnum q) +:+ "/" +:+ pretty (Zpos (Qden q)).

Definition quote : ascii := "034"%char.
Definition backslash : ascii := "092"%char.

(** JSON string literal; the quote and the backslash are escaped, which is
    all [json.dumps] does on printable ASCII. *)
Fixpoint json_escape (s : string) : string :=
  match s with
  | EmptyString => ""
  | String c rest =>
      if Ascii.eqb c quote || Ascii.eqb c backslash
      then String backslash (String c (json_escape rest))
      else String c (json_escape rest)
  end.

Definition json_str (s : string) : string :=
  String quote (json_escape s +:+ String quote "").

End PythonLibs.

(** The signature primitives are not implemented: this instance rejects every
    signature, and the scenarios evaluated with it carry none. *)
Definition python : Libs := {|
  sha256 := Hashlib.sha256_hexdigest;
  md5 := Hashlib.md5_hexdigest;
  verify_signature := fun _ _ _ => false;
  public_key_to_address := fun _ => "";
  str_float := PythonLibs.str_float;
  json_str := PythonLibs.json_str
|}.

(** ** [utils/merkle.py] *)

Module MerkleTree.

(** One entry of a Merkle path: [{'hash': ..., 'position': ...}]. *)
Record step : Type := Step { hash : string; position : string }.

Record t : Type := Build {
  transactions : list string;
  tree_levels : list (list string);
  root : option string
}.

Section WithLibs.
Context `{!Libs}.

Definition _hash_data (data : string) : string := sha256 data.

(** [if len(current_level) % 2 == 1: current_level.append(current_level[-1])] *)
Definition pad_odd (current_level : list string) : list string :=
  if Nat.odd (length current_level)
  then match last current_level with
       | Some x => current_level ++ [x]
       | None => current_level
       end
  else current_level.

(** The [for i in range(0, len(current_level), 2)] loop over a level of even
    length. *)
Fixpoint pair_up (current_level : list string) : list string :=
  match current_level with
  | l :: r :: rest => _hash_data (l +:+ r) :: pair_up rest
  | _ => []
  end.

(** The [while len(current_level) > 1] loop: returns the levels it appends
    to [tree_levels] and the final [current_level]. Every round shortens the
    level, so [length current_level] rounds are enough ([build_levels_fuel]). *)
Fixpoint build_levels (fuel : nat) (current_level : list string)
  : list (list string) * list string :=
  match fuel with
  | O => ([], current_level)
  | S fuel' =>
      if (1 <? length current_level)%nat then
        let next_level := pair_up (pad_odd current_level) in
        let '(levels, final) := build_levels fuel' next_level in
        (next_level :: levels, final)
      else ([], current_level)
  end.

(** [MerkleTree(transactions)]: [__init__] with [_build_tree]. The levels are
    recorded as copies taken before the odd one is padded. *)
Definition new (transactions : list string) : t :=
  match transactions with
  | [] => Build transactions [] None
  | _ =>
      let current_level := map _hash_data transactions in
      let '(levels, final) := build_levels (length current_level) current_level in
      Build transactions (current_level :: levels) (head final)
  end.

(** The body of the [for level_idx in range(len(self.tree_levels) - 1)] loop
    of [get_merkle_path], over the levels it visits. *)
Fixpoint walk (levels : list (list string)) (index : nat) : list step :=
  match levels with
  | [] => []
  | current_level :: rest =>
      let '(sibling_index, position) :=
        if Nat.even index then ((index + 1)%nat, "right")
        else ((index - 1)%nat, "left") in
      match current_level !! sibling_index with
      | Some h => [Step h position]
      | None => []
      end ++ walk rest (index / 2)%nat
  end.

Definition get_merkle_path (self : t) (transaction_index : nat) : list step :=
  if (length (transactions self) <=? transaction_index)%nat then []
  else walk (take (length (tree_levels self) - 1) (tree_levels self))
            transaction_index.

Definition climb (current_hash : string) (s : step) : string :=
  if String.eqb (position s) "right"
  then _hash_data (current_hash +:+ hash s)
  else _hash_data (hash s +:+ current_hash).

Definition verify_transaction (self : t) (transaction : string)
    (transaction_index : nat) (merkle_path : list step) : bool :=
  match merkle_path with
  | [] => false
  | _ =>
      let current_hash := foldl climb (_hash_data transaction) merkle_path in
      match root self with
      | Some r => String.eqb current_hash r
      | None => false
      end
  end.

End WithLibs.
End MerkleTree.

(** ** [core/transaction.py] *)

Module Transaction.

(** Amounts, fees and timestamps are Python floats; they are modelled by
    rationals, of which the sources only use the order, [+] and [-]. *)
Record t : Type := Build {
  sender : string;
  receiver : string;
  amount : Q;
  fee : Q;
  data : string;
  timestamp : Q;
  nonce : string;
  transaction_id : string;
  signature : string;
  public_key : string
}.

#[global] Instance eq_dec : EqDecision t.
Proof. solve_decision. Defined.

Definition set_transaction_id (self : t) (id : string) : t :=
  Build (sender self) (receiver self) (amount self) (fee self) (data self)
        (timestamp self) (nonce self) id (signature self) (public_key self).

Section WithLibs.
Context `{!Libs}.

Definition _calculate_transaction_id (self : t) : string :=
  sha256 (sender self +:+ receiver self +:+ str_float (amount self) +:+
          str_float (fee self) +:+ data self +:+ str_float (timestamp self) +:+
          nonce self).

(** [Transaction(sender, receiver, amount, fee, data)]; [now] is the value
    of [time.time()] and [rnd] that of [CryptoUtils.generate_nonce()]. *)
Definition new (sender receiver : string) (amount fee : Q) (data : string)
    (now : Q) (rnd : string) : t :=
  let self := Build sender receiver amount fee data now rnd "" "" "" in
  set_transaction_id self (_calculate_transaction_id self).

Definition get_signing_data (self : t) : string :=
  sender self +:+ receiver self +:+ str_float (amount self) +:+
  str_float (fee self) +:+ data self +:+ nonce self.

Definition is_valid (self : t) : bool :=
  if Py.le (amount self) 0 then false
  else if Py.lt (fee self) 0 then false
  else if negb (Py.truthy (sender self)) || negb (Py.truthy (receiver self)) then false
  else if Py.truthy (signature self) && Py.truthy (public_key self) then
    if negb (verify_signature (get_signing_data self) (signature self) (public_key self))
    then false
    else if negb (String.eqb (public_key_to_address (public_key self)) (sender self))
    then false
    else true
  else true.

(** [json.dumps(d, indent=2)] of a flat dict whose values are already
    rendered. *)
Definition json_object (items : list (string * string)) : string :=
  let line (kv : string * string) := "  " +:+ json_str kv.1 +:+ ": " +:+ kv.2 in
  "{" +:+ Py.nl +:+
  String.concat ("," +:+ Py.nl) (map line items) +:+
  Py.nl +:+ "}".

(** [to_json]: [to_dict] lists every attribute under its own name, so the
    dict and [from_dict] of it are the record itself. *)
Definition to_json (self : t) : string :=
  json_object
    [("transaction_id", json_str (transaction_id self));
     ("sender", json_str (sender self));
     ("receiver", json_str (receiver self));
     ("amount", str_float (amount self));
     ("fee", str_float (fee self));
     ("data", json_str (data self));
     ("timestamp", str_float (timestamp self));
     ("nonce", json_str (nonce self));
     ("signature", json_str (signature self));
     ("public_key", json_str (public_key self))].

End WithLibs.
End Transaction.

Module TransactionPool.

Record t : Type := Build {
  max_size : Z;
  pending_transactions : list Transaction.t;
  transaction_map : gmap string Transaction.t
}.

(** [TransactionPool(max_size)] *)
Definition new (max_size : Z) : t := Build max_size [] ∅.

(** [remove_transaction]: [transaction in self.pending_transactions] and
    [list.remove] compare objects, that is the whole record here. *)
Definition remove_transaction (self : t) (transaction_id : string) : bool * t :=
  match transaction_map self !! transaction_id with
  | Some transaction =>
      let map' := delete transaction_id (transaction_map self) in
      let pending' :=
        if decide (transaction ∈ pending_transactions self)
        then Py.remove transaction (pending_transactions self)
        else pending_transactions self in
      (true, Build (max_size self) pending' map')
  | None => (false, self)
  end.

Definition _remove_lowest_fee_transaction (self : t) : t :=
  match Py.min_by Transaction.fee (pending_transactions self) with
  | Some lowest_fee_tx =>
      (remove_transaction self (Transaction.transaction_id lowest_fee_tx)).2
  | None => self
  end.

Section WithLibs.
Context `{!Libs}.

Definition add_transaction (self : t) (transaction : Transaction.t) : bool * t :=
  if negb (Transaction.is_valid transaction) then (false, self)
  else if decide (is_Some (transaction_map self !! Transaction.transaction_id transaction))
  then (false, self)
  else
    let self1 :=
      if Z.of_nat (length (pending_transactions self)) >=? max_size self
      then _remove_lowest_fee_transaction self
      else self in
    let pending := pending_transactions self1 ++ [transaction] in
    let map' := <[Transaction.transaction_id transaction := transaction]>
                  (transaction_map self1) in
    (true, Build (max_size self1) (Py.sort_desc Transaction.fee pending) map').

End WithLibs.

Definition get_transactions_for_block (self : t) (max_count : Z)
  : list Transaction.t * t :=
  let selected := Py.slice_to (pending_transactions self) max_count in
  let map' :=
    foldl (fun m tx => delete (Transaction.transaction_id tx) m)
          (transaction_map self) selected in
  (selected,
   Build (max_size self) (Py.slice_from (pending_transactions self) max_count) map').

Definition clear (self : t) : t := Build (max_size self) [] ∅.

End TransactionPool.

(** ** [core/block.py] *)

Module Block.

Record t : Type := Build {
  index : Z;
  timestamp : Q;
  transactions : list Transaction.t;
  previous_hash : string;
  miner_address : string;
  merkle_tree : MerkleTree.t;
  merkle_root : string;
  nonce : Z;
  difficulty : Z;
  hash : string
}.

(** The dict of [to_dict], which is also what [json.dumps(...).encode()]
    persists and [json.loads] gives back: the byte string of a stored block
    is modelled by this record. *)
Record dict : Type := Dict {
  d_index : Z;
  d_timestamp : Q;
  d_transactions : list Transaction.t;
  d_transaction_count : Z;
  d_previous_hash : string;
  d_merkle_root : string;
  d_miner_address : string;
  d_nonce : Z;
  d_difficulty : Z;
  d_hash : string;
  d_total_fees : Q
}.

Definition set_nonce (self : t) (n : Z) : t :=
  Build (index self) (timestamp self) (transactions self) (previous_hash self)
        (miner_address self) (merkle_tree self) (merkle_root self) n
        (difficulty self) (hash self).

Definition set_hash (self : t) (h : string) : t :=
  Build (index self) (timestamp self) (transactions self) (previous_hash self)
        (miner_address self) (merkle_tree self) (merkle_root self) (nonce self)
        (difficulty self) h.

Definition set_difficulty (self : t) (d : Z) : t :=
  Build (index self) (timestamp self) (transactions self) (previous_hash self)
        (miner_address self) (merkle_tree self) (merkle_root self) (nonce self)
        d (hash self).

(** [sum(tx.fee for tx in self.transactions)] *)
Definition get_transaction_fees (self : t) : Q :=
  foldl (fun acc tx => (acc + Transaction.fee tx)%Q) 0%Q (transactions self).

Definition to_dict (self : t) : dict :=
  Dict (index self) (timestamp self) (transactions self)
       (Z.of_nat (length (transactions self))) (previous_hash self)
       (merkle_root self) (miner_address self) (nonce self) (difficulty self)
       (hash self) (get_transaction_fees self).

Section WithLibs.
Context `{!Libs}.

Definition _calculate_hash (self : t) : string :=
  sha256 (Py.str_int (index self) +:+ str_float (timestamp self) +:+
          merkle_root self +:+ previous_hash self +:+
          Py.str_int (nonce self) +:+ miner_address self).

(** [Block(index, transactions, previous_hash, miner_address)]; [now] is the
    value of [time.time()]. [self.merkle_tree.root or ""] is the empty string
    for a block without transactions. *)
Definition new (index : Z) (transactions : list Transaction.t)
    (previous_hash miner_address : string) (now : Q) : t :=
  let merkle_tree := MerkleTree.new (map Transaction.to_json transactions) in
  let merkle_root := default "" (MerkleTree.root merkle_tree) in
  let self := Build index now transactions previous_hash miner_address
                    merkle_tree merkle_root 0 4 "" in
  set_hash self (_calculate_hash self).

(** The methods of [Block] that compute its hash, by attribute name. The
    class defines [__init__], [_calculate_hash], [mine_block], [is_valid],
    [get_transaction_fees], [get_transaction_by_id],
    [verify_transaction_in_block], [to_dict], [to_json], [from_dict] and
    [from_json], and its instances carry the ten fields of [t]; looking up any
    other name raises [AttributeError]. *)
Definition hash_method (name : string) : option (t → string) :=
  if String.eqb name "_calculate_hash" then Some _calculate_hash else None.

(** The body of the mining loops:
    [block.nonce += 1; block.hash = block._calculate_hash()]. *)
Definition next_nonce (block : t) : t :=
  let block1 := set_nonce block (nonce block + 1) in
  set_hash block1 (_calculate_hash block1).

(** The [while not block.hash.startswith(target)] loop of
    [Blockchain._mine_block]. It has no bound in the source; [None] means that
    [fuel] rounds did not reach the target. *)
Fixpoint nonce_search (fuel : nat) (target : string) (block : t) : option t :=
  if Py.startswith (hash block) target then Some block
  else match fuel with
       | O => None
       | S fuel' => nonce_search fuel' target (next_nonce block)
       end.

(** The block with another nonce and the hash that goes with it. *)
Definition with_nonce (block : t) (n : Z) : t :=
  let block1 := set_nonce block n in
  set_hash block1 (_calculate_hash block1).

(** The [while self.hash[:difficulty] != target] loop of [mine_block], with
    the same reading of [fuel]. *)
Fixpoint mine_search (fuel : nat) (difficulty : Z) (block : t) : option t :=
  if String.eqb (Py.str_slice_to (hash block) difficulty) (Py.str_mul "0" difficulty)
  then Some block
  else match fuel with
       | O => None
       | S fuel' => mine_search fuel' difficulty (next_nonce block)
       end.

(** [mine_block(difficulty)] records the difficulty in the block, then
    searches. *)
Definition mine_block (fuel : nat) (self : t) (difficulty : Z) : option t :=
  mine_search fuel difficulty (set_difficulty self difficulty).

(** [get_transaction_by_id]: the first transaction with that identifier. *)
Definition get_transaction_by_id (self : t) (transaction_id : string)
  : option Transaction.t :=
  snd <$> list_find (fun tx => Transaction.transaction_id tx = transaction_id)
                    (transactions self).

(** [verify_transaction_in_block]: the Merkle proof of the first transaction
    with that identifier, checked against the tree of the block. *)
Definition verify_transaction_in_block (self : t) (transaction_id : string) : bool :=
  match list_find (fun tx => Transaction.transaction_id tx = transaction_id)
                  (transactions self) with
  | Some (i, tx) =>
      MerkleTree.verify_transaction (merkle_tree self) (Transaction.to_json tx) i
        (MerkleTree.get_merkle_path (merkle_tree self) i)
  | None => false
  end.

Definition is_valid (self : t) : bool :=
  if negb (String.eqb (hash self) (_calculate_hash self)) then false
  else if negb (Py.startswith (hash self) (Py.str_mul "0" (difficulty self))) then false
  else if negb (forallb Transaction.is_valid (transactions self)) then false
  else if negb (bool_decide
                  (MerkleTree.root (MerkleTree.new (map Transaction.to_json (transactions self)))
                   = Some (merkle_root self)))
  then false
  else true.

(** [Block.from_dict]: the constructor runs on the listed transactions, then
    the stored attributes overwrite what it computed. *)
Definition from_dict (data : dict) : t :=
  let block := new (d_index data) (d_transactions data) (d_previous_hash data)
                   (d_miner_address data) (d_timestamp data) in
  Build (index block) (d_timestamp data) (transactions block)
        (previous_hash block) (miner_address block) (merkle_tree block)
        (d_merkle_root data) (d_nonce data) (d_difficulty data) (d_hash data).

End WithLibs.
End Block.

(** ** [storage/sqlite_storage.py] *)

(** The metadata dict kept under the key ["blockchain:metadata"]; an absent
    key of the dict is [None]. *)
Module Metadata.

Record t : Type := Build {
  difficulty : option Z;
  mining_reward : option Q;
  last_updated : option Q;
  created_at : option Q
}.

End Metadata.

Module SQLiteStorage.

(** A stored byte string: the JSON text of a metadata dict, or other bytes. *)
Inductive bytes : Type :=
| Raw (s : string)
| MetadataJson (m : Metadata.t).

(** The tables of the database. [io_faults] lists, for the coming write
    statements in order, whether the statement raises ([true]); past the end
    of the list every statement succeeds. A statement that raises leaves the
    tables as they are and the method returns [False]. Read statements are
    taken to succeed. *)
Record t : Type := Build {
  key_value : gmap string bytes;
  blocks : gmap string (Block.dict * Z);
  block_height_index : gmap Z string;
  transaction_index : gmap string (string * Z);
  account_balances : gmap string Q;
  io_faults : list bool
}.

(** A database file that does not exist yet. *)
Definition fresh (io_faults : list bool) : t := Build ∅ ∅ ∅ ∅ ∅ io_faults.

Definition with_faults (self : t) (io_faults : list bool) : t :=
  Build (key_value self) (blocks self) (block_height_index self)
        (transaction_index self) (account_balances self) io_faults.

(** [cursor.execute(...); self.conn.commit(); return True] inside
    [try ... except: return False]. *)
Definition write (self : t) (statement : t → t) : bool * t :=
  match io_faults self with
  | true :: rest => (false, with_faults self rest)
  | false :: rest => (true, with_faults (statement self) rest)
  | [] => (true, statement self)
  end.

Definition put (self : t) (key : string) (value : bytes) : bool * t :=
  write self (fun s =>
    Build (<[key := value]> (key_value s)) (blocks s) (block_height_index s)
          (transaction_index s) (account_balances s) (io_faults s)).

Definition get (self : t) (key : string) : option bytes := key_value self !! key.

Definition delete (self : t) (key : string) : bool * t :=
  write self (fun s =>
    Build (base.delete key (key_value s)) (blocks s) (block_height_index s)
          (transaction_index s) (account_balances s) (io_faults s)).

(** [store_block]: the [block_height] column is the ['index'] of the JSON. *)
Definition store_block (self : t) (block_hash : string) (block_data : Block.dict)
  : bool * t :=
  write self (fun s =>
    Build (key_value s) (<[block_hash := (block_data, Block.d_index block_data)]> (blocks s))
          (block_height_index s) (transaction_index s) (account_balances s)
          (io_faults s)).

Definition get_block (self : t) (block_hash : string) : option Block.dict :=
  fst <$> blocks self !! block_hash.

Definition store_block_index (self : t) (block_height : Z) (block_hash : string)
  : bool * t :=
  write self (fun s =>
    Build (key_value s) (blocks s) (<[block_height := block_hash]> (block_height_index s))
          (transaction_index s) (account_balances s) (io_faults s)).

Definition get_block_hash_by_height (self : t) (height : Z) : option string :=
  block_height_index self !! height.

Definition store_transaction_index (self : t) (tx_hash block_hash : string)
    (tx_index : Z) : bool * t :=
  write self (fun s =>
    Build (key_value s) (blocks s) (block_height_index s)
          (<[tx_hash := (block_hash, tx_index)]> (transaction_index s))
          (account_balances s) (io_faults s)).

Definition get_transaction_location (self : t) (tx_hash : string)
  : option (string * Z) :=
  transaction_index self !! tx_hash.

Definition store_account_balance (self : t) (address : string) (balance : Q)
  : bool * t :=
  write self (fun s =>
    Build (key_value s) (blocks s) (block_height_index s) (transaction_index s)
          (<[address := balance]> (account_balances s)) (io_faults s)).

Definition get_account_balance (self : t) (address : string) : option Q :=
  account_balances self !! address.

(** [SELECT MAX(height) FROM block_height_index], [-1] on an empty table. *)
Definition get_latest_block_height (self : t) : Z :=
  match (map_to_list (block_height_index self)).*1 with
  | [] => -1
  | h :: hs => foldr Z.max h hs
  end.

(** [SELECT address FROM account_balances] *)
Definition get_all_accounts (self : t) : list string :=
  (map_to_list (account_balances self)).*1.

(** [exists]: [SELECT 1 FROM key_value WHERE key = ? LIMIT 1]. *)
Definition exists_ (self : t) (key : string) : bool :=
  bool_decide (is_Some (key_value self !! key)).

End SQLiteStorage.

(** ** [storage/storage_manager.py]

    The manager of the ['sqlite'] storage type (which ['leveldb'] falls back
    to when that engine is missing): [self.storage] is [self.local_storage].
    With the ['distributed'] type only the metadata key goes through the
    replicating wrapper; blocks, indices and balances are always written to
    [self.local_storage]. *)

Module StorageManager.

Record t : Type := Build { local_storage : SQLiteStorage.t }.

(** The file written by [export_blockchain_data]. *)
Record export_data : Type := Export {
  metadata : Metadata.t;
  blocks : list Block.dict;
  balances : gmap string Q;
  export_time : Q
}.

(** The [for tx_index, transaction in enumerate(block.transactions)] loop of
    [store_block]: a failed index write is only reported. *)
Fixpoint store_transaction_indices (ls : SQLiteStorage.t) (block_hash : string)
    (tx_index : Z) (transactions : list Transaction.t) : SQLiteStorage.t :=
  match transactions with
  | [] => ls
  | transaction :: rest =>
      let ls' := (SQLiteStorage.store_transaction_index ls
                    (Transaction.transaction_id transaction) block_hash tx_index).2 in
      store_transaction_indices ls' block_hash (tx_index + 1) rest
  end.

Definition store_block (self : t) (block : Block.t) : bool * t :=
  let block_data := Block.to_dict block in
  let '(ok, ls1) := SQLiteStorage.store_block (local_storage self) (Block.hash block) block_data in
  if negb ok then (false, Build ls1)
  else
    let '(ok, ls2) := SQLiteStorage.store_block_index ls1 (Block.index block) (Block.hash block) in
    if negb ok then (false, Build ls2)
    else (true, Build (store_transaction_indices ls2 (Block.hash block) 0
                         (Block.transactions block))).

(** [store_balances]: one write per item of the dict; with faults pending,
    the writes are taken in the order of [map_to_list]. *)
Definition store_balances (self : t) (balances : gmap string Q) : bool * t :=
  let '(success_count, ls) :=
    foldl (fun (acc : nat * SQLiteStorage.t) (item : string * Q) =>
             let '(ok, ls') := SQLiteStorage.store_account_balance acc.2 item.1 item.2 in
             (if ok then S acc.1 else acc.1, ls'))
          (O, local_storage self) (map_to_list balances) in
  (bool_decide (success_count = size balances), Build ls).

Definition get_balance (self : t) (address : string) : Q :=
  match SQLiteStorage.get_account_balance (local_storage self) address with
  | Some balance => balance
  | None => 0%Q
  end.

Definition get_all_balances (self : t) : gmap string Q :=
  foldl (fun (balances : gmap string Q) address =>
           let balance := get_balance self address in
           if Py.lt 0 balance then <[address := balance]> balances else balances)
        ∅ (SQLiteStorage.get_all_accounts (local_storage self)).

Definition get_latest_block_height (self : t) : Z :=
  SQLiteStorage.get_latest_block_height (local_storage self).

Definition store_blockchain_metadata (self : t) (metadata : Metadata.t) : bool * t :=
  let '(ok, ls) := SQLiteStorage.put (local_storage self) "blockchain:metadata"
                     (SQLiteStorage.MetadataJson metadata) in
  (ok, Build ls).

(** [get_blockchain_metadata]; [now] is [time.time()]. Bytes under the key
    that are not a metadata dict make [json.loads] or the caller fail, and
    count as absent. *)
Definition get_blockchain_metadata (self : t) (now : Q) : Metadata.t :=
  match SQLiteStorage.get (local_storage self) "blockchain:metadata" with
  | Some (SQLiteStorage.MetadataJson m) => m
  | _ => Metadata.Build (Some 4) (Some (50 # 1)%Q) None (Some now)
  end.

Section WithLibs.
Context `{!Libs}.

Definition get_block_by_hash (self : t) (block_hash : string) : option Block.t :=
  match SQLiteStorage.get_block (local_storage self) block_hash with
  | Some block_data => Some (Block.from_dict block_data)
  | None => None
  end.

Definition get_block_by_height (self : t) (height : Z) : option Block.t :=
  match SQLiteStorage.get_block_hash_by_height (local_storage self) height with
  | Some block_hash =>
      if Py.truthy block_hash then get_block_by_hash self block_hash else None
  | None => None
  end.

(** [get_transaction_by_hash]: the location from the transaction index, then
    the block; an index past the end gives [None], as does the [IndexError]
    of an index before the start, which [except] catches. *)
Definition get_transaction_by_hash (self : t) (tx_hash : string)
  : option (Transaction.t * Z) :=
  match SQLiteStorage.get_transaction_location (local_storage self) tx_hash with
  | Some (block_hash, tx_index) =>
      match get_block_by_hash self block_hash with
      | Some block =>
          if tx_index <? Z.of_nat (length (Block.transactions block))
          then (fun tx => (tx, Block.index block))
                 <$> Py.getitem (Block.transactions block) tx_index
          else None
      | None => None
      end
  | None => None
  end.

(** [export_blockchain_data]: the content of the file it writes; [now] and
    [export_now] are the two readings of [time.time()]. *)
Definition export_blockchain_data (self : t) (now export_now : Q) : export_data :=
  let latest_height := get_latest_block_height self in
  let blocks :=
    omap (fun height => Block.to_dict <$> get_block_by_height self height)
         (seqZ 0 (latest_height + 1)) in
  Export (get_blockchain_metadata self now) blocks (get_all_balances self) export_now.

Definition import_blockchain_data (self : t) (import_data : export_data) : bool * t :=
  let self1 := (store_blockchain_metadata self (metadata import_data)).2 in
  let self2 :=
    foldl (fun (s : t) block_dict => (store_block s (Block.from_dict block_dict)).2)
          self1 (blocks import_data) in
  let self3 := (store_balances self2 (balances import_data)).2 in
  (true, self3).

End WithLibs.

(** [cleanup_old_data] on the SQLite engine: two [DELETE] statements, then the
    commit. The first statement that raises ends the method with [False];
    the tables are what the connection sees afterwards. *)
Definition cleanup_old_data (self : t) (keep_blocks : Z) : bool * t :=
  let latest_height := get_latest_block_height self in
  if latest_height <=? keep_blocks then (true, self)
  else
    let cleanup_height := latest_height - keep_blocks in
    let '(ok, ls1) :=
      SQLiteStorage.write (local_storage self) (fun s =>
        SQLiteStorage.Build (SQLiteStorage.key_value s) (SQLiteStorage.blocks s)
          (filter (fun row : Z * string => cleanup_height ≤ row.1)
                  (SQLiteStorage.block_height_index s))
          (SQLiteStorage.transaction_index s) (SQLiteStorage.account_balances s)
          (SQLiteStorage.io_faults s)) in
    if negb ok then (false, Build ls1)
    else
      let '(ok, ls2) :=
        SQLiteStorage.write ls1 (fun s =>
          SQLiteStorage.Build (SQLiteStorage.key_value s)
            (filter (fun row : string * (Block.dict * Z) => cleanup_height ≤ row.2.2)
                    (SQLiteStorage.blocks s))
            (SQLiteStorage.block_height_index s)
            (SQLiteStorage.transaction_index s) (SQLiteStorage.account_balances s)
            (SQLiteStorage.io_faults s)) in
      (ok, Build ls2).

End StorageManager.

(** ** [core/blockchain.py] *)

Module Blockchain.

Record t : Type := Build {
  difficulty : Z;
  mining_reward : Q;
  pending_transactions : list Transaction.t;
  balances : gmap string Q;
  storage_manager : StorageManager.t
}.

Definition set_storage_manager (self : t) (sm : StorageManager.t) : t :=
  Build (difficulty self) (mining_reward self) (pending_transactions self)
        (balances self) sm.

Definition set_pending_transactions (self : t) (pending : list Transaction.t) : t :=
  Build (difficulty self) (mining_reward self) pending (balances self)
        (storage_manager self).

Definition set_balances (self : t) (balances : gmap string Q) : t :=
  Build (difficulty self) (mining_reward self) (pending_transactions self)
        balances (storage_manager self).

Definition set_difficulty (self : t) (difficulty : Z) : t :=
  Build difficulty (mining_reward self) (pending_transactions self)
        (balances self) (storage_manager self).

(** What one call of [mine_pending_transactions] reads from outside: the
    clock and nonce of the reward transaction, the clock of the new block
    and the clock of [_save_to_storage]. *)
Record mine_env : Type := MineEnv {
  reward_time : Q;
  reward_nonce : string;
  block_time : Q;
  save_time : Q
}.

Definition get_balance (self : t) (address : string) : Q :=
  StorageManager.get_balance (storage_manager self) address.

(** One round of the loop of [_update_balances_from_block]. *)
Definition update_balance (balances : gmap string Q) (transaction : Transaction.t)
  : gmap string Q :=
  let balances1 :=
    if Py.truthy (Transaction.sender transaction) then
      <[Transaction.sender transaction :=
          (default 0%Q (balances !! Transaction.sender transaction)
           - Transaction.amount transaction)%Q]> balances
    else balances in
  <[Transaction.receiver transaction :=
      (default 0%Q (balances1 !! Transaction.receiver transaction)
       + Transaction.amount transaction)%Q]> balances1.

Definition _update_balances_from_block (self : t) (block : Block.t) : t :=
  set_balances self (foldl update_balance (balances self) (Block.transactions block)).

Definition _save_to_storage (self : t) (now : Q) : t :=
  let metadata := Metadata.Build (Some (difficulty self)) (Some (mining_reward self))
                                 (Some now) None in
  let sm1 := (StorageManager.store_blockchain_metadata (storage_manager self) metadata).2 in
  let sm2 := (StorageManager.store_balances sm1 (balances self)).2 in
  set_storage_manager self sm2.

Section WithLibs.
Context `{!Libs}.

Definition _create_genesis_block (self : t) (now : Q) : t :=
  let genesis_block := Block.new 0 [] "0" "" now in
  let genesis_block := Block.set_nonce genesis_block 0 in
  let genesis_block := Block.set_hash genesis_block (Block._calculate_hash genesis_block) in
  set_storage_manager self
    (StorageManager.store_block (storage_manager self) genesis_block).2.

(** [_load_from_storage]; none of the modelled calls raises, so the
    [except] branch is not taken. *)
Definition _load_from_storage (self : t) (now genesis_now : Q) : t :=
  let metadata := StorageManager.get_blockchain_metadata (storage_manager self) now in
  let self1 :=
    Build (default (difficulty self) (Metadata.difficulty metadata))
          (default (mining_reward self) (Metadata.mining_reward metadata))
          (pending_transactions self)
          (StorageManager.get_all_balances (storage_manager self))
          (storage_manager self) in
  if StorageManager.get_latest_block_height (storage_manager self1) =? -1
  then _create_genesis_block self1 genesis_now
  else self1.

(** [Blockchain(difficulty, mining_reward, storage_config)] over the
    database that [storage_config] opens. *)
Definition new (difficulty : Z) (mining_reward : Q) (storage : StorageManager.t)
    (now genesis_now : Q) : t :=
  _load_from_storage (Build difficulty mining_reward [] ∅ storage) now genesis_now.

(** The [chain] property. *)
Definition chain (self : t) : list Block.t :=
  omap (StorageManager.get_block_by_height (storage_manager self))
       (seqZ 0 (StorageManager.get_latest_block_height (storage_manager self) + 1)).

Definition get_latest_block (self : t) : option Block.t :=
  let latest_height := StorageManager.get_latest_block_height (storage_manager self) in
  if 0 <=? latest_height
  then StorageManager.get_block_by_height (storage_manager self) latest_height
  else None.

Definition validate_transaction (self : t) (transaction : Transaction.t) : bool :=
  if negb (Transaction.is_valid transaction) then false
  else
    let sender_balance := get_balance self (Transaction.sender transaction) in
    let total_cost := (Transaction.amount transaction + Transaction.fee transaction)%Q in
    if Py.lt sender_balance total_cost then false else true.

Definition add_transaction (self : t) (transaction : Transaction.t) : bool * t :=
  if validate_transaction self transaction
  then (true, set_pending_transactions self (pending_transactions self ++ [transaction]))
  else (false, self).

(** [_mine_block]: the search leaves the block's own [difficulty] alone. *)
Definition _mine_block (fuel : nat) (self : t) (block : Block.t) : option Block.t :=
  Block.nonce_search fuel (Py.str_mul "0" (difficulty self)) block.

(** The block that [mine_pending_transactions] builds before mining it. *)
Definition candidate_block (self : t) (mining_reward_address : string)
    (env : mine_env) : Block.t :=
  let reward_transaction :=
    Transaction.new "" mining_reward_address (mining_reward self) 0%Q ""
                    (reward_time env) (reward_nonce env) in
  let latest_block := get_latest_block self in
  let previous_hash :=
    match latest_block with Some b => Block.hash b | None => "0" end in
  let new_index :=
    match latest_block with Some b => Block.index b + 1 | None => 0 end in
  let transactions := pending_transactions self ++ [reward_transaction] in
  Block.new new_index transactions previous_hash "" (block_time env).

(** [mine_pending_transactions]. The outer [None] means that the nonce
    search did not end within [fuel] rounds; the inner option is the value
    the method returns. *)
Definition mine_pending_transactions (fuel : nat) (self : t)
    (mining_reward_address : string) (env : mine_env)
  : option (option Block.t * t) :=
  match pending_transactions self with
  | [] => Some (None, self)
  | _ =>
      match _mine_block fuel self (candidate_block self mining_reward_address env) with
      | None => None
      | Some new_block =>
          let '(stored, sm) := StorageManager.store_block (storage_manager self) new_block in
          let self1 := set_storage_manager self sm in
          if stored then
            let self2 := _update_balances_from_block self1 new_block in
            let self3 := set_pending_transactions self2 [] in
            let self4 := _save_to_storage self3 (save_time env) in
            Some (Some new_block, self4)
          else Some (None, self1)
      end
  end.

(** The body of the [for height in range(1, latest_height + 1)] loop of
    [is_chain_valid]: [Ok true] when every height passes, [Ok false] at the
    first [return False], [Raise] when a call raises. The loop calls
    [current_block.calculate_hash()]. *)
Fixpoint check_heights (self : t) (heights : list Z) : Py.result bool :=
  match heights with
  | [] => Py.Ok true
  | height :: rest =>
      match StorageManager.get_block_by_height (storage_manager self) height,
            StorageManager.get_block_by_height (storage_manager self) (height - 1) with
      | Some current_block, Some previous_block =>
          if negb (String.eqb (Block.previous_hash current_block) (Block.hash previous_block))
          then Py.Ok false
          else
            match Block.hash_method "calculate_hash" with
            | None => Py.Raise (Py.AttributeError "Block" "calculate_hash")
            | Some calculate_hash =>
                if negb (String.eqb (Block.hash current_block) (calculate_hash current_block))
                then Py.Ok false
                else check_heights self rest
            end
      | _, _ => Py.Ok false
      end
  end.

(** [is_chain_valid]: [except Exception] turns every exception into
    [False]. *)
Definition is_chain_valid (self : t) : bool :=
  let latest_height := StorageManager.get_latest_block_height (storage_manager self) in
  match check_heights self (seqZ 1 latest_height) with
  | Py.Ok b => b
  | Py.Raise _ => false
  end.

(** What the specification asks of [is_chain_valid], in its words: for every
    height >= 1, [previous_hash] equals the hash of the block at [height - 1]
    and the stored hash equals the recomputed hash. *)
Definition linked_and_hashed (self : t) : Prop :=
  ∀ height, 1 ≤ height ≤ StorageManager.get_latest_block_height (storage_manager self) →
    ∃ current_block previous_block,
      StorageManager.get_block_by_height (storage_manager self) height = Some current_block ∧
      StorageManager.get_block_by_height (storage_manager self) (height - 1) = Some previous_block ∧
      Block.previous_hash current_block = Block.hash previous_block ∧
      Block.hash current_block = Block._calculate_hash current_block.

(** [get_transaction_by_id]: the first block of the chain that holds a
    transaction with that identifier, with the index of the block. *)
Fixpoint find_transaction (blocks : list Block.t) (transaction_id : string)
  : option (Transaction.t * Z) :=
  match blocks with
  | [] => None
  | block :: rest =>
      match Block.get_transaction_by_id block transaction_id with
      | Some transaction => Some (transaction, Block.index block)
      | None => find_transaction rest transaction_id
      end
  end.

Definition get_transaction_by_id (self : t) (transaction_id : string)
  : option (Transaction.t * Z) :=
  find_transaction (chain self) transaction_id.

(** [get_transactions_by_address] *)
Definition get_transactions_by_address (self : t) (address : string)
  : list (Transaction.t * Z) :=
  block ← chain self;
  (fun transaction => (transaction, Block.index block)) <$>
    filter (fun transaction => Transaction.sender transaction = address
                               ∨ Transaction.receiver transaction = address)
           (Block.transactions block).

(** [adjust_difficulty]; [latest_block.timestamp] raises when the storage
    has no block at the latest height. [self.chain[-2]] is there, since the
    chain has two blocks: the last case of the [match] is not reached. The
    target is 10 seconds. *)
Definition adjust_difficulty (self : t) : Py.result t :=
  if (length (chain self) <? 2)%nat then Py.Ok self
  else
    match get_latest_block self,
          Py.getitem (chain self) (-2) with
    | Some latest_block, Some previous_block =>
        let time_taken := (Block.timestamp latest_block - Block.timestamp previous_block)%Q in
        if Py.lt time_taken (10 / 2)%Q
        then Py.Ok (set_difficulty self (difficulty self + 1))
        else if Py.lt (10 * 2)%Q time_taken
        then Py.Ok (set_difficulty self (Z.max 1 (difficulty self - 1)))
        else Py.Ok self
    | None, _ => Py.Raise (Py.AttributeError "NoneType" "timestamp")
    | Some _, None => Py.Ok self
    end.

(** The same, decided height by height. *)
Definition linked_and_hashed_b (self : t) : bool :=
  forallb
    (fun height =>
       match StorageManager.get_block_by_height (storage_manager self) height,
             StorageManager.get_block_by_height (storage_manager self) (height - 1) with
       | Some current_block, Some previous_block =>
           String.eqb (Block.previous_hash current_block) (Block.hash previous_block)
           && String.eqb (Block.hash current_block) (Block._calculate_hash current_block)
       | _, _ => false
       end)
    (seqZ 1 (StorageManager.get_latest_block_height (storage_manager self))).

End WithLibs.
End Blockchain.

(** ** [storage/distributed_storage.py] *)

Module DistributedStorage.

(** The outcome of one HTTP request to a peer: a status code, or an
    exception of [requests] (time-out, refused connection). *)
Inductive response : Type :=
| Status (code : Z)
| Failed.

(** The peers as the node sees them during one operation: the answer of
    each node to the health probe, to a replicated put and to a replicated
    delete. *)
Record network : Type := Network {
  health : string → response;
  storage_put : string → string → SQLiteStorage.bytes → response;
  storage_delete : string → string → response
}.

Record t : Type := Build {
  local_storage : SQLiteStorage.t;
  peer_nodes : list string;
  replication_factor : Z;
  consistency_level : string;
  node_health : gmap string bool
}.

Definition set_node_health (self : t) (node : string) (healthy : bool) : t :=
  Build (local_storage self) (peer_nodes self) (replication_factor self)
        (consistency_level self) (<[node := healthy]> (node_health self)).

Definition set_local_storage (self : t) (ls : SQLiteStorage.t) : t :=
  Build ls (peer_nodes self) (replication_factor self) (consistency_level self)
        (node_health self).

(** [DistributedStorage(local_storage, peer_nodes, replication_factor,
    consistency_level)] *)
Definition new (local_storage : SQLiteStorage.t) (peer_nodes : list string)
    (replication_factor : Z) (consistency_level : string) : t :=
  Build local_storage peer_nodes
        (Z.min replication_factor (Z.of_nat (length peer_nodes) + 1))
        consistency_level
        (list_to_map (map (fun node => (node, true)) peer_nodes)).

Definition is_ok (r : response) : bool :=
  match r with
  | Status code => code =? 200
  | Failed => false
  end.

Definition _check_node_health (self : t) (net : network) (node : string) : bool * t :=
  let healthy := is_ok (health net node) in
  (healthy, set_node_health self node healthy).

Section WithLibs.
Context `{!Libs}.

Definition _get_key_hash (key : string) : string := md5 key.

Definition _select_nodes_for_key (self : t) (key : string) : list string :=
  let key_hash := _get_key_hash key in
  let available_nodes :=
    filter (fun node => default false (node_health self !! node) = true)
           (peer_nodes self) in
  match available_nodes with
  | [] => []
  | _ =>
      let hash_int := Z.of_N (Py.int16 key_hash) in
      omap (fun i => available_nodes !!
                       Z.to_nat ((hash_int + i) mod Z.of_nat (length available_nodes)))
           (seqZ 0 (replication_factor self - 1))
  end.

(** One round of the loop of [_replicate_to_peers]. *)
Definition replicate_to (net : network) (key : string) (value : SQLiteStorage.bytes)
    (operation : string) (acc : gmap string bool * t) (node : string)
  : gmap string bool * t :=
  let '(results, self) := acc in
  let '(healthy, self1) := _check_node_health self net node in
  if negb healthy then (<[node := false]> results, self1)
  else if String.eqb operation "put" then
    match storage_put net node key value with
    | Status code => (<[node := (code =? 200)]> results, self1)
    | Failed => (<[node := false]> results, set_node_health self1 node false)
    end
  else if String.eqb operation "delete" then
    match storage_delete net node key with
    | Status code => (<[node := (code =? 200)]> results, self1)
    | Failed => (<[node := false]> results, set_node_health self1 node false)
    end
  else (results, self1).

Definition _replicate_to_peers (self : t) (net : network) (key : string)
    (value : SQLiteStorage.bytes) (operation : string) : gmap string bool * t :=
  foldl (replicate_to net key value operation) (∅, self)
        (_select_nodes_for_key self key).

(** [sum(1 for success in replication_results.values() if success)] *)
Definition successful_replications (replication_results : gmap string bool) : Z :=
  Z.of_nat (length (filter (fun kv => kv.2 = true) (map_to_list replication_results))).

Definition required_success (self : t) (replication_results : gmap string bool) : Z :=
  if String.eqb (consistency_level self) "strong"
  then Z.of_nat (size replication_results)
  else if String.eqb (consistency_level self) "quorum"
  then Z.of_nat (size replication_results) / 2 + 1
  else 1.

(** [put]. Under ["eventual"] the replication runs on a daemon thread after
    the method has returned; the returned state is the one at the return. *)
Definition put (self : t) (net : network) (key : string) (value : SQLiteStorage.bytes)
  : bool * t :=
  let '(local_success, ls) := SQLiteStorage.put (local_storage self) key value in
  let self1 := set_local_storage self ls in
  if String.eqb (consistency_level self) "eventual" then (local_success, self1)
  else
    let '(replication_results, self2) := _replicate_to_peers self1 net key value "put" in
    (local_success &&
       (required_success self replication_results
          <=? successful_replications replication_results),
     self2).

(** The answer of a peer to [GET /api/v1/storage/<key>]: a decoded value
    (status 200 with a ['value']), no value (another status, or no ['value']
    in the body), or an exception (of [requests], of [response.json()] or of
    [base64.b64decode]). *)
Inductive read_response : Type :=
| Found (value : SQLiteStorage.bytes)
| NotFound
| ReadFailed.

(** The loop of [_read_from_peers] over the selected nodes. *)
Fixpoint read_from (net : network) (storage_get : string → string → read_response)
    (key : string) (self : t) (nodes : list string) : option SQLiteStorage.bytes * t :=
  match nodes with
  | [] => (None, self)
  | node :: rest =>
      let '(healthy, self1) := _check_node_health self net node in
      if negb healthy then read_from net storage_get key self1 rest
      else
        match storage_get node key with
        | Found value => (Some value, self1)
        | NotFound => read_from net storage_get key self1 rest
        | ReadFailed =>
            read_from net storage_get key (set_node_health self1 node false) rest
        end
  end.

Definition _read_from_peers (self : t) (net : network)
    (storage_get : string → string → read_response) (key : string)
  : option SQLiteStorage.bytes * t :=
  read_from net storage_get key self (_select_nodes_for_key self key).

(** [get]: the local value, or else the value of a peer, which is then
    written to the local storage. *)
Definition get (self : t) (net : network)
    (storage_get : string → string → read_response) (key : string)
  : option SQLiteStorage.bytes * t :=
  match SQLiteStorage.get (local_storage self) key with
  | Some value => (Some value, self)
  | None =>
      match peer_nodes self with
      | [] => (None, self)
      | _ =>
          let '(peer_value, self1) := _read_from_peers self net storage_get key in
          match peer_value with
          | Some value =>
              (Some value,
               set_local_storage self1
                 (SQLiteStorage.put (local_storage self1) key value).2)
          | None => (None, self1)
          end
      end
  end.

Definition delete (self : t) (net : network) (key : string) : bool * t :=
  let '(local_success, ls) := SQLiteStorage.delete (local_storage self) key in
  let self1 := set_local_storage self ls in
  if String.eqb (consistency_level self) "eventual" then (local_success, self1)
  else
    let '(replication_results, self2) :=
      _replicate_to_peers self1 net key (SQLiteStorage.Raw "") "delete" in
    (local_success &&
       (required_success self replication_results
          <=? successful_replications replication_results),
     self2).

End WithLibs.

Definition set_peer_nodes (self : t) (peer_nodes : list string) : t :=
  Build (local_storage self) peer_nodes (replication_factor self)
        (consistency_level self) (node_health self).

(** [add_peer_node]: the health of the new node is that of one probe. *)
Definition add_peer_node (self : t) (net : network) (node_url : string) : bool * t :=
  if decide (node_url ∈ peer_nodes self) then (false, self)
  else
    let self1 := set_peer_nodes self (peer_nodes self ++ [node_url]) in
    let '(healthy, self2) := _check_node_health self1 net node_url in
    (true, set_node_health self2 node_url healthy).

(** [remove_peer_node]: [list.remove] and [dict.pop(node_url, None)]. *)
Definition remove_peer_node (self : t) (node_url : string) : bool * t :=
  if decide (node_url ∈ peer_nodes self) then
    (true,
     Build (local_storage self) (Py.remove node_url (peer_nodes self))
           (replication_factor self) (consistency_level self)
           (base.delete node_url (node_health self)))
  else (false, self).

(** The dict of [get_cluster_status]. *)
Record cluster_status : Type := ClusterStatus {
  total_nodes : Z;
  healthy_nodes : Z;
  unhealthy_nodes : Z;
  healthy_node_list : list string;
  unhealthy_node_list : list string;
  cluster_replication_factor : Z;
  cluster_consistency_level : string
}.

(** One round of the loop of [get_cluster_status]. *)
Definition probe (net : network) (acc : list string * list string * t) (node : string)
  : list string * list string * t :=
  let '(healthy_list, unhealthy_list, self) := acc in
  let '(healthy, self1) := _check_node_health self net node in
  if healthy then (healthy_list ++ [node], unhealthy_list, self1)
  else (healthy_list, unhealthy_list ++ [node], self1).

Definition get_cluster_status (self : t) (net : network) : cluster_status * t :=
  let '(healthy_list, unhealthy_list, self1) :=
    foldl (probe net) ([], [], self) (peer_nodes self) in
  (ClusterStatus (Z.of_nat (length (peer_nodes self)) + 1)
                 (Z.of_nat (length healthy_list) + 1)
                 (Z.of_nat (length unhealthy_list))
                 healthy_list unhealthy_list
                 (replication_factor self) (consistency_level self),
   self1).

End DistributedStorage.

(** ** Notions used to state the properties *)

Module MerkleSpec.

(** The levels that [get_merkle_path] visits: all but the last. *)
Definition visited (tree_levels : list (list string)) : list (list string) :=
  take (length tree_levels - 1) tree_levels.

(** The node reached from [index] has a recorded sibling at every visited
    level, that is, it is never the odd node at the end of a level. *)
Fixpoint has_siblings (levels : list (list string)) (index : nat) : Prop :=
  match levels with
  | [] => True
  | current_level :: rest =>
      (Nat.even index = true → (index + 1 < length current_level)%nat) ∧
      has_siblings rest (index / 2)
  end.

End MerkleSpec.

Module BlockSpec.

(** Two blocks that differ at most in [nonce] and [hash], the attributes
    that the nonce search changes. *)
Definition same_content (a b : Block.t) : Prop :=
  Block.index a = Block.index b ∧ Block.timestamp a = Block.timestamp b ∧
  Block.transactions a = Block.transactions b ∧
  Block.previous_hash a = Block.previous_hash b ∧
  Block.miner_address a = Block.miner_address b ∧
  Block.merkle_tree a = Block.merkle_tree b ∧
  Block.merkle_root a = Block.merkle_root b ∧
  Block.difficulty a = Block.difficulty b.

End BlockSpec.

Module PoolSpec.

(** The operations of a [TransactionPool], to speak of every sequence of
    calls. *)
Inductive op : Type :=
| Add (transaction : Transaction.t)
| GetForBlock (max_count : Z)
| Remove (transaction_id : string)
| Clear.

Section WithLibs.
Context `{!Libs}.

Definition apply (pool : TransactionPool.t) (o : op) : TransactionPool.t :=
  match o with
  | Add transaction => (TransactionPool.add_transaction pool transaction).2
  | GetForBlock max_count => (TransactionPool.get_transactions_for_block pool max_count).2
  | Remove transaction_id => (TransactionPool.remove_transaction pool transaction_id).2
  | Clear => TransactionPool.clear pool
  end.

Definition run (pool : TransactionPool.t) (ops : list op) : TransactionPool.t :=
  foldl apply pool ops.

End WithLibs.

Definition ids (pending : list Transaction.t) : list string :=
  Transaction.transaction_id <$> pending.

(** The keys of [transaction_map] are the identifiers of
    [pending_transactions]. *)
Definition keys_match (pool : TransactionPool.t) : Prop :=
  dom (TransactionPool.transaction_map pool)
  = (list_to_set (ids (TransactionPool.pending_transactions pool)) : gset string).

(** The pool holds no more than [max_size] entries. *)
Definition within_capacity (pool : TransactionPool.t) : Prop :=
  Z.of_nat (length (TransactionPool.pending_transactions pool))
  ≤ TransactionPool.max_size pool.

(** The list and the map hold the same transactions, each once and under
    its own identifier. *)
Definition consistent (pool : TransactionPool.t) : Prop :=
  NoDup (ids (TransactionPool.pending_transactions pool)) ∧
  (∀ tx, tx ∈ TransactionPool.pending_transactions pool →
         TransactionPool.transaction_map pool !! Transaction.transaction_id tx = Some tx) ∧
  (∀ k tx, TransactionPool.transaction_map pool !! k = Some tx →
           Transaction.transaction_id tx = k ∧
           tx ∈ TransactionPool.pending_transactions pool).

(** The pending list is in order of descending fee. *)
Definition by_fee_desc (a b : Transaction.t) : Prop :=
  (Transaction.fee b <= Transaction.fee a)%Q.

Definition fee_sorted (pool : TransactionPool.t) : Prop :=
  StronglySorted by_fee_desc (TransactionPool.pending_transactions pool).

End PoolSpec.

Module ClusterSpec.

(** Two nodes that differ at most in their health table. *)
Definition same_store (a b : DistributedStorage.t) : Prop :=
  DistributedStorage.local_storage a = DistributedStorage.local_storage b ∧
  DistributedStorage.peer_nodes a = DistributedStorage.peer_nodes b ∧
  DistributedStorage.replication_factor a = DistributedStorage.replication_factor b ∧
  DistributedStorage.consistency_level a = DistributedStorage.consistency_level b.

End ClusterSpec.

Module BalanceSpec.

(** The sum of all balances. *)
Definition total (balances : gmap string Q) : Q :=
  map_fold (fun _ balance acc => (balance + acc)%Q) 0%Q balances.

(** The amounts of the transactions without a sender, which are credited
    without being debited anywhere. *)
Definition minted (transactions : list Transaction.t) : Q :=
  foldr (fun transaction acc =>
           if Py.truthy (Transaction.sender transaction) then acc
           else (Transaction.amount transaction + acc)%Q)
        0%Q transactions.

End BalanceSpec.

Module ExportSpec.

(** A database on which no write is going to raise. *)
Definition quiet (sm : StorageManager.t) : Prop :=
  SQLiteStorage.io_faults (StorageManager.local_storage sm) = [].

Section WithLibs.
Context `{!Libs}.

(** Every block that the storage returns sits at the height that its own
    [index] gives, which is not negative, and has a non-empty hash. Chains
    grown by [_create_genesis_block] and [mine_pending_transactions] are such
    unless two of their blocks share a hash. *)
Definition well_indexed (sm : StorageManager.t) : Prop :=
  ∀ height block,
    StorageManager.get_block_by_height sm height = Some block →
    0 ≤ height ∧ Block.index block = height ∧ Block.hash block ≠ "".

(** Every row of the blocks table records, as its height, the index of the
    block it holds: what [store_block] writes. *)
Definition heights_recorded (sm : StorageManager.t) : Prop :=
  ∀ block_hash block_data block_height,
    SQLiteStorage.blocks (StorageManager.local_storage sm) !! block_hash
    = Some (block_data, block_height) →
    block_height = Block.d_index block_data.

Definition heights_recorded_b (sm : StorageManager.t) : bool :=
  forallb (fun row : string * (Block.dict * Z) => row.2.2 =? Block.d_index row.2.1)
          (map_to_list (SQLiteStorage.blocks (StorageManager.local_storage sm))).

(** The same, checked entry by entry of the height index. *)
Definition well_indexed_b (sm : StorageManager.t) : bool :=
  forallb (fun entry : Z * string =>
             match StorageManager.get_block_by_height sm entry.1 with
             | Some block =>
                 (0 <=? entry.1) && (Block.index block =? entry.1)
                 && Py.truthy (Block.hash block)
             | None => true
             end)
          (map_to_list (SQLiteStorage.block_height_index
                          (StorageManager.local_storage sm))).

(** Export to a file and import of the file into an empty database. *)
Definition round_trip (sm : StorageManager.t) (now export_now : Q) : StorageManager.t :=
  (StorageManager.import_blockchain_data
     (StorageManager.Build (SQLiteStorage.fresh []))
     (StorageManager.export_blockchain_data sm now export_now)).2.

End WithLibs.
End ExportSpec.

(** ** Concrete scenarios, evaluated with [python] *)

Module Scenario.

(** Four unsigned transfers with the fees 5, 1, 9 and 3. *)
Definition tx_fee5 : Transaction.t :=
  @Transaction.new python "alice" "bob" 10 5 "" 1700000001 "01".
Definition tx_fee1 : Transaction.t :=
  @Transaction.new python "bob" "carol" 10 1 "" 1700000002 "02".
Definition tx_fee9 : Transaction.t :=
  @Transaction.new python "carol" "dave" 10 9 "" 1700000003 "03".
Definition tx_fee3 : Transaction.t :=
  @Transaction.new python "dave" "alice" 10 3 "" 1700000004 "04".

(** A database in which the metadata sets the difficulty to 1 and alice
    owns 100. *)
Definition storage0 : StorageManager.t :=
  let sm1 := (StorageManager.store_blockchain_metadata
                (StorageManager.Build (SQLiteStorage.fresh []))
                (Metadata.Build (Some 1) (Some 50%Q) (Some 1700000000%Q) None)).2 in
  (StorageManager.store_balances sm1 {[ "alice" := 100%Q ]}).2.

(** The chain opened on it, which creates the genesis block. *)
Definition chain0 : Blockchain.t :=
  @Blockchain.new python 4 50 storage0 1700000010 1700000011.

(** Alice sends 30 to bob, twice 60 to carol: each transfer alone is
    covered by her stored balance. *)
Definition tx_bob : Transaction.t :=
  @Transaction.new python "alice" "bob" 30 1 "" 1700000020 "0a".
Definition tx_carol1 : Transaction.t :=
  @Transaction.new python "alice" "carol" 60 0 "" 1700000021 "0b".
Definition tx_carol2 : Transaction.t :=
  @Transaction.new python "alice" "carol" 60 0 "" 1700000022 "0c".

Definition chain1 : Blockchain.t :=
  (@Blockchain.add_transaction python chain0 tx_bob).2.

Definition env1 : Blockchain.mine_env :=
  Blockchain.MineEnv 1700000030 "0d" 1700000031 1700000032.

(** The chain after the miner has mined the pending transfer. *)
Definition mined1 : option (option Block.t * Blockchain.t) :=
  @Blockchain.mine_pending_transactions python 64 chain1 "miner" env1.

Definition block1 : Block.t :=
  match mined1 with
  | Some (Some block, _) => block
  | _ => @Blockchain.candidate_block python chain1 "miner" env1
  end.

Definition chain2 : Blockchain.t :=
  match mined1 with
  | Some (_, chain) => chain
  | None => chain1
  end.

(** Bob passes 10 on to carol, and the miner mines again: three blocks. *)
Definition tx_carol : Transaction.t :=
  @Transaction.new python "bob" "carol" 10 1 "" 1700000040 "0e".

Definition env2 : Blockchain.mine_env :=
  Blockchain.MineEnv 1700000050 "0f" 1700000051 1700000052.

Definition chain3 : Blockchain.t :=
  match @Blockchain.mine_pending_transactions python 64
          (@Blockchain.add_transaction python chain2 tx_carol).2 "miner" env2 with
  | Some (_, chain) => chain
  | None => chain2
  end.

(** The same, with the second block mined 3 seconds after the first. *)
Definition env_fast : Blockchain.mine_env :=
  Blockchain.MineEnv 1700000033 "10" 1700000034 1700000035.

Definition chain_fast : Blockchain.t :=
  match @Blockchain.mine_pending_transactions python 64
          (@Blockchain.add_transaction python chain2 tx_carol).2 "miner" env_fast with
  | Some (_, chain) => chain
  | None => chain2
  end.

(** Alice overdraws: both transfers of 60 are admitted against her stored
    balance of 100, and the block that holds them leaves her at -20. *)
Definition chain_overdrawn : Blockchain.t :=
  let chain := (@Blockchain.add_transaction python chain0 tx_carol1).2 in
  let chain := (@Blockchain.add_transaction python chain tx_carol2).2 in
  match @Blockchain.mine_pending_transactions python 64 chain "miner" env1 with
  | Some (_, chain) => chain
  | None => chain
  end.

(** The same chain before mining, over a database whose next write
    succeeds and whose second write raises. *)
Definition chain1_failing : Blockchain.t :=
  Blockchain.set_storage_manager chain1
    (StorageManager.Build
       (SQLiteStorage.with_faults
          (StorageManager.local_storage (Blockchain.storage_manager chain1))
          [false; true])).

End Scenario.

(** * Theorems *)

(** ** The Merkle engine *)

Module MerkleTreeFacts.
Import MerkleTree MerkleSpec.

Section WithLibs.
Context `{!Libs}.

Lemma length_pair_up (l : list string) : length (pair_up l) = (length l / 2)%nat.
Proof.
  induction l as [l IH] using (induction_ltof1 _ (@length string)).
  unfold ltof in IH.
  destruct l as [|a [|b rest]]; [done | done |].
  cbn [pair_up length]. rewrite IH by (cbn; lia).
  change (S (S (length rest))) with (2 + length rest)%nat.
  replace (2 + length rest)%nat with (length rest + 1 * 2)%nat by lia.
  rewrite Nat.div_add by lia. lia.
Qed.

Lemma length_pad_odd (l : list string) :
  length (pad_odd l) = (if Nat.odd (length l) then S (length l) else length l).
Proof.
  unfold pad_odd. destruct (Nat.odd (length l)) eqn:Hodd; [|done].
  destruct (last l) as [x|] eqn:Hlast.
  - rewrite length_app. cbn. lia.
  - apply last_None in Hlast. subst l. discriminate Hodd.
Qed.

Lemma length_next_level (l : list string) :
  length (pair_up (pad_odd l)) = ((length l + 1) / 2)%nat.
Proof.
  rewrite length_pair_up, length_pad_odd.
  destruct (Nat.odd (length l)) eqn:Hodd.
  - f_equal. lia.
  - apply (f_equal negb) in Hodd. rewrite Nat.negb_odd in Hodd. cbn in Hodd.
    apply Nat.even_spec in Hodd. destruct Hodd as [k Hk]. rewrite Hk.
    replace (2 * k + 1)%nat with (1 + k * 2)%nat by lia.
    rewrite Nat.div_add by lia.
    replace (2 * k)%nat with (0 + k * 2)%nat by lia.
    rewrite Nat.div_add by lia. reflexivity.
Qed.

Lemma next_level_shorter (l : list string) :
  (1 < length l)%nat →
  (1 ≤ length (pair_up (pad_odd l)) < length l)%nat.
Proof.
  intros Hl. rewrite length_next_level.
  assert ((length l + 1) / 2 < length l)%nat
    by (apply Nat.Div0.div_lt_upper_bound; lia).
  assert (1 ≤ (length l + 1) / 2)%nat
    by (apply Nat.div_le_lower_bound; lia).
  lia.
Qed.

(** The [while] loop of [_build_tree] ends by its own condition: with no
    more rounds than the number of leaves, the last level is the root alone. *)
Lemma build_levels_final (fuel : nat) (l : list string) :
  (1 ≤ length l ≤ fuel)%nat → length (build_levels fuel l).2 = 1%nat.
Proof.
  revert l. induction fuel as [|fuel IH]; intros l Hl; [lia|].
  cbn [build_levels].
  destruct (1 <? length l)%nat eqn:Hlt.
  - apply Nat.ltb_lt in Hlt.
    pose proof (next_level_shorter l Hlt) as Hn.
    specialize (IH (pair_up (pad_odd l)) ltac:(lia)).
    destruct (build_levels fuel (pair_up (pad_odd l))) as [levels final].
    exact IH.
  - apply Nat.ltb_ge in Hlt. cbn. lia.
Qed.

(** More rounds than leaves change nothing. *)
Lemma build_levels_fuel (fuel1 fuel2 : nat) (l : list string) :
  (length l ≤ fuel1)%nat → (length l ≤ fuel2)%nat →
  build_levels fuel1 l = build_levels fuel2 l.
Proof.
  revert fuel2 l. induction fuel1 as [|fuel1 IH]; intros fuel2 l H1 H2.
  - destruct l; [|cbn in H1; lia]. destruct fuel2; reflexivity.
  - destruct fuel2 as [|fuel2].
    + destruct l; [|cbn in H2; lia]. reflexivity.
    + cbn [build_levels].
      destruct (1 <? length l)%nat eqn:Hlt; [|done].
      apply Nat.ltb_lt in Hlt.
      pose proof (next_level_shorter l Hlt) as Hn.
      rewrite (IH fuel2) by lia. reflexivity.
Qed.

(** A tree over a non-empty list has a root. *)
Lemma new_root (transactions : list string) :
  transactions ≠ [] → is_Some (root (new transactions)).
Proof.
  intros Hne. unfold new.
  destruct transactions as [|tx rest]; [done|].
  pose proof (build_levels_final (length (map _hash_data (tx :: rest)))
                (map _hash_data (tx :: rest))) as Hfin.
  destruct (build_levels _ _) as [levels final]. cbn [root].
  destruct final; [|by eexists].
  cbn in Hfin. rewrite length_map in Hfin. cbn in Hfin. lia.
Qed.


Lemma pair_up_lookup (l : list string) (j : nat) (a b : string) :
  l !! (2 * j)%nat = Some a → l !! (2 * j + 1)%nat = Some b →
  pair_up l !! j = Some (_hash_data (a +:+ b)).
Proof.
  revert l. induction j as [|j IH]; intros l Ha Hb.
  - destruct l as [|x [|y rest]]; cbn in *; congruence.
  - destruct l as [|x [|y rest]]; [done | done |].
    replace (2 * S j)%nat with (S (S (2 * j))) in * by lia.
    cbn in Ha, Hb. cbn [pair_up]. rewrite lookup_cons_ne_0 by lia. cbn.
    apply IH; assumption.
Qed.

Lemma pad_odd_lookup (l : list string) (i : nat) (x : string) :
  l !! i = Some x → pad_odd l !! i = Some x.
Proof.
  intros Hx. unfold pad_odd.
  destruct (Nat.odd (length l)); [|done].
  destruct (last l); [|done].
  by apply lookup_app_l_Some.
Qed.

(** One round of [get_merkle_path] followed by one round of
    [verify_transaction]: with a recorded sibling, the step leads to the
    parent node. *)
Lemma climb_to_parent (l : list string) (i : nat) (cur : string) :
  l !! i = Some cur →
  (Nat.even i = true → (i + 1 < length l)%nat) →
  ∃ s, walk [l] i = [s] ∧
       pair_up (pad_odd l) !! (i / 2)%nat = Some (climb cur s).
Proof.
  intros Hcur Hsib. cbn [walk].
  destruct (Nat.even i) eqn:Heven; rewrite app_nil_r.
  - specialize (Hsib eq_refl).
    destruct (lookup_lt_is_Some_2 l (i + 1)%nat Hsib) as [h Hh].
    rewrite Hh. eexists; split; [reflexivity|].
    apply Nat.even_spec in Heven. destruct Heven as [j ->].
    replace (2 * j / 2)%nat with j
      by (rewrite Nat.mul_comm, Nat.div_mul; lia).
    unfold climb. cbn.
    apply pair_up_lookup; by apply pad_odd_lookup.
  - assert (Hodd : Nat.odd i = true) by (rewrite <- Nat.negb_even, Heven; done).
    apply Nat.odd_spec in Hodd. destruct Hodd as [j ->].
    replace (2 * j + 1 - 1)%nat with (2 * j)%nat by lia.
    assert (Hlt : (2 * j < length l)%nat)
      by (apply lookup_lt_Some in Hcur; lia).
    destruct (lookup_lt_is_Some_2 l (2 * j)%nat Hlt) as [h Hh].
    rewrite Hh. eexists; split; [reflexivity|].
    replace ((2 * j + 1) / 2)%nat with j.
    2:{ replace (2 * j + 1)%nat with (1 + j * 2)%nat by lia.
        rewrite Nat.div_add by lia. reflexivity. }
    unfold climb. cbn.
    apply pair_up_lookup; by apply pad_odd_lookup.
Qed.

Lemma visited_cons (l l' : list string) (rest : list (list string)) :
  visited (l :: l' :: rest) = l :: visited (l' :: rest).
Proof. unfold visited. cbn. by rewrite Nat.sub_0_r. Qed.

Lemma walk_cons (l : list string) (rest : list (list string)) (i : nat) :
  walk (l :: rest) i = walk [l] i ++ walk rest (i / 2)%nat.
Proof. cbn [walk]. destruct (Nat.even i); by rewrite app_nil_r. Qed.

(** The path of a node that has a sibling at every level folds to the
    root. *)
Lemma path_reaches_root (fuel : nat) (l : list string) (i : nat) (cur : string) :
  (length l ≤ fuel)%nat → l !! i = Some cur →
  has_siblings (visited (l :: (build_levels fuel l).1)) i →
  head (build_levels fuel l).2
  = Some (foldl climb cur (walk (visited (l :: (build_levels fuel l).1)) i)).
Proof.
  revert l i cur. induction fuel as [|fuel IH]; intros l i cur Hfuel Hcur Hsib.
  - apply lookup_lt_Some in Hcur. lia.
  - cbn [build_levels] in *.
    destruct (1 <? length l)%nat eqn:Hlt.
    + apply Nat.ltb_lt in Hlt.
      pose proof (next_level_shorter l Hlt) as Hn.
      specialize (IH (pair_up (pad_odd l)) (i / 2)%nat).
      destruct (build_levels fuel (pair_up (pad_odd l))) as [levels final].
      cbn [fst snd] in *.
      rewrite visited_cons in *. cbn [has_siblings] in Hsib.
      destruct Hsib as [Hhere Hrest].
      destruct (climb_to_parent l i cur Hcur Hhere) as (s & Hwalk & Hparent).
      rewrite walk_cons, Hwalk, foldl_app. cbn [foldl].
      apply IH; [lia | exact Hparent | exact Hrest].
    + apply Nat.ltb_ge in Hlt. cbn.
      pose proof (lookup_lt_Some _ _ _ Hcur) as Hi.
      destruct l as [|x [|y rest]]; cbn in *; [lia | | lia].
      destruct i; cbn in *; [congruence | lia].
Qed.

Lemma transactions_new (transactions : list string) :
  MerkleTree.transactions (new transactions) = transactions.
Proof.
  unfold new. destruct transactions; [done|].
  by destruct (build_levels _ _).
Qed.

(** Round trip of a Merkle proof, for a leaf whose path never passes
    through the odd node at the end of a level. *)
Lemma round_trip_with_siblings (transactions : list string) (i : nat) (tx : string) :
  (2 ≤ length transactions)%nat →
  transactions !! i = Some tx →
  has_siblings (visited (tree_levels (new transactions))) i →
  verify_transaction (new transactions) tx i (get_merkle_path (new transactions) i)
  = true.
Proof.
  intros Hlen Htx Hsib.
  unfold get_merkle_path. rewrite transactions_new.
  pose proof (lookup_lt_Some _ _ _ Htx) as Hi.
  destruct (length transactions <=? i)%nat eqn:Hle;
    [apply Nat.leb_le in Hle; lia|].
  fold (visited (tree_levels (new transactions))).
  unfold verify_transaction.
  revert Hsib. unfold new.
  destruct transactions as [|t0 rest]; [done|].
  set (leaves := map _hash_data (t0 :: rest)).
  assert (Hleaf : leaves !! i = Some (_hash_data tx))
    by (unfold leaves; rewrite list_lookup_fmap, Htx; done).
  pose proof (path_reaches_root (length leaves) leaves i (_hash_data tx)
                ltac:(lia) Hleaf) as Hroot.
  assert (Hlen' : (1 < length leaves)%nat)
    by (unfold leaves; rewrite length_map; lia).
  destruct (build_levels (length leaves) leaves) as [levels final] eqn:Hbuild.
  cbn [tree_levels root fst snd] in *.
  intros Hsib. specialize (Hroot Hsib).
  destruct (walk (visited (leaves :: levels)) i) as [|s path] eqn:Hwalk.
  - exfalso.
    destruct (length leaves) as [|n] eqn:Hn; [lia|].
    assert (Hlt : (1 <? length leaves)%nat = true) by (apply Nat.ltb_lt; lia).
    cbn [build_levels] in Hbuild. rewrite Hlt in Hbuild.
    destruct (build_levels n (pair_up (pad_odd leaves))) as [levels' final'].
    injection Hbuild as <- <-.
    rewrite visited_cons in Hwalk, Hsib. cbn [has_siblings] in Hsib.
    destruct (climb_to_parent leaves i _ Hleaf (proj1 Hsib)) as (s & Hs & _).
    rewrite walk_cons, Hs in Hwalk. discriminate Hwalk.
  - rewrite Hroot. apply String.eqb_refl.
Qed.

Lemma full_levels_have_siblings (fuel : nat) (l : list string) (i k : nat) :
  length l = (2 ^ k)%nat → (i < length l)%nat → (length l ≤ fuel)%nat →
  has_siblings (visited (l :: (build_levels fuel l).1)) i.
Proof.
  revert l i k. induction fuel as [|fuel IH]; intros l i k Hk Hi Hfuel.
  - lia.
  - cbn [build_levels].
    destruct (1 <? length l)%nat eqn:Hlt; [|exact I].
    apply Nat.ltb_lt in Hlt.
    destruct k as [|k]; [cbn in Hk; lia|].
    pose proof (next_level_shorter l Hlt) as Hn.
    assert (Hnext : length (pair_up (pad_odd l)) = (2 ^ k)%nat).
    { rewrite length_next_level, Hk, Nat.pow_succ_r'.
      replace (2 * 2 ^ k + 1)%nat with (1 + 2 ^ k * 2)%nat by lia.
      rewrite Nat.div_add by lia. reflexivity. }
    specialize (IH (pair_up (pad_odd l)) (i / 2)%nat k Hnext).
    destruct (build_levels fuel (pair_up (pad_odd l))) as [levels final].
    cbn [fst] in *. rewrite visited_cons. cbn [has_siblings]. split.
    + intros Heven. apply Nat.even_spec in Heven. destruct Heven as [j ->].
      rewrite Hk, Nat.pow_succ_r' in *. lia.
    + apply IH; [|lia].
      rewrite Hnext. apply Nat.Div0.div_lt_upper_bound.
      rewrite Hk, Nat.pow_succ_r' in Hi. lia.
Qed.

(** Round trip of a Merkle proof over [2 ^ k] transactions, [k >= 1]: no
    level is padded. *)
Theorem round_trip_full_tree (transactions : list string) (k i : nat) (tx : string) :
  length transactions = (2 ^ S k)%nat →
  transactions !! i = Some tx →
  verify_transaction (new transactions) tx i (get_merkle_path (new transactions) i)
  = true.
Proof.
  intros Hk Htx.
  assert (Hlen : (2 ≤ length transactions)%nat).
  { rewrite Hk, Nat.pow_succ_r'. pose proof (Nat.pow_nonzero 2 k). lia. }
  apply round_trip_with_siblings; [exact Hlen | exact Htx |].
  pose proof (lookup_lt_Some _ _ _ Htx) as Hi.
  unfold new. destruct transactions as [|t0 rest]; [cbn in Hlen; lia|].
  pose proof (full_levels_have_siblings
                (length (map _hash_data (t0 :: rest)))
                (map _hash_data (t0 :: rest)) i (S k)) as Hsib.
  specialize (Hsib ltac:(by rewrite length_map) ltac:(by rewrite length_map)
                   ltac:(lia)).
  destruct (build_levels _ _) as [levels final]. exact Hsib.
Qed.

(** A tree over one transaction has the empty path, which
    [verify_transaction] rejects. *)
Lemma single_leaf_rejected (tx : string) :
  get_merkle_path (new [tx]) 0 = [] ∧
  verify_transaction (new [tx]) tx 0 (get_merkle_path (new [tx]) 0) = false.
Proof. split; reflexivity. Qed.

End WithLibs.

(** C2 (code defect). The round trip [verify_transaction(T[i], i,
    get_merkle_path(i))] does not hold for every non-empty [T]: over the one
    transaction ["a"] the path is empty and is rejected, and over
    ["a"; "b"; "c"] the path of the last leaf, which [_build_tree] pairs with
    a copy of itself, omits that copy and folds to another hash than the
    root. Evaluated with SHA-256. *)
Theorem merkle_round_trip_fails :
  let one := @new python ["a"] in
  let three := @new python ["a"; "b"; "c"] in
  @verify_transaction python one "a" 0 (@get_merkle_path one 0) = false ∧
  @get_merkle_path three 2
  = [Step "62af5c3cb8da3e4f25061e829ebeea5c7513c54949115b1acc225930a90154da" "left"] ∧
  @verify_transaction python three "c" 2 (@get_merkle_path three 2) = false.
Proof. vm_compute. repeat split. Qed.

End MerkleTreeFacts.

(** ** Python list operations *)

Module PyFacts.

Section Lists.
Context {A : Type}.

Lemma insert_desc_perm (key : A → Q) (x : A) (l : list A) :
  Py.insert_desc key x l ≡ₚ x :: l.
Proof.
  induction l as [|y l IH]; [done|].
  cbn. destruct (Py.lt (key x) (key y)); [|done].
  rewrite IH. apply Permutation_swap.
Qed.

(** Sorting rearranges the list and nothing else. *)
Lemma sort_desc_perm (key : A → Q) (l : list A) : Py.sort_desc key l ≡ₚ l.
Proof.
  induction l as [|x l IH]; [done|].
  cbn. rewrite insert_desc_perm. by rewrite IH.
Qed.

Lemma min_from_elem (key : A → Q) (best : A) (l : list A) :
  Py.min_from key best l ∈ best :: l.
Proof.
  revert best. induction l as [|x l IH]; intros best; cbn.
  - apply list_elem_of_here.
  - specialize (IH (if Py.lt (key x) (key best) then x else best)).
    apply elem_of_cons in IH as [-> | IH].
    + destruct (Py.lt (key x) (key best)).
      * apply list_elem_of_further, list_elem_of_here.
      * apply list_elem_of_here.
    + by do 2 apply list_elem_of_further.
Qed.

Lemma min_by_elem (key : A → Q) (l : list A) (x : A) :
  Py.min_by key l = Some x → x ∈ l.
Proof.
  destruct l as [|y l]; [done|]. cbn. intros [= <-]. apply min_from_elem.
Qed.

Lemma min_by_is_Some (key : A → Q) (l : list A) :
  l ≠ [] → is_Some (Py.min_by key l).
Proof. destruct l; [done|]. by eexists. Qed.

Context `{EqDecision A}.

Lemma remove_sublist (x : A) (l : list A) : Py.remove x l `sublist_of` l.
Proof.
  induction l as [|y l IH]; [done|].
  cbn. case_decide.
  - by apply sublist_cons.
  - by apply sublist_skip.
Qed.

Lemma length_remove (x : A) (l : list A) :
  x ∈ l → S (length (Py.remove x l)) = length l.
Proof.
  induction l as [|y l IH]; [by intros ?%elem_of_nil|].
  intros Hin. cbn. case_decide as Hxy; [done|].
  cbn. f_equal. apply IH. apply elem_of_cons in Hin as [?|?]; done.
Qed.

Lemma elem_of_remove (x y : A) (l : list A) :
  NoDup l → y ∈ Py.remove x l ↔ y ∈ l ∧ y ≠ x.
Proof.
  induction l as [|z l IH]; intros Hnd.
  - cbn. split; [by intros ?%elem_of_nil | by intros [?%elem_of_nil _]].
  - apply NoDup_cons in Hnd as [Hz Hnd]. cbn. case_decide as Hxz.
    + subst z. rewrite elem_of_cons. split.
      * intros Hy. split; [by right|]. by intros ->.
      * by intros [[?|?] ?].
    + rewrite !elem_of_cons, IH by done. naive_solver.
Qed.

End Lists.

Lemma slice_split {A} (l : list A) (k : Z) :
  Py.slice_to l k ++ Py.slice_from l k = l.
Proof. apply take_drop. Qed.

End PyFacts.

(** ** The transaction pool *)

Module TransactionPoolFacts.
Import TransactionPool PoolSpec.

Lemma ids_NoDup_inj (pending : list Transaction.t) (a b : Transaction.t) :
  NoDup (ids pending) → a ∈ pending → b ∈ pending →
  Transaction.transaction_id a = Transaction.transaction_id b → a = b.
Proof.
  induction pending as [|x l IH]; [by intros _ ?%elem_of_nil|].
  cbn. intros [Hx Hnd]%NoDup_cons Ha Hb Hid.
  apply elem_of_cons in Ha as [-> | Ha]; apply elem_of_cons in Hb as [-> | Hb].
  - done.
  - exfalso. apply Hx. rewrite Hid. unfold ids. by apply list_elem_of_fmap_2.
  - exfalso. apply Hx. rewrite <- Hid. unfold ids. by apply list_elem_of_fmap_2.
  - by apply IH.
Qed.

Lemma ids_NoDup_pending (pending : list Transaction.t) :
  NoDup (ids pending) → NoDup pending.
Proof. apply NoDup_fmap_1. Qed.

Lemma consistent_keys_match (pool : t) : consistent pool → keys_match pool.
Proof.
  intros (Hnd & Hlist & Hmap). unfold keys_match.
  apply set_eq. intros k. rewrite elem_of_dom, elem_of_list_to_set.
  unfold ids. rewrite list_elem_of_fmap. split.
  - intros [tx Htx]. destruct (Hmap k tx Htx) as [<- Hin]. by exists tx.
  - intros (tx & -> & Hin). exists tx. by apply Hlist.
Qed.

Lemma consistent_intro (pool : t) :
  NoDup (ids (pending_transactions pool)) →
  (∀ tx, tx ∈ pending_transactions pool →
         transaction_map pool !! Transaction.transaction_id tx = Some tx) →
  (∀ k tx, transaction_map pool !! k = Some tx → Transaction.transaction_id tx = k) →
  (∀ k tx, transaction_map pool !! k = Some tx → tx ∈ pending_transactions pool) →
  consistent pool.
Proof. intros Hnd Hlist Hkey Hin. split; [done|]. split; [done|]. naive_solver. Qed.

Lemma consistent_new (max_size : Z) : consistent (new max_size).
Proof.
  apply consistent_intro; cbn.
  - constructor.
  - by intros tx ?%elem_of_nil.
  - intros k tx H. by rewrite lookup_empty in H.
  - intros k tx H. by rewrite lookup_empty in H.
Qed.

Lemma consistent_clear (pool : t) : consistent (clear pool).
Proof. apply (consistent_new (max_size pool)). Qed.

Lemma remove_transaction_pending (pool : t) (id : string) (tx : Transaction.t) :
  consistent pool → transaction_map pool !! id = Some tx →
  remove_transaction pool id
  = (true, Build (max_size pool) (Py.remove tx (pending_transactions pool))
                 (delete id (transaction_map pool))).
Proof.
  intros (_ & _ & Hmap) Hid. unfold remove_transaction. rewrite Hid.
  destruct (Hmap id tx Hid) as [_ Hin]. by rewrite decide_True.
Qed.

Lemma consistent_remove (pool : t) (id : string) :
  consistent pool → consistent (remove_transaction pool id).2.
Proof.
  intros Hc. destruct (transaction_map pool !! id) as [tx|] eqn:Hid.
  2:{ unfold remove_transaction. by rewrite Hid. }
  rewrite (remove_transaction_pending pool id tx Hc Hid). cbn [snd].
  destruct Hc as (Hnd & Hlist & Hmap).
  pose proof (ids_NoDup_pending _ Hnd) as Hnd'.
  destruct (Hmap id tx Hid) as [Hidtx Hin].
  apply consistent_intro; cbn.
  - unfold ids. eapply sublist_NoDup; [exact Hnd|].
    apply fmap_sublist, PyFacts.remove_sublist.
  - intros tx' [Hin' Hne]%PyFacts.elem_of_remove; [|done].
    rewrite lookup_delete_ne; [by apply Hlist|].
    intros Heq. apply Hne.
    apply (ids_NoDup_inj (pending_transactions pool)); [done | done | done |].
    congruence.
  - intros k tx' H. apply lookup_delete_Some in H as [_ H]. by apply Hmap in H as [-> _].
  - intros k tx' H. apply lookup_delete_Some in H as [Hne H].
    apply PyFacts.elem_of_remove; [done|].
    destruct (Hmap _ _ H) as [Hk Hin']. split; [done|]. congruence.
Qed.

Lemma length_remove_transaction (pool : t) (id : string) :
  consistent pool →
  (length (pending_transactions (remove_transaction pool id).2)
   ≤ length (pending_transactions pool))%nat.
Proof.
  intros Hc. destruct (transaction_map pool !! id) as [tx|] eqn:Hid.
  2:{ unfold remove_transaction. by rewrite Hid. }
  rewrite (remove_transaction_pending pool id tx Hc Hid). cbn.
  apply sublist_length, PyFacts.remove_sublist.
Qed.

Lemma max_size_remove_transaction (pool : t) (id : string) :
  max_size (remove_transaction pool id).2 = max_size pool.
Proof. unfold remove_transaction. by destruct (transaction_map pool !! id). Qed.

(** Eviction takes exactly one transaction out of a non-empty pool. *)
Lemma evict_lowest (pool : t) :
  consistent pool → pending_transactions pool ≠ [] →
  consistent (_remove_lowest_fee_transaction pool) ∧
  max_size (_remove_lowest_fee_transaction pool) = max_size pool ∧
  S (length (pending_transactions (_remove_lowest_fee_transaction pool)))
  = length (pending_transactions pool).
Proof.
  intros Hc Hne. unfold _remove_lowest_fee_transaction.
  destruct (PyFacts.min_by_is_Some Transaction.fee _ Hne) as [low Hlow].
  rewrite Hlow. pose proof (PyFacts.min_by_elem _ _ _ Hlow) as Hin.
  split; [by apply consistent_remove|].
  split; [apply max_size_remove_transaction|].
  destruct Hc as (Hnd & Hlist & Hmap).
  rewrite (remove_transaction_pending pool _ low); [|done|by apply Hlist].
  cbn. by apply PyFacts.length_remove.
Qed.

Lemma evict_lowest_empty (pool : t) :
  pending_transactions pool = [] → _remove_lowest_fee_transaction pool = pool.
Proof. intros Hnil. unfold _remove_lowest_fee_transaction. by rewrite Hnil. Qed.

Lemma lookup_foldl_delete (selected : list Transaction.t)
    (m : gmap string Transaction.t) (k : string) :
  foldl (λ m tx, delete (Transaction.transaction_id tx) m) m selected !! k
  = if decide (k ∈ ids selected) then None else m !! k.
Proof.
  revert m. induction selected as [|tx l IH]; intros m; cbn.
  - rewrite decide_False; [done | apply not_elem_of_nil].
  - rewrite IH. destruct (decide (k = Transaction.transaction_id tx)) as [->|Hne].
    + rewrite lookup_delete_eq. rewrite (decide_True (P := _ ∈ _ :: _)) by set_solver.
      by case_decide.
    + rewrite lookup_delete_ne by done.
      do 2 case_decide; set_solver.
Qed.

Lemma consistent_get_transactions_for_block (pool : t) (max_count : Z) :
  consistent pool → consistent (get_transactions_for_block pool max_count).2.
Proof.
  intros (Hnd & Hlist & Hmap). unfold get_transactions_for_block. cbn [snd].
  pose proof (PyFacts.slice_split (pending_transactions pool) max_count) as Hsplit.
  set (selected := Py.slice_to (pending_transactions pool) max_count) in *.
  set (kept := Py.slice_from (pending_transactions pool) max_count) in *.
  rewrite <- Hsplit in Hnd, Hlist, Hmap. unfold ids in Hnd.
  rewrite fmap_app in Hnd. apply NoDup_app in Hnd as (Hnd1 & Hdisj & Hnd2).
  apply consistent_intro; cbn.
  - exact Hnd2.
  - intros tx Hin. rewrite lookup_foldl_delete.
    rewrite decide_False; [apply Hlist; set_solver|].
    intros Hsel. apply (Hdisj _ Hsel). by apply list_elem_of_fmap_2.
  - intros k tx H. rewrite lookup_foldl_delete in H. case_decide; [done|].
    by apply Hmap in H as [-> _].
  - intros k tx H. rewrite lookup_foldl_delete in H. case_decide as Hsel; [done|].
    destruct (Hmap _ _ H) as [<- Hin].
    apply elem_of_app in Hin as [Hin|Hin]; [|done].
    exfalso. apply Hsel. by apply list_elem_of_fmap_2.
Qed.

Section WithLibs.
Context `{!Libs}.

Lemma add_transaction_eq (pool : t) (tx : Transaction.t) :
  Transaction.is_valid tx = true →
  transaction_map pool !! Transaction.transaction_id tx = None →
  add_transaction pool tx
  = let pool1 := if Z.of_nat (length (pending_transactions pool)) >=? max_size pool
                 then _remove_lowest_fee_transaction pool else pool in
    (true, Build (max_size pool1)
                 (Py.sort_desc Transaction.fee (pending_transactions pool1 ++ [tx]))
                 (<[Transaction.transaction_id tx := tx]> (transaction_map pool1))).
Proof.
  intros Hvalid Hfree. unfold add_transaction. rewrite Hvalid. cbn [negb].
  rewrite decide_False; [done|]. rewrite Hfree. by intros [? ?].
Qed.

Lemma add_transaction_rejected (pool : t) (tx : Transaction.t) :
  Transaction.is_valid tx = false ∨
  is_Some (transaction_map pool !! Transaction.transaction_id tx) →
  add_transaction pool tx = (false, pool).
Proof.
  unfold add_transaction. intros [-> | Hsome]; [done|].
  destruct (Transaction.is_valid tx); [|done]. cbn [negb].
  by rewrite decide_True.
Qed.

(** Appending a transaction with a new identifier and sorting. *)
Lemma consistent_insert (pool : t) (tx : Transaction.t) :
  consistent pool →
  transaction_map pool !! Transaction.transaction_id tx = None →
  consistent (Build (max_size pool)
                (Py.sort_desc Transaction.fee (pending_transactions pool ++ [tx]))
                (<[Transaction.transaction_id tx := tx]> (transaction_map pool))).
Proof.
  intros (Hnd & Hlist & Hmap) Hfree.
  assert (Hperm : Py.sort_desc Transaction.fee (pending_transactions pool ++ [tx])
                  ≡ₚ tx :: pending_transactions pool).
  { rewrite PyFacts.sort_desc_perm. by rewrite Permutation_app_comm. }
  assert (Hnew : Transaction.transaction_id tx ∉ ids (pending_transactions pool)).
  { unfold ids. intros (tx' & Hid & Hin)%list_elem_of_fmap.
    apply Hlist in Hin. congruence. }
  apply consistent_intro; cbn.
  - unfold ids. rewrite Hperm. cbn. by apply NoDup_cons.
  - intros tx'. rewrite Hperm. intros [-> | Hin]%elem_of_cons.
    + apply lookup_insert_eq.
    + rewrite lookup_insert_ne; [by apply Hlist|].
      intros Heq. apply Hnew. rewrite Heq. by apply list_elem_of_fmap_2.
  - intros k tx' Hk. apply lookup_insert_Some in Hk as [[<- <-] | [_ Hk]]; [done|].
    by apply Hmap in Hk as [-> _].
  - intros k tx' Hk. rewrite Hperm.
    apply lookup_insert_Some in Hk as [[<- <-] | [_ Hk]]; [apply list_elem_of_here|].
    apply Hmap in Hk as [_ Hin]. by apply list_elem_of_further.
Qed.

Lemma evicted_map_subset (pool : t) (k : string) :
  transaction_map pool !! k = None →
  transaction_map (_remove_lowest_fee_transaction pool) !! k = None.
Proof.
  intros Hk. unfold _remove_lowest_fee_transaction.
  destruct (Py.min_by _ _) as [low|]; [|done].
  unfold remove_transaction.
  destruct (transaction_map pool !! Transaction.transaction_id low); [|done].
  cbn. apply lookup_delete_None. by right.
Qed.

Lemma consistent_evict (pool : t) :
  consistent pool → consistent (_remove_lowest_fee_transaction pool).
Proof.
  intros Hc. destruct (pending_transactions pool) eqn:Hp.
  - by rewrite evict_lowest_empty.
  - apply evict_lowest; [done | by rewrite Hp].
Qed.

Lemma consistent_add (pool : t) (tx : Transaction.t) :
  consistent pool → consistent (add_transaction pool tx).2.
Proof.
  intros Hc.
  destruct (Transaction.is_valid tx) eqn:Hvalid;
    [|by rewrite add_transaction_rejected by auto].
  destruct (transaction_map pool !! Transaction.transaction_id tx) eqn:Hid;
    [by rewrite add_transaction_rejected by (right; rewrite Hid; eauto)|].
  rewrite add_transaction_eq by done. cbn [snd].
  destruct (Z.of_nat (length (pending_transactions pool)) >=? max_size pool).
  - apply consistent_insert; [by apply consistent_evict | by apply evicted_map_subset].
  - by apply consistent_insert.
Qed.

Lemma max_size_apply (pool : t) (o : op) : max_size (apply pool o) = max_size pool.
Proof.
  destruct o as [tx|k|id|]; cbn; [| done | apply max_size_remove_transaction | done].
  unfold add_transaction.
  destruct (negb _); [done|]. case_decide; [done|]. cbn.
  destruct (_ >=? _); [|done].
  unfold _remove_lowest_fee_transaction.
  destruct (Py.min_by _ _); [apply max_size_remove_transaction | done].
Qed.

Lemma consistent_apply (pool : t) (o : op) : consistent pool → consistent (apply pool o).
Proof.
  destruct o; cbn; intros Hc.
  - by apply consistent_add.
  - by apply consistent_get_transactions_for_block.
  - by apply consistent_remove.
  - apply consistent_clear.
Qed.

Lemma length_sort_desc (l : list Transaction.t) :
  length (Py.sort_desc Transaction.fee l) = length l.
Proof. by rewrite PyFacts.sort_desc_perm. Qed.

Lemma within_capacity_apply (pool : t) (o : op) :
  1 ≤ max_size pool → consistent pool → within_capacity pool →
  within_capacity (apply pool o).
Proof.
  unfold within_capacity. intros Hmax Hc Hcap.
  rewrite max_size_apply.
  destruct o as [tx|k|id|]; cbn.
  - destruct (Transaction.is_valid tx) eqn:Hvalid;
      [|by rewrite add_transaction_rejected by auto].
    destruct (transaction_map pool !! Transaction.transaction_id tx) eqn:Hid;
      [by rewrite add_transaction_rejected by (right; rewrite Hid; eauto)|].
    rewrite add_transaction_eq by done. cbn [snd pending_transactions].
    rewrite length_sort_desc, length_app. cbn [length].
    destruct (Z.of_nat (length (pending_transactions pool)) >=? max_size pool) eqn:Hfull.
    + apply Z.geb_le in Hfull.
      assert (Hne : pending_transactions pool ≠ [])
        by (intros Hnil; rewrite Hnil in Hfull; cbn in Hfull; lia).
      destruct (evict_lowest pool Hc Hne) as (_ & _ & Hlen). lia.
    + rewrite Z.geb_leb in Hfull. apply Z.leb_gt in Hfull. lia.
  - unfold Py.slice_from. rewrite length_drop. lia.
  - pose proof (length_remove_transaction pool id Hc). lia.
  - lia.
Qed.

Lemma run_invariants (pool : t) (ops : list op) :
  consistent pool →
  consistent (run pool ops) ∧
  max_size (run pool ops) = max_size pool ∧
  (1 ≤ max_size pool → within_capacity pool → within_capacity (run pool ops)).
Proof.
  revert pool. induction ops as [|o ops IH]; intros pool Hc; [done|].
  change (run pool (o :: ops)) with (run (apply pool o) ops).
  destruct (IH (apply pool o) (consistent_apply _ _ Hc)) as (Hc' & Hmax & Hcap).
  rewrite max_size_apply in *. split; [done|]. split; [done|].
  intros H1 Hw. apply Hcap; [done|]. by apply within_capacity_apply.
Qed.

End WithLibs.
End TransactionPoolFacts.

Module TransactionPoolClaims.
Import TransactionPool PoolSpec TransactionPoolFacts.

(** C10 (amended). After every sequence of [add_transaction],
    [get_transactions_for_block], [remove_transaction] and [clear] on a new
    pool, the keys of [transaction_map] are the identifiers of
    [pending_transactions]; and, when [max_size] is at least 1, the pool holds
    no more than [max_size] entries. Identifiers need not be assumed
    distinct: [add_transaction] refuses a known one. *)
Theorem pool_invariants `{!Libs} (max_size : Z) (ops : list op) :
  keys_match (run (new max_size) ops) ∧
  (1 ≤ max_size → within_capacity (run (new max_size) ops)).
Proof.
  destruct (run_invariants (new max_size) ops (consistent_new max_size))
    as (Hc & Hmax & Hcap).
  split; [by apply consistent_keys_match|].
  intros H1. apply Hcap; [done|]. unfold within_capacity. cbn. lia.
Qed.

Lemma pool_invariants_witness :
  1 ≤ 3 ∧
  keys_match (@run python (new 3)
                [Add Scenario.tx_fee5; Add Scenario.tx_fee1; GetForBlock 1;
                 Add Scenario.tx_fee9; Remove "none"; Add Scenario.tx_fee3]) ∧
  within_capacity (@run python (new 3)
                     [Add Scenario.tx_fee5; Add Scenario.tx_fee1; GetForBlock 1;
                      Add Scenario.tx_fee9; Remove "none"; Add Scenario.tx_fee3]).
Proof.
  split; [lia|].
  split; [apply (@pool_invariants python 3) | apply (@pool_invariants python 3); lia].
Defined.

(** C10 as stated fails on a pool of capacity 0: eviction finds nothing to
    remove, and the transaction is added all the same. *)
Lemma pool_capacity_zero_exceeded :
  Transaction.is_valid (H := python) Scenario.tx_fee5 = true ∧
  ¬ within_capacity (@run python (new 0) [Add Scenario.tx_fee5]).
Proof.
  split; [reflexivity|].
  unfold within_capacity. vm_compute. intros Hle. by apply Hle.
Qed.

Section WithLibs.
Context `{!Libs}.

Lemma id_ne_tx (a b : Transaction.t) :
  Transaction.transaction_id a ≠ Transaction.transaction_id b → a ≠ b.
Proof. by intros Hne ->. Qed.

Lemma add_transaction_room (pool : t) (tx : Transaction.t) :
  Transaction.is_valid tx = true →
  transaction_map pool !! Transaction.transaction_id tx = None →
  Z.of_nat (length (pending_transactions pool)) < max_size pool →
  add_transaction pool tx
  = (true, Build (max_size pool)
                 (Py.sort_desc Transaction.fee (pending_transactions pool ++ [tx]))
                 (<[Transaction.transaction_id tx := tx]> (transaction_map pool))).
Proof.
  intros Hvalid Hfree Hroom. rewrite add_transaction_eq by done.
  rewrite Z.geb_leb. by rewrite (proj2 (Z.leb_gt _ _) Hroom).
Qed.

Lemma add_transaction_full (pool : t) (tx : Transaction.t) :
  Transaction.is_valid tx = true →
  transaction_map pool !! Transaction.transaction_id tx = None →
  max_size pool ≤ Z.of_nat (length (pending_transactions pool)) →
  add_transaction pool tx
  = let pool1 := _remove_lowest_fee_transaction pool in
    (true, Build (max_size pool1)
                 (Py.sort_desc Transaction.fee (pending_transactions pool1 ++ [tx]))
                 (<[Transaction.transaction_id tx := tx]> (transaction_map pool1))).
Proof.
  intros Hvalid Hfree Hfull. rewrite add_transaction_eq by done.
  rewrite Z.geb_leb. by rewrite (proj2 (Z.leb_le _ _) Hfull).
Qed.

End WithLibs.

Lemma map_after_eviction {V} (a b c d : string) (va vb vc vd : V) :
  a ≠ b → a ≠ c → a ≠ d → b ≠ c → b ≠ d → c ≠ d →
  <[d := vd]> (delete b (<[c := vc]> (<[b := vb]> {[a := va]})))
  = ({[c := vc; a := va; d := vd]} : gmap string V).
Proof.
  intros. apply map_eq. intros k.
  rewrite !lookup_insert, lookup_delete, !lookup_insert, !lookup_singleton.
  repeat case_decide; congruence.
Qed.

Lemma map_after_selection {V} (a c d : string) (va vc vd : V) :
  a ≠ c → a ≠ d → c ≠ d →
  delete a (delete c ({[c := vc; a := va; d := vd]} : gmap string V))
  = {[d := vd]}.
Proof.
  intros. apply map_eq. intros k.
  rewrite !lookup_delete, !lookup_insert, !lookup_singleton.
  repeat case_decide; congruence.
Qed.

(** Rewrites the known fees and evaluates the comparisons between them. *)
Local Ltac by_fees :=
  cbn [Py.sort_desc foldr app Py.insert_desc Py.min_by Py.min_from
       pending_transactions transaction_map max_size snd fst];
  unfold Py.lt;
  repeat match goal with
         | F : Transaction.fee _ = _ |- _ => rewrite !F
         end;
  repeat match goal with
         | |- context [Qle_bool ?a ?b] =>
             let v := eval vm_compute in (Qle_bool a b) in
             match v with
             | true => change (Qle_bool a b) with true
             | false => change (Qle_bool a b) with false
             end
         end;
  cbn [negb].

(** C5. A pool of capacity 3 that admits four valid transactions with
    distinct identifiers and the fees 5, 1, 9, 3, in that order, accepts each,
    evicts the one with fee 1 and holds the others by descending fee;
    [get_transactions_for_block(2)] then returns those with fees 9 and 5, in
    that order, and leaves the one with fee 3. *)
Theorem pool_fee_priority `{!Libs} (t5 t1 t9 t3 : Transaction.t) :
  Forall (λ tx, Transaction.is_valid tx = true) [t5; t1; t9; t3] →
  NoDup (ids [t5; t1; t9; t3]) →
  Transaction.fee <$> [t5; t1; t9; t3] = [5; 1; 9; 3]%Q →
  let r1 := add_transaction (new 3) t5 in
  let r2 := add_transaction r1.2 t1 in
  let r3 := add_transaction r2.2 t9 in
  let r4 := add_transaction r3.2 t3 in
  [r1.1; r2.1; r3.1; r4.1] = [true; true; true; true] ∧
  pending_transactions r4.2 = [t9; t5; t3] ∧
  transaction_map r4.2
  = {[Transaction.transaction_id t9 := t9; Transaction.transaction_id t5 := t5;
      Transaction.transaction_id t3 := t3]} ∧
  get_transactions_for_block r4.2 2
  = ([t9; t5], Build 3 [t3] {[Transaction.transaction_id t3 := t3]}).
Proof.
  intros Hvalid Hids Hfees.
  apply Forall_cons in Hvalid as [V5 Hvalid].
  apply Forall_cons in Hvalid as [V1 Hvalid].
  apply Forall_cons in Hvalid as [V9 Hvalid].
  apply Forall_cons in Hvalid as [V3 _].
  cbn in Hfees. injection Hfees as F5 F1 F9 F3.
  cbn in Hids.
  apply NoDup_cons in Hids as [N5 Hids].
  apply NoDup_cons in Hids as [N1 Hids].
  apply NoDup_cons in Hids as [N9 _].
  apply not_elem_of_cons in N5 as [N51 N5].
  apply not_elem_of_cons in N5 as [N59 N5].
  apply not_elem_of_cons in N5 as [N53 _].
  apply not_elem_of_cons in N1 as [N19 N1].
  apply not_elem_of_cons in N1 as [N13 _].
  apply not_elem_of_cons in N9 as [N93 _].
  intros r1 r2 r3 r4.
  assert (E1 : r1 = (true, Build 3 [t5] {[Transaction.transaction_id t5 := t5]})).
  { unfold r1. rewrite add_transaction_room by (cbn; done || lia). reflexivity. }
  assert (E2 : r2 = (true, Build 3 [t5; t1]
                       (<[Transaction.transaction_id t1 := t1]>
                          {[Transaction.transaction_id t5 := t5]}))).
  { unfold r2. rewrite E1. cbn [snd].
    rewrite add_transaction_room;
      [|done|cbn [transaction_map]; by simplify_map_eq|cbn; lia].
    do 4 by_fees. reflexivity. }
  assert (E3 : r3 = (true, Build 3 [t9; t5; t1]
                       (<[Transaction.transaction_id t9 := t9]>
                          (<[Transaction.transaction_id t1 := t1]>
                             {[Transaction.transaction_id t5 := t5]})))).
  { unfold r3. rewrite E2. cbn [snd].
    rewrite add_transaction_room;
      [|done|cbn [transaction_map]; by simplify_map_eq|cbn; lia].
    do 4 by_fees. reflexivity. }
  assert (E4 : r4 = (true, Build 3 [t9; t5; t3]
                       (<[Transaction.transaction_id t3 := t3]>
                          (delete (Transaction.transaction_id t1)
                             (<[Transaction.transaction_id t9 := t9]>
                                (<[Transaction.transaction_id t1 := t1]>
                                   {[Transaction.transaction_id t5 := t5]})))))).
  { unfold r4. rewrite E3. cbn [snd].
    rewrite add_transaction_full;
      [|done|cbn [transaction_map]; by simplify_map_eq|cbn; lia].
    cbn zeta. unfold _remove_lowest_fee_transaction.
    cbn [pending_transactions]. do 3 by_fees.
    unfold remove_transaction. cbn [transaction_map pending_transactions max_size].
    rewrite lookup_insert_ne, lookup_insert_eq by done.
    rewrite decide_True by (do 2 apply list_elem_of_further; apply list_elem_of_here).
    cbn [Py.remove snd pending_transactions max_size transaction_map].
    rewrite (decide_False (P := t1 = t9)) by (apply id_ne_tx; congruence).
    rewrite (decide_False (P := t1 = t5)) by (apply id_ne_tx; congruence).
    rewrite decide_True by done.
    do 4 by_fees. reflexivity. }
  rewrite E1, E2, E3, E4. cbn [fst snd pending_transactions transaction_map].
  rewrite (map_after_eviction (Transaction.transaction_id t5)
             (Transaction.transaction_id t1) (Transaction.transaction_id t9)
             (Transaction.transaction_id t3)) by done.
  split; [done|]. split; [done|]. split; [done|].
  unfold get_transactions_for_block.
  cbn [pending_transactions transaction_map max_size].
  change (Py.slice_to [t9; t5; t3] 2) with [t9; t5].
  change (Py.slice_from [t9; t5; t3] 2) with [t3].
  cbn [foldl]. by rewrite map_after_selection.
Qed.

Lemma pool_fee_priority_witness :
  pending_transactions
    (add_transaction (H := python)
       (add_transaction (H := python)
          (add_transaction (H := python)
             (add_transaction (H := python) (new 3) Scenario.tx_fee5).2
             Scenario.tx_fee1).2
          Scenario.tx_fee9).2
       Scenario.tx_fee3).2
  = [Scenario.tx_fee9; Scenario.tx_fee5; Scenario.tx_fee3].
Proof.
  refine (proj1 (proj2 (pool_fee_priority (H := python) _ _ _ _ _ _ _))).
  - apply (bool_decide_unpack _). vm_compute. exact I.
  - apply (bool_decide_unpack _). vm_compute. exact I.
  - vm_compute. reflexivity.
Defined.

End TransactionPoolClaims.

(** ** Blocks and the nonce search *)

Module BlockFacts.
Import Block.

Section WithLibs.
Context `{!Libs}.

(** The hash does not cover the [hash] and [difficulty] attributes. *)
Lemma _calculate_hash_set_hash (block : t) (h : string) :
  _calculate_hash (set_hash block h) = _calculate_hash block.
Proof. reflexivity. Qed.

Lemma with_nonce_next (block : t) (n : Z) :
  next_nonce (with_nonce block n) = with_nonce block (n + 1).
Proof. reflexivity. Qed.

(** A block fresh from the constructor has nonce 0 and its own hash. *)
Lemma with_nonce_new (index : Z) (transactions : list Transaction.t)
    (previous_hash miner_address : string) (now : Q) :
  with_nonce (new index transactions previous_hash miner_address now) 0
  = new index transactions previous_hash miner_address now.
Proof. reflexivity. Qed.

(** The search only changes [nonce] and [hash]. *)
Lemma same_content_with_nonce (block : t) (n : Z) :
  BlockSpec.same_content (with_nonce block n) block.
Proof. repeat split. Qed.

(** If some nonce [k >= n] gives a hash with the target prefix, the search
    started at nonce [n] ends, within [k - n] rounds, at the first such
    nonce. *)
Lemma nonce_search_finds (target : string) (block : t) (k : nat) (n : Z) :
  Py.startswith (hash (with_nonce block (n + Z.of_nat k))) target = true →
  ∃ j : nat,
    (j ≤ k)%nat ∧
    Py.startswith (hash (with_nonce block (n + Z.of_nat j))) target = true ∧
    ∀ fuel, (k ≤ fuel)%nat →
      nonce_search fuel target (with_nonce block n)
      = Some (with_nonce block (n + Z.of_nat j)).
Proof.
  revert n. induction k as [|k IH]; intros n Hgood.
  - exists 0%nat. split; [lia|]. split; [done|].
    intros fuel _. rewrite Z.add_0_r in *.
    destruct fuel; cbn [nonce_search]; by rewrite Hgood.
  - destruct (Py.startswith (hash (with_nonce block n)) target) eqn:Hn.
    + exists 0%nat. rewrite Z.add_0_r. split; [lia|]. split; [done|].
      intros fuel _. destruct fuel; cbn [nonce_search]; by rewrite Hn.
    + destruct (IH (n + 1)) as (j & Hj & Hhit & Hsearch).
      { by replace (n + 1 + Z.of_nat k) with (n + Z.of_nat (S k)) by lia. }
      exists (S j). split; [lia|].
      replace (n + Z.of_nat (S j)) with (n + 1 + Z.of_nat j) by lia.
      split; [done|].
      intros [|fuel] Hfuel; [lia|].
      cbn [nonce_search]. rewrite Hn, with_nonce_next. apply Hsearch. lia.
Qed.

End WithLibs.
End BlockFacts.

(** ** The storage engine and its manager *)

Module StorageFacts.

(** Splits on the outcome of the next write statements. *)
Ltac write_cases ls :=
  let faults := fresh "faults" in
  let Hfaults := fresh "Hfaults" in
  destruct (SQLiteStorage.io_faults ls) as [|[|] faults] eqn:Hfaults.

Lemma write_1 (ls : SQLiteStorage.t) (statement : SQLiteStorage.t → SQLiteStorage.t) :
  (SQLiteStorage.write ls statement).1
  = match SQLiteStorage.io_faults ls with
    | true :: _ => false
    | _ => true
    end.
Proof. unfold SQLiteStorage.write. by write_cases ls. Qed.

(** With no fault pending, a write succeeds and no fault is pending after. *)
Lemma write_no_faults (ls : SQLiteStorage.t) (statement : SQLiteStorage.t → SQLiteStorage.t) :
  SQLiteStorage.io_faults ls = [] →
  SQLiteStorage.write ls statement = (true, statement ls).
Proof. intros Hnone. unfold SQLiteStorage.write. by rewrite Hnone. Qed.

Section WithLibs.
Context `{!Libs}.

Lemma store_transaction_indices_tables (ls : SQLiteStorage.t) (block_hash : string)
    (tx_index : Z) (transactions : list Transaction.t) :
  let ls' := StorageManager.store_transaction_indices ls block_hash tx_index transactions in
  SQLiteStorage.key_value ls' = SQLiteStorage.key_value ls ∧
  SQLiteStorage.blocks ls' = SQLiteStorage.blocks ls ∧
  SQLiteStorage.block_height_index ls' = SQLiteStorage.block_height_index ls ∧
  SQLiteStorage.account_balances ls' = SQLiteStorage.account_balances ls.
Proof.
  revert ls tx_index. induction transactions as [|tx rest IH]; intros ls tx_index; [done|].
  cbn [StorageManager.store_transaction_indices].
  destruct (IH (SQLiteStorage.store_transaction_index ls
                  (Transaction.transaction_id tx) block_hash tx_index).2
               (tx_index + 1)) as (Hkv & Hb & Hh & Ha).
  cbn zeta. rewrite Hkv, Hb, Hh, Ha.
  unfold SQLiteStorage.store_transaction_index, SQLiteStorage.write.
  by write_cases ls.
Qed.

(** Whether [store_block] succeeds depends on the database, not on the
    block. *)
Lemma store_block_1 (sm : StorageManager.t) (block : Block.t) :
  (StorageManager.store_block sm block).1
  = match SQLiteStorage.io_faults (StorageManager.local_storage sm) with
    | true :: _ | false :: true :: _ => false
    | _ => true
    end.
Proof.
  unfold StorageManager.store_block, SQLiteStorage.store_block,
    SQLiteStorage.store_block_index, SQLiteStorage.write.
  write_cases (StorageManager.local_storage sm); cbn; try done.
  destruct faults as [|[|] faults]; cbn; done.
Qed.

(** A failed [store_block] leaves the height index, the balances and the
    key-value table as they were. *)
Lemma store_block_failed (sm : StorageManager.t) (block : Block.t) :
  (StorageManager.store_block sm block).1 = false →
  let ls := StorageManager.local_storage sm in
  let ls' := StorageManager.local_storage (StorageManager.store_block sm block).2 in
  SQLiteStorage.key_value ls' = SQLiteStorage.key_value ls ∧
  SQLiteStorage.block_height_index ls' = SQLiteStorage.block_height_index ls ∧
  SQLiteStorage.account_balances ls' = SQLiteStorage.account_balances ls.
Proof.
  unfold StorageManager.store_block, SQLiteStorage.store_block,
    SQLiteStorage.store_block_index, SQLiteStorage.write.
  write_cases (StorageManager.local_storage sm); cbn; try done.
  destruct faults as [|[|] faults]; cbn; done.
Qed.

(** A successful [store_block] files the block under its hash and its hash
    under its index, and leaves the balances and the key-value table. *)
Lemma store_block_stored (sm : StorageManager.t) (block : Block.t) :
  (StorageManager.store_block sm block).1 = true →
  let ls := StorageManager.local_storage sm in
  let ls' := StorageManager.local_storage (StorageManager.store_block sm block).2 in
  SQLiteStorage.blocks ls'
  = <[Block.hash block := (Block.to_dict block, Block.index block)]> (SQLiteStorage.blocks ls) ∧
  SQLiteStorage.block_height_index ls'
  = <[Block.index block := Block.hash block]> (SQLiteStorage.block_height_index ls) ∧
  SQLiteStorage.key_value ls' = SQLiteStorage.key_value ls ∧
  SQLiteStorage.account_balances ls' = SQLiteStorage.account_balances ls.
Proof.
  unfold StorageManager.store_block, SQLiteStorage.store_block,
    SQLiteStorage.store_block_index, SQLiteStorage.write.
  pose proof store_transaction_indices_tables as Hidx. cbn zeta in Hidx.
  write_cases (StorageManager.local_storage sm); cbn; try done.
  - intros _. by rewrite !(proj1 (proj2 (Hidx _ _ _ _))),
      !(proj1 (proj2 (proj2 (Hidx _ _ _ _)))), !(proj1 (Hidx _ _ _ _)),
      !(proj2 (proj2 (proj2 (Hidx _ _ _ _)))).
  - destruct faults as [|[|] faults]; cbn; try done.
    + intros _. by rewrite !(proj1 (proj2 (Hidx _ _ _ _))),
        !(proj1 (proj2 (proj2 (Hidx _ _ _ _)))), !(proj1 (Hidx _ _ _ _)),
        !(proj2 (proj2 (proj2 (Hidx _ _ _ _)))).
    + intros _. by rewrite !(proj1 (proj2 (Hidx _ _ _ _))),
        !(proj1 (proj2 (proj2 (Hidx _ _ _ _)))), !(proj1 (Hidx _ _ _ _)),
        !(proj2 (proj2 (proj2 (Hidx _ _ _ _)))).
Qed.

End WithLibs.

(** [store_balances] and [store_blockchain_metadata] leave the blocks and
    the height index. *)
Lemma store_balances_blocks (sm : StorageManager.t) (balances : gmap string Q) :
  let ls' := StorageManager.local_storage (StorageManager.store_balances sm balances).2 in
  SQLiteStorage.blocks ls' = SQLiteStorage.blocks (StorageManager.local_storage sm) ∧
  SQLiteStorage.block_height_index ls'
  = SQLiteStorage.block_height_index (StorageManager.local_storage sm).
Proof.
  unfold StorageManager.store_balances.
  generalize (map_to_list balances) O (StorageManager.local_storage sm).
  intros items. induction items as [|[address balance] items IH]; intros n ls; [done|].
  cbn [foldl]. cbn [fst snd].
  destruct (SQLiteStorage.store_account_balance ls address balance) as [ok ls1] eqn:Hstore.
  specialize (IH (if ok then S n else n) ls1).
  destruct (foldl _ _ items) as [count ls2]. cbn in *.
  destruct IH as [-> ->].
  unfold SQLiteStorage.store_account_balance, SQLiteStorage.write in Hstore.
  write_cases ls; injection Hstore as <- <-; done.
Qed.

Lemma store_blockchain_metadata_blocks (sm : StorageManager.t) (metadata : Metadata.t) :
  let ls' := StorageManager.local_storage
               (StorageManager.store_blockchain_metadata sm metadata).2 in
  SQLiteStorage.blocks ls' = SQLiteStorage.blocks (StorageManager.local_storage sm) ∧
  SQLiteStorage.block_height_index ls'
  = SQLiteStorage.block_height_index (StorageManager.local_storage sm) ∧
  SQLiteStorage.account_balances ls'
  = SQLiteStorage.account_balances (StorageManager.local_storage sm).
Proof.
  unfold StorageManager.store_blockchain_metadata, SQLiteStorage.put, SQLiteStorage.write.
  by write_cases (StorageManager.local_storage sm).
Qed.

End StorageFacts.

(** ** The ledger core *)

Module BlockchainFacts.
Import Blockchain.

(** [_save_to_storage] writes the metadata and the balances, nothing else. *)
Lemma _save_to_storage_keeps (self : t) (now : Q) :
  let self' := _save_to_storage self now in
  difficulty self' = difficulty self ∧
  mining_reward self' = mining_reward self ∧
  pending_transactions self' = pending_transactions self ∧
  balances self' = balances self ∧
  SQLiteStorage.blocks (StorageManager.local_storage (storage_manager self'))
  = SQLiteStorage.blocks (StorageManager.local_storage (storage_manager self)) ∧
  SQLiteStorage.block_height_index (StorageManager.local_storage (storage_manager self'))
  = SQLiteStorage.block_height_index (StorageManager.local_storage (storage_manager self)).
Proof.
  unfold _save_to_storage. cbn.
  set (sm1 := (StorageManager.store_blockchain_metadata _ _).2).
  destruct (StorageFacts.store_balances_blocks sm1 (balances self)) as [-> ->].
  unfold sm1.
  destruct (StorageFacts.store_blockchain_metadata_blocks (storage_manager self)
              (Metadata.Build (Some (difficulty self)) (Some (mining_reward self))
                              (Some now) None)) as (-> & -> & _).
  done.
Qed.

Section WithLibs.
Context `{!Libs}.

(** The reward transaction that [mine_pending_transactions] synthesizes. *)
Lemma candidate_transactions (self : t) (address : string) (env : mine_env) :
  Block.transactions (candidate_block self address env)
  = pending_transactions self ++
      [Transaction.new "" address (mining_reward self) 0%Q ""
                       (reward_time env) (reward_nonce env)].
Proof. reflexivity. Qed.

Lemma candidate_difficulty (self : t) (address : string) (env : mine_env) :
  Block.difficulty (candidate_block self address env) = 4.
Proof. reflexivity. Qed.

(** The nonce search on the candidate block ends when some nonce gives a
    hash with the target prefix: at the first such nonce, and with no more
    rounds than that nonce. *)
Lemma mining_ends (self : t) (address : string) (env : mine_env) (k : nat) :
  Py.startswith
    (Block.hash (Block.with_nonce (candidate_block self address env) (Z.of_nat k)))
    (Py.str_mul "0" (difficulty self)) = true →
  ∃ new_block,
    (∀ fuel, (k ≤ fuel)%nat →
       _mine_block fuel self (candidate_block self address env) = Some new_block) ∧
    BlockSpec.same_content new_block (candidate_block self address env) ∧
    Py.startswith (Block.hash new_block) (Py.str_mul "0" (difficulty self)) = true.
Proof.
  intros Hgood.
  destruct (BlockFacts.nonce_search_finds (Py.str_mul "0" (difficulty self))
              (candidate_block self address env) k 0 Hgood) as (j & Hj & Hhit & Hsearch).
  exists (Block.with_nonce (candidate_block self address env) (0 + Z.of_nat j)).
  split; [|split; [apply BlockFacts.same_content_with_nonce | exact Hhit]].
  intros fuel Hfuel. unfold _mine_block.
  rewrite <- (Hsearch fuel Hfuel). reflexivity.
Qed.

(** [mine_pending_transactions] on a non-empty pool, once the search has
    produced [new_block]. *)
Lemma mine_pending_transactions_mined (fuel : nat) (self : t) (address : string)
    (env : mine_env) (new_block : Block.t) :
  pending_transactions self ≠ [] →
  _mine_block fuel self (candidate_block self address env) = Some new_block →
  mine_pending_transactions fuel self address env
  = let stored := StorageManager.store_block (storage_manager self) new_block in
    let self1 := set_storage_manager self stored.2 in
    if stored.1 then
      Some (Some new_block,
            _save_to_storage
              (set_pending_transactions (_update_balances_from_block self1 new_block) [])
              (save_time env))
    else Some (None, self1).
Proof.
  intros Hne Hmined. unfold mine_pending_transactions.
  destruct (pending_transactions self) as [|tx rest] eqn:Hp; [done|].
  rewrite Hmined.
  by destruct (StorageManager.store_block (storage_manager self) new_block) as [[|] sm].
Qed.

Lemma mine_pending_transactions_empty (fuel : nat) (self : t) (address : string)
    (env : mine_env) :
  pending_transactions self = [] →
  mine_pending_transactions fuel self address env = Some (None, self).
Proof. intros Hnil. unfold mine_pending_transactions. by rewrite Hnil. Qed.

End WithLibs.
End BlockchainFacts.

Module BlockchainClaims.
Import Blockchain BlockchainFacts.

(** C3. [mine_pending_transactions] returns [None] and leaves the chain as it
    is when nothing is pending. Otherwise, when some nonce [k] gives the
    candidate block a hash that begins with [difficulty] characters ["0"] (so
    that the search ends) and the database accepts the block, the method
    returns, for every bound [fuel >= k] on the search, a block whose
    transactions are the pending ones followed by one reward transaction with
    sender [""], receiver [mining_reward_address] and amount [mining_reward];
    the hash of the block begins with [difficulty] characters ["0"], and the
    pending list is empty afterwards. *)
Theorem mine_pending_transactions_result `{!Libs} (self : t)
    (mining_reward_address : string) (env : mine_env) :
  (pending_transactions self = [] →
   ∀ fuel, mine_pending_transactions fuel self mining_reward_address env
           = Some (None, self)) ∧
  (∀ k : nat,
     pending_transactions self ≠ [] →
     Py.startswith
       (Block.hash (Block.with_nonce (candidate_block self mining_reward_address env)
                                     (Z.of_nat k)))
       (Py.str_mul "0" (difficulty self)) = true →
     (∀ block, (StorageManager.store_block (storage_manager self) block).1 = true) →
     ∃ new_block self' reward_transaction,
       (∀ fuel, (k ≤ fuel)%nat →
          mine_pending_transactions fuel self mining_reward_address env
          = Some (Some new_block, self')) ∧
       Block.transactions new_block
       = pending_transactions self ++ [reward_transaction] ∧
       Transaction.sender reward_transaction = "" ∧
       Transaction.receiver reward_transaction = mining_reward_address ∧
       Transaction.amount reward_transaction = mining_reward self ∧
       Py.startswith (Block.hash new_block) (Py.str_mul "0" (difficulty self)) = true ∧
       pending_transactions self' = []).
Proof.
  split.
  - intros Hnil fuel. by apply mine_pending_transactions_empty.
  - intros k Hne Hgood Hstore.
    destruct (mining_ends self mining_reward_address env k Hgood)
      as (new_block & Hmined & Hsame & Htarget).
    eexists new_block, _, _. split; [|split; [|split; [|split; [|split; [|split]]]]].
    + intros fuel Hfuel.
      rewrite (mine_pending_transactions_mined fuel self _ env new_block Hne (Hmined fuel Hfuel)).
      cbn zeta. rewrite Hstore. reflexivity.
    + destruct Hsame as (_ & _ & -> & _). apply candidate_transactions.
    + reflexivity.
    + reflexivity.
    + reflexivity.
    + exact Htarget.
    + by destruct (_save_to_storage_keeps
                     (set_pending_transactions
                        (_update_balances_from_block
                           (set_storage_manager self
                              (StorageManager.store_block (storage_manager self) new_block).2)
                           new_block) [])
                     (save_time env)) as (_ & _ & -> & _).
Qed.

Lemma mine_pending_transactions_result_witness :
  ∃ new_block self' reward_transaction,
    (∀ fuel, (20 ≤ fuel)%nat →
       mine_pending_transactions (H := python) fuel Scenario.chain1 "miner" Scenario.env1
       = Some (Some new_block, self')) ∧
    Block.transactions new_block
    = pending_transactions Scenario.chain1 ++ [reward_transaction] ∧
    Transaction.sender reward_transaction = "" ∧
    Transaction.receiver reward_transaction = "miner" ∧
    Transaction.amount reward_transaction = mining_reward Scenario.chain1 ∧
    Py.startswith (Block.hash new_block)
      (Py.str_mul "0" (difficulty Scenario.chain1)) = true ∧
    pending_transactions self' = [].
Proof.
  apply (proj2 (mine_pending_transactions_result (H := python)
                  Scenario.chain1 "miner" Scenario.env1) 20%nat).
  - vm_compute. discriminate.
  - vm_compute. reflexivity.
  - intros block. rewrite StorageFacts.store_block_1. vm_compute. reflexivity.
Defined.

(** C7. When something is pending, the search ends (some nonce [k] gives a
    hash with the target prefix) and the database refuses the block, then
    [mine_pending_transactions] returns [None], for every bound [fuel >= k];
    the pending list, the balances of the chain object, the stored balances,
    the height index and so the latest height are what they were. *)
Theorem failed_store_keeps_chain_state `{!Libs} (self : t)
    (mining_reward_address : string) (env : mine_env) (k : nat) :
  pending_transactions self ≠ [] →
  Py.startswith
    (Block.hash (Block.with_nonce (candidate_block self mining_reward_address env)
                                  (Z.of_nat k)))
    (Py.str_mul "0" (difficulty self)) = true →
  (∀ block, (StorageManager.store_block (storage_manager self) block).1 = false) →
  ∃ self',
    (∀ fuel, (k ≤ fuel)%nat →
       mine_pending_transactions fuel self mining_reward_address env
       = Some (None, self')) ∧
    pending_transactions self' = pending_transactions self ∧
    balances self' = balances self ∧
    difficulty self' = difficulty self ∧
    mining_reward self' = mining_reward self ∧
    (∀ address, get_balance self' address = get_balance self address) ∧
    StorageManager.get_all_balances (storage_manager self')
    = StorageManager.get_all_balances (storage_manager self) ∧
    StorageManager.get_latest_block_height (storage_manager self')
    = StorageManager.get_latest_block_height (storage_manager self).
Proof.
  intros Hne Hgood Hstore.
  destruct (mining_ends self mining_reward_address env k Hgood)
    as (new_block & Hmined & _ & _).
  exists (set_storage_manager self
            (StorageManager.store_block (storage_manager self) new_block).2).
  destruct (StorageFacts.store_block_failed (storage_manager self) new_block
              (Hstore new_block)) as (Hkv & Hheights & Hbalances).
  cbn zeta in *.
  split; [|split; [done|split; [done|split; [done|split; [done|split; [|split]]]]]].
  - intros fuel Hfuel.
    rewrite (mine_pending_transactions_mined fuel self _ env new_block Hne (Hmined fuel Hfuel)).
    cbn zeta. by rewrite Hstore.
  - intros address. unfold get_balance, StorageManager.get_balance,
      SQLiteStorage.get_account_balance. cbn. by rewrite Hbalances.
  - unfold StorageManager.get_all_balances, StorageManager.get_balance,
      SQLiteStorage.get_all_accounts, SQLiteStorage.get_account_balance.
    cbn. by rewrite Hbalances.
  - unfold StorageManager.get_latest_block_height,
      SQLiteStorage.get_latest_block_height. cbn. by rewrite Hheights.
Qed.

Lemma failed_store_keeps_chain_state_witness :
  ∃ self',
    (∀ fuel, (20 ≤ fuel)%nat →
       mine_pending_transactions (H := python) fuel Scenario.chain1_failing "miner"
                                 Scenario.env1
       = Some (None, self')) ∧
    pending_transactions self' = pending_transactions Scenario.chain1_failing ∧
    balances self' = balances Scenario.chain1_failing ∧
    difficulty self' = difficulty Scenario.chain1_failing ∧
    mining_reward self' = mining_reward Scenario.chain1_failing ∧
    (∀ address, get_balance self' address
                = get_balance Scenario.chain1_failing address) ∧
    StorageManager.get_all_balances (storage_manager self')
    = StorageManager.get_all_balances (storage_manager Scenario.chain1_failing) ∧
    StorageManager.get_latest_block_height (storage_manager self')
    = StorageManager.get_latest_block_height (storage_manager Scenario.chain1_failing).
Proof.
  apply (failed_store_keeps_chain_state (H := python) Scenario.chain1_failing
           "miner" Scenario.env1 20%nat).
  - vm_compute. discriminate.
  - vm_compute. reflexivity.
  - intros block. rewrite StorageFacts.store_block_1. vm_compute. reflexivity.
Defined.

(** C9. Whatever the difficulty of the chain, the block that
    [mine_pending_transactions] returns carries the difficulty 4 of the
    [Block] constructor, also in its persisted form: [_mine_block] searches
    with the difficulty of the chain and leaves the attribute of the block.
    With a difficulty below 4 the block can then fail the proof-of-work check
    of [Block.is_valid]: in the scenario the chain has difficulty 1, the mined
    hash begins with one ["0"] and not with four. *)
Theorem mined_block_keeps_default_difficulty :
  (∀ `{!Libs} (self : t) (mining_reward_address : string) (env : mine_env) (k : nat),
     pending_transactions self ≠ [] →
     Py.startswith
       (Block.hash (Block.with_nonce (candidate_block self mining_reward_address env)
                                     (Z.of_nat k)))
       (Py.str_mul "0" (difficulty self)) = true →
     (∀ block, (StorageManager.store_block (storage_manager self) block).1 = true) →
     ∃ new_block self',
       (∀ fuel, (k ≤ fuel)%nat →
          mine_pending_transactions fuel self mining_reward_address env
          = Some (Some new_block, self')) ∧
       Block.difficulty new_block = 4 ∧
       Block.d_difficulty <$>
         SQLiteStorage.get_block (StorageManager.local_storage (storage_manager self'))
                                 (Block.hash new_block)
       = Some 4) ∧
  (difficulty Scenario.chain1 = 1 ∧
   Scenario.mined1 = Some (Some Scenario.block1, Scenario.chain2) ∧
   Py.startswith (Block.hash Scenario.block1)
     (Py.str_mul "0" (difficulty Scenario.chain1)) = true ∧
   Py.startswith (Block.hash Scenario.block1)
     (Py.str_mul "0" (Block.difficulty Scenario.block1)) = false ∧
   Block.is_valid (H := python) Scenario.block1 = false).
Proof.
  split.
  - intros Hlibs self mining_reward_address env k Hne Hgood Hstore.
    destruct (mining_ends self mining_reward_address env k Hgood)
      as (new_block & Hmined & Hsame & _).
    eexists new_block, _. split; [|split].
    + intros fuel Hfuel.
      rewrite (mine_pending_transactions_mined fuel self _ env new_block Hne (Hmined fuel Hfuel)).
      cbn zeta. rewrite Hstore. reflexivity.
    + destruct Hsame as (_ & _ & _ & _ & _ & _ & _ & ->).
      apply candidate_difficulty.
    + destruct (_save_to_storage_keeps
                  (set_pending_transactions
                     (_update_balances_from_block
                        (set_storage_manager self
                           (StorageManager.store_block (storage_manager self) new_block).2)
                        new_block) [])
                  (save_time env)) as (_ & _ & _ & _ & Hblocks & _).
      unfold SQLiteStorage.get_block. rewrite Hblocks. cbn.
      destruct (StorageFacts.store_block_stored (storage_manager self) new_block
                  (Hstore new_block)) as (-> & _).
      rewrite lookup_insert_eq. cbn.
      destruct Hsame as (_ & _ & _ & _ & _ & _ & _ & ->).
      by rewrite candidate_difficulty.
  - split; [vm_compute; reflexivity|].
    split; [vm_compute; reflexivity|].
    split; [vm_compute; reflexivity|].
    split; vm_compute; reflexivity.
Qed.

Lemma mined_block_keeps_default_difficulty_witness :
  ∃ new_block self',
    (∀ fuel, (20 ≤ fuel)%nat →
       mine_pending_transactions (H := python) fuel Scenario.chain1 "miner" Scenario.env1
       = Some (Some new_block, self')) ∧
    Block.difficulty new_block = 4 ∧
    Block.d_difficulty <$>
      SQLiteStorage.get_block (StorageManager.local_storage (storage_manager self'))
                              (Block.hash new_block)
    = Some 4.
Proof.
  apply (proj1 mined_block_keeps_default_difficulty python Scenario.chain1 "miner"
           Scenario.env1 20%nat).
  - vm_compute. discriminate.
  - vm_compute. reflexivity.
  - intros block. rewrite StorageFacts.store_block_1. vm_compute. reflexivity.
Defined.

End BlockchainClaims.

Module ChainValidity.
Import Blockchain.

Section WithLibs.
Context `{!Libs}.

(** [Block] has no attribute [calculate_hash]: the method is
    [_calculate_hash]. *)
Lemma no_calculate_hash : Block.hash_method "calculate_hash" = None.
Proof. reflexivity. Qed.

(** The first round of the loop never reaches the next one. *)
Lemma check_heights_cons (self : t) (height : Z) (rest : list Z) :
  check_heights self (height :: rest) ≠ Py.Ok true.
Proof.
  cbn [check_heights].
  destruct (StorageManager.get_block_by_height _ height) as [current_block|]; [|done].
  destruct (StorageManager.get_block_by_height _ (height - 1)) as [previous_block|];
    [|done].
  destruct (negb _); [done|].
  by rewrite no_calculate_hash.
Qed.

(** [is_chain_valid] accepts exactly the chains without a block above the
    genesis block. *)
Lemma is_chain_valid_iff (self : t) :
  is_chain_valid self = true ↔
  StorageManager.get_latest_block_height (storage_manager self) < 1.
Proof.
  unfold is_chain_valid.
  set (latest_height := StorageManager.get_latest_block_height _).
  destruct (decide (latest_height < 1)) as [Hshort|Hlong].
  - rewrite seqZ_nil by lia. done.
  - rewrite seqZ_cons by lia.
    pose proof (check_heights_cons self 1 (seqZ (Z.succ 1) (Z.pred latest_height))) as Hne.
    destruct (check_heights _ _) as [[|]|]; [done | |]; split; (done || lia).
Qed.

Lemma linked_and_hashed_b_sound (self : t) :
  linked_and_hashed_b self = true → linked_and_hashed self.
Proof.
  unfold linked_and_hashed_b, linked_and_hashed. rewrite forallb_forall.
  intros Hall height Hheight.
  specialize (Hall height). ospecialize (Hall _).
  { apply list_elem_of_In, elem_of_seqZ. lia. }
  destruct (StorageManager.get_block_by_height _ height) as [current_block|]; [|done].
  destruct (StorageManager.get_block_by_height _ (height - 1)) as [previous_block|];
    [|done].
  apply andb_prop in Hall as [Hlinked Hhashed].
  exists current_block, previous_block.
  split; [done|]. split; [done|].
  split; by apply String.eqb_eq.
Qed.

End WithLibs.

(** C1 (code defect). [is_chain_valid] does not return true on every chain
    whose blocks are linked and carry their own hash: the chain of the
    scenario has three blocks, each block above the genesis block names the
    hash of its predecessor and stores the hash that [_calculate_hash]
    recomputes, and [is_chain_valid] returns false. The loop calls
    [current_block.calculate_hash()], which [Block] does not define, and
    [except Exception] turns the [AttributeError] into [False]. *)
Theorem is_chain_valid_rejects_sound_chain :
  StorageManager.get_latest_block_height (storage_manager Scenario.chain3) = 2 ∧
  linked_and_hashed (H := python) Scenario.chain3 ∧
  is_chain_valid (H := python) Scenario.chain3 = false.
Proof.
  split; [vm_compute; reflexivity|]. split.
  - apply linked_and_hashed_b_sound. vm_compute. reflexivity.
  - vm_compute. reflexivity.
Qed.

End ChainValidity.

Module Genesis.
Import Blockchain.

(** The genesis block that [_create_genesis_block] builds at the clock
    reading [now]. *)
Lemma genesis_fields `{!Libs} (now : Q) :
  let genesis_block :=
    Block.with_nonce (Block.new 0 [] "0" "" now) 0 in
  Block.index genesis_block = 0 ∧
  Block.transactions genesis_block = [] ∧
  Block.previous_hash genesis_block = "0" ∧
  Block.nonce genesis_block = 0 ∧
  Block.hash genesis_block = Block._calculate_hash genesis_block.
Proof. repeat split. Qed.

(** C8 (amended). A chain opened on an empty database stores, at height 0,
    an unmined genesis block: no transactions, nonce 0, the hash that
    [_calculate_hash] gives at that nonce whatever its leading characters,
    and the one-character sentinel ["0"] as [previous_hash] (the sentinel of
    64 zeros belongs to the class [GenesisBlock], which the chain does not
    use). The genesis block of the scenario has a hash that begins with
    ["e"], and is the block at height 0. *)
Theorem genesis_block_on_empty_storage :
  (∀ `{!Libs} (difficulty : Z) (mining_reward now genesis_now : Q),
     let chain := new difficulty mining_reward
                      (StorageManager.Build (SQLiteStorage.fresh [])) now genesis_now in
     let ls := StorageManager.local_storage (storage_manager chain) in
     ∃ genesis_block,
       SQLiteStorage.get_block_hash_by_height ls 0 = Some (Block.hash genesis_block) ∧
       SQLiteStorage.get_block ls (Block.hash genesis_block)
       = Some (Block.to_dict genesis_block) ∧
       StorageManager.get_latest_block_height (storage_manager chain) = 0 ∧
       Block.index genesis_block = 0 ∧
       Block.transactions genesis_block = [] ∧
       Block.previous_hash genesis_block = "0" ∧
       Block.nonce genesis_block = 0 ∧
       Block.hash genesis_block = Block._calculate_hash genesis_block) ∧
  (∃ genesis_block,
     StorageManager.get_block_by_height (H := python)
       (storage_manager (new (H := python) 4 50
                           (StorageManager.Build (SQLiteStorage.fresh []))
                           1700000010 1700000011)) 0
     = Some genesis_block ∧
     Block.previous_hash genesis_block = "0" ∧
     Py.startswith (Block.hash genesis_block) "e" = true ∧
     Py.startswith (Block.hash genesis_block) "0" = false).
Proof.
  split.
  - intros Hlibs difficulty mining_reward now genesis_now chain ls.
    exists (Block.with_nonce (Block.new 0 [] "0" "" genesis_now) 0).
    pose proof (StorageFacts.store_block_stored
                  (StorageManager.Build (SQLiteStorage.fresh []))
                  (Block.with_nonce (Block.new 0 [] "0" "" genesis_now) 0)
                  eq_refl) as (Hblocks & Hheights & _).
    cbn zeta in Hblocks, Hheights.
    assert (Hls : ls = StorageManager.local_storage
                         (StorageManager.store_block
                            (StorageManager.Build (SQLiteStorage.fresh []))
                            (Block.with_nonce (Block.new 0 [] "0" "" genesis_now) 0)).2)
      by reflexivity.
    split; [|split; [|split]].
    + unfold SQLiteStorage.get_block_hash_by_height.
      rewrite Hls, Hheights. apply lookup_insert_eq.
    + unfold SQLiteStorage.get_block. rewrite Hls, Hblocks.
      by rewrite lookup_insert_eq.
    + unfold StorageManager.get_latest_block_height,
        SQLiteStorage.get_latest_block_height.
      fold ls. rewrite Hls, Hheights.
      change (SQLiteStorage.block_height_index _) with (∅ : gmap Z string).
      rewrite insert_empty, map_to_list_singleton. reflexivity.
    + apply genesis_fields.
  - eexists. split; [vm_compute; reflexivity|].
    split; [reflexivity|]. split; reflexivity.
Qed.

(** C8 as stated fails: the [previous_hash] of the genesis block of a chain
    opened on an empty database is the string ["0"], of length 1, not a
    string of 64 characters ["0"]. *)
Lemma genesis_previous_hash_is_one_zero :
  ∃ genesis_block,
    StorageManager.get_block_by_height (H := python)
      (storage_manager (new (H := python) 4 50
                          (StorageManager.Build (SQLiteStorage.fresh []))
                          1700000010 1700000011)) 0
    = Some genesis_block ∧
    Block.previous_hash genesis_block ≠ Py.str_mul "0" 64.
Proof.
  eexists. split; [vm_compute; reflexivity|].
  vm_compute. discriminate.
Qed.

End Genesis.

(** ** Export and import *)

Module ExportFacts.
Import StorageManager ExportSpec.

(** Inserting the entries of a list one after the other. *)
Section FoldInsert.
Context {A K V : Type} `{Countable K} (key : A → K) (val : A → V).

Lemma foldl_insert_Some (ds : list A) (m : gmap K V) (k : K) (v : V) :
  foldl (λ m d, <[key d := val d]> m) m ds !! k = Some v →
  (∃ d, d ∈ ds ∧ key d = k ∧ val d = v) ∨ m !! k = Some v.
Proof.
  revert m. induction ds as [|d ds IH]; intros m Hk; [by right|].
  cbn in Hk. apply IH in Hk as [(d' & Hin & Hkey & Hval) | Hk].
  - left. exists d'. split; [by apply list_elem_of_further | done].
  - apply lookup_insert_Some in Hk as [[<- <-] | [_ Hk]]; [|by right].
    left. exists d. split; [apply list_elem_of_here | done].
Qed.

Lemma foldl_insert_is_Some (ds : list A) (m : gmap K V) (k : K) :
  (∃ d, d ∈ ds ∧ key d = k) ∨ is_Some (m !! k) →
  is_Some (foldl (λ m d, <[key d := val d]> m) m ds !! k).
Proof.
  revert m. induction ds as [|d ds IH]; intros m Hk.
  - destruct Hk as [(d & Hin & _) | Hk]; [by apply elem_of_nil in Hin | done].
  - cbn. apply IH. destruct Hk as [(d' & Hin & Hkey) | Hk].
    + apply elem_of_cons in Hin as [-> | Hin].
      * right. rewrite Hkey. rewrite lookup_insert_eq. by eexists.
      * left. by exists d'.
    + right. destruct (decide (key d = k)) as [<-|Hne].
      * rewrite lookup_insert_eq. by eexists.
      * by rewrite lookup_insert_ne.
Qed.

End FoldInsert.

(** The latest height bounds every height of the index. *)
Lemma latest_block_height_ge (ls : SQLiteStorage.t) (height : Z) (block_hash : string) :
  SQLiteStorage.block_height_index ls !! height = Some block_hash →
  height ≤ SQLiteStorage.get_latest_block_height ls.
Proof.
  intros Hh. unfold SQLiteStorage.get_latest_block_height.
  assert (Hin : height ∈ (map_to_list (SQLiteStorage.block_height_index ls)).*1).
  { apply list_elem_of_fmap. exists (height, block_hash).
    split; [done|]. by apply elem_of_map_to_list. }
  destruct ((map_to_list (SQLiteStorage.block_height_index ls)).*1) as [|h hs];
    [by apply elem_of_nil in Hin|].
  apply elem_of_cons in Hin as [-> | Hin].
  - clear. induction hs as [|h' hs IH]; cbn; lia.
  - clear -Hin. induction hs as [|h' hs IH]; [by apply elem_of_nil in Hin|].
    cbn. apply elem_of_cons in Hin as [-> | Hin]; [lia|]. specialize (IH Hin). lia.
Qed.

(** [get_all_balances] keeps the accounts with a positive balance. *)
Lemma get_all_balances_lookup (sm : t) (address : string) :
  get_all_balances sm !! address
  = if Py.lt 0 (get_balance sm address) then Some (get_balance sm address) else None.
Proof.
  unfold get_all_balances.
  assert (Hfold : ∀ accounts (balances : gmap string Q),
    foldl (λ (balances : gmap string Q) address,
             if Py.lt 0 (get_balance sm address)
             then <[address := get_balance sm address]> balances else balances)
          balances accounts !! address
    = if decide (address ∈ accounts ∧ Py.lt 0 (get_balance sm address) = true)
      then Some (get_balance sm address) else balances !! address).
  { induction accounts as [|a accounts IH]; intros balances.
    - cbn. rewrite decide_False; [done|]. by intros [?%elem_of_nil _].
    - cbn [foldl]. rewrite IH.
      destruct (decide (address ∈ accounts ∧ _)) as [[Hin Hpos]|Hnot].
      + rewrite decide_True; [done|]. split; [by apply list_elem_of_further | done].
      + destruct (decide (a = address)) as [->|Hne].
        * destruct (Py.lt 0 (get_balance sm address)) eqn:Hpos.
          -- rewrite lookup_insert_eq. rewrite decide_True; [done|].
             split; [apply list_elem_of_here | done].
          -- rewrite decide_False; [done|]. by intros [_ ?].
        * rewrite (decide_False (P := address ∈ a :: accounts ∧ _)).
          2:{ intros [Hin Hpos]. apply Hnot. split; [|done].
              apply elem_of_cons in Hin as [?|?]; [congruence | done]. }
          destruct (Py.lt 0 (get_balance sm a)); [|done].
          by rewrite lookup_insert_ne. }
  rewrite Hfold, lookup_empty.
  destruct (Py.lt 0 (get_balance sm address)) eqn:Hpos.
  - rewrite decide_True; [done|]. split; [|done].
    unfold SQLiteStorage.get_all_accounts.
    unfold get_balance, SQLiteStorage.get_account_balance in Hpos.
    destruct (SQLiteStorage.account_balances (local_storage sm) !! address)
      as [balance|] eqn:Hstored; [|done].
    apply list_elem_of_fmap. exists (address, balance).
    split; [done|]. by apply elem_of_map_to_list.
  - rewrite decide_False; [done|]. by intros [_ ?].
Qed.

(** *** Writes to a database without pending faults *)

Lemma store_transaction_indices_quiet (ls : SQLiteStorage.t) (block_hash : string)
    (tx_index : Z) (transactions : list Transaction.t) :
  SQLiteStorage.io_faults ls = [] →
  SQLiteStorage.io_faults (store_transaction_indices ls block_hash tx_index transactions) = [].
Proof.
  revert ls tx_index. induction transactions as [|tx rest IH]; intros ls tx_index Hquiet;
    [done|].
  cbn [store_transaction_indices]. apply IH.
  unfold SQLiteStorage.store_transaction_index.
  by rewrite StorageFacts.write_no_faults.
Qed.

Section WithLibs.
Context `{!Libs}.

Lemma store_block_quiet (sm : t) (block : Block.t) :
  quiet sm →
  let sm' := (store_block sm block).2 in
  quiet sm' ∧
  SQLiteStorage.blocks (local_storage sm')
  = <[Block.hash block := (Block.to_dict block, Block.index block)]>
      (SQLiteStorage.blocks (local_storage sm)) ∧
  SQLiteStorage.block_height_index (local_storage sm')
  = <[Block.index block := Block.hash block]>
      (SQLiteStorage.block_height_index (local_storage sm)) ∧
  SQLiteStorage.account_balances (local_storage sm')
  = SQLiteStorage.account_balances (local_storage sm).
Proof.
  intros Hquiet. unfold quiet in *.
  assert (Hok : (store_block sm block).1 = true)
    by (rewrite StorageFacts.store_block_1; by rewrite Hquiet).
  destruct (StorageFacts.store_block_stored sm block Hok) as (Hb & Hh & _ & Ha).
  cbn zeta in *. split; [|done].
  unfold store_block, SQLiteStorage.store_block, SQLiteStorage.store_block_index.
  rewrite StorageFacts.write_no_faults by done. cbn.
  rewrite StorageFacts.write_no_faults by done. cbn.
  by apply store_transaction_indices_quiet.
Qed.

(** Importing a list of block dicts files each under its own hash and
    index. *)
Lemma import_blocks_tables (sm : t) (dicts : list Block.dict) :
  quiet sm →
  let sm' := foldl (λ (s : t) block_dict, (store_block s (Block.from_dict block_dict)).2)
                   sm dicts in
  quiet sm' ∧
  SQLiteStorage.blocks (local_storage sm')
  = foldl (λ m d, <[Block.d_hash d
                    := (Block.to_dict (Block.from_dict d), Block.d_index d)]> m)
          (SQLiteStorage.blocks (local_storage sm)) dicts ∧
  SQLiteStorage.block_height_index (local_storage sm')
  = foldl (λ m d, <[Block.d_index d := Block.d_hash d]> m)
          (SQLiteStorage.block_height_index (local_storage sm)) dicts ∧
  SQLiteStorage.account_balances (local_storage sm')
  = SQLiteStorage.account_balances (local_storage sm).
Proof.
  revert sm. induction dicts as [|d dicts IH]; intros sm Hquiet; [done|].
  cbn [foldl].
  destruct (store_block_quiet sm (Block.from_dict d) Hquiet) as (Hq & Hb & Hh & Ha).
  destruct (IH _ Hq) as (Hq' & Hb' & Hh' & Ha').
  cbn zeta in *. by rewrite Hb', Hh', Ha', Hb, Hh, Ha.
Qed.

End WithLibs.

(** With no fault pending, [store_balances] overwrites the listed accounts
    and keeps the others. *)
Lemma store_balances_quiet (sm : t) (balances : gmap string Q) (address : string) :
  quiet sm →
  SQLiteStorage.account_balances (local_storage (store_balances sm balances).2) !! address
  = match balances !! address with
    | Some balance => Some balance
    | None => SQLiteStorage.account_balances (local_storage sm) !! address
    end.
Proof.
  unfold quiet, store_balances.
  rewrite <- (list_to_map_to_list balances) at 2.
  pose proof (NoDup_fst_map_to_list balances) as Hnodup.
  generalize dependent (map_to_list balances). intros items Hnodup.
  generalize O (local_storage sm).
  induction items as [|[a b] items IH]; intros n ls Hquiet; [done|].
  cbn [foldl fst snd].
  unfold SQLiteStorage.store_account_balance at 2.
  rewrite StorageFacts.write_no_faults by done.
  apply NoDup_cons in Hnodup as [Hfresh Hnodup].
  specialize (IH Hnodup (S n)
    (SQLiteStorage.Build (SQLiteStorage.key_value ls) (SQLiteStorage.blocks ls)
       (SQLiteStorage.block_height_index ls) (SQLiteStorage.transaction_index ls)
       (<[a := b]> (SQLiteStorage.account_balances ls)) (SQLiteStorage.io_faults ls))
    Hquiet).
  destruct (foldl _ _ items) as [count ls'] eqn:Hfold. cbn [snd local_storage] in *.
  rewrite IH. cbn [SQLiteStorage.account_balances list_to_map foldr].
  destruct (decide (a = address)) as [->|Hne].
  - rewrite lookup_insert_eq.
    rewrite (not_elem_of_list_to_map_1 _ _ Hfresh). by rewrite lookup_insert_eq.
  - rewrite (lookup_insert_ne (list_to_map items)) by done.
    destruct (list_to_map items !! address); [done|]. by rewrite lookup_insert_ne.
Qed.

End ExportFacts.

Module ExportImport.
Import StorageManager ExportSpec ExportFacts.

Section WithLibs.
Context `{!Libs}.

Lemma from_dict_index_hash (d : Block.dict) :
  Block.index (Block.from_dict d) = Block.d_index d ∧
  Block.hash (Block.from_dict d) = Block.d_hash d.
Proof. done. Qed.

(** The tables of the database after the round trip. *)
Lemma round_trip_tables (sm : t) (now export_now : Q) :
  let dicts := blocks (export_blockchain_data sm now export_now) in
  let ls' := local_storage (round_trip sm now export_now) in
  SQLiteStorage.blocks ls'
  = foldl (λ m d, <[Block.d_hash d
                    := (Block.to_dict (Block.from_dict d), Block.d_index d)]> m) ∅ dicts ∧
  SQLiteStorage.block_height_index ls'
  = foldl (λ m d, <[Block.d_index d := Block.d_hash d]> m) ∅ dicts ∧
  ∀ address, SQLiteStorage.account_balances ls' !! address
             = get_all_balances sm !! address.
Proof.
  intros dicts ls'. subst ls'. unfold round_trip, import_blockchain_data. cbn [snd].
  set (sm1 := (store_blockchain_metadata _ _).2).
  assert (Hq1 : quiet sm1) by done.
  destruct (import_blocks_tables sm1 dicts Hq1) as (Hq2 & Hb & Hh & Ha).
  cbn zeta in *.
  set (sm2 := foldl _ sm1 _) in *.
  destruct (StorageFacts.store_balances_blocks sm2
              (balances (export_blockchain_data sm now export_now))) as [Hb' Hh'].
  cbn zeta in *. rewrite Hb', Hh', Hb, Hh. split; [done|]. split; [done|].
  intros address. rewrite store_balances_quiet by done. rewrite Ha.
  cbn [balances export_blockchain_data].
  by destruct (get_all_balances sm !! address).
Qed.

(** The exported dicts are those of the blocks found at the heights from 0
    to the latest. *)
Lemma exported_dict (sm : t) (now export_now : Q) (d : Block.dict) :
  d ∈ blocks (export_blockchain_data sm now export_now) ↔
  ∃ height block,
    0 ≤ height ≤ get_latest_block_height sm ∧
    get_block_by_height sm height = Some block ∧ d = Block.to_dict block.
Proof.
  cbn [blocks export_blockchain_data]. rewrite list_elem_of_omap. split.
  - intros (height & Hin & Hd). apply elem_of_seqZ in Hin.
    destruct (get_block_by_height sm height) as [block|] eqn:Hblock; [|done].
    injection Hd as <-. exists height, block. split; [lia | done].
  - intros (height & block & Hrange & Hblock & ->). exists height.
    split; [apply elem_of_seqZ; lia | by rewrite Hblock].
Qed.

Lemma get_block_by_height_indexed (sm : t) (height : Z) (block : Block.t) :
  get_block_by_height sm height = Some block →
  height ≤ get_latest_block_height sm.
Proof.
  unfold get_block_by_height, SQLiteStorage.get_block_hash_by_height.
  destruct (SQLiteStorage.block_height_index (local_storage sm) !! height)
    as [block_hash|] eqn:Hh; [|done].
  intros _. by eapply latest_block_height_ge.
Qed.

Lemma well_indexed_b_sound (sm : t) : well_indexed_b sm = true → well_indexed sm.
Proof.
  unfold well_indexed_b, well_indexed. rewrite forallb_forall.
  intros Hall height block Hblock.
  assert (Hentry : ∃ block_hash,
    SQLiteStorage.block_height_index (local_storage sm) !! height = Some block_hash).
  { unfold get_block_by_height, SQLiteStorage.get_block_hash_by_height in Hblock.
    destruct (SQLiteStorage.block_height_index (local_storage sm) !! height)
      as [block_hash|]; [by eexists | done]. }
  destruct Hentry as [block_hash Hentry].
  specialize (Hall (height, block_hash)). cbn [fst] in Hall. rewrite Hblock in Hall.
  ospecialize (Hall _).
  { apply list_elem_of_In. by apply elem_of_map_to_list. }
  apply andb_prop in Hall as [Hall Hhash]. apply andb_prop in Hall as [Hheight Hindex].
  split; [lia|]. split; [lia|].
  unfold Py.truthy in Hhash. intros Hempty. by rewrite Hempty in Hhash.
Qed.

(** What [get_block_by_height] finds after the round trip, for a
    well-indexed database. *)
Lemma round_trip_heights (sm : t) (now export_now : Q) (height : Z) :
  well_indexed sm →
  is_Some (get_block_by_height (round_trip sm now export_now) height)
  ↔ is_Some (get_block_by_height sm height).
Proof.
  intros Hwell.
  destruct (round_trip_tables sm now export_now) as (Hb & Hh & _). cbn zeta in *.
  set (dicts := blocks (export_blockchain_data sm now export_now)) in *.
  assert (Hfound : ∀ block_hash,
    SQLiteStorage.block_height_index (local_storage (round_trip sm now export_now))
      !! height = Some block_hash →
    ∃ block, get_block_by_height sm height = Some block ∧
             Block.hash block = block_hash ∧ Block.to_dict block ∈ dicts).
  { intros block_hash Hentry. rewrite Hh in Hentry.
    apply foldl_insert_Some in Hentry as [(d & Hin & Hindex & Hhash) | Hentry];
      [|by rewrite lookup_empty in Hentry].
    pose proof Hin as Hin'.
    apply exported_dict in Hin as (k & block & Hrange & Hblock & ->).
    destruct (Hwell k block Hblock) as (_ & Hk & _).
    cbn in Hindex, Hhash. exists block. by rewrite <- Hindex, Hk. }
  unfold get_block_by_height at 1. unfold SQLiteStorage.get_block_hash_by_height.
  split.
  - destruct (SQLiteStorage.block_height_index _ !! height) as [block_hash|] eqn:Hentry;
      [|by intros [? ?]].
    intros _. destruct (Hfound block_hash eq_refl) as (block & -> & _). by eexists.
  - intros [block Hblock].
    destruct (Hwell height block Hblock) as (Hheight & Hindex & Hhash).
    pose proof (get_block_by_height_indexed sm height block Hblock) as Hlatest.
    assert (Hin : Block.to_dict block ∈ dicts).
    { apply exported_dict. exists height, block. split; [lia | done]. }
    assert (Hentry : is_Some
      (SQLiteStorage.block_height_index (local_storage (round_trip sm now export_now))
         !! height)).
    { rewrite Hh. apply foldl_insert_is_Some. left. by exists (Block.to_dict block). }
    destruct Hentry as [block_hash Hentry]. rewrite Hentry.
    destruct (Hfound block_hash Hentry) as (block' & Hblock' & <- & Hin').
    destruct (Hwell height block' Hblock') as (_ & _ & Hhash').
    replace (Py.truthy (Block.hash block')) with true.
    2:{ unfold Py.truthy. symmetry. apply negb_true_iff.
        by apply String.eqb_neq. }
    unfold get_block_by_hash, SQLiteStorage.get_block.
    assert (Hstored : is_Some
      (SQLiteStorage.blocks (local_storage (round_trip sm now export_now))
         !! Block.hash block')).
    { rewrite Hb. apply foldl_insert_is_Some. left. by exists (Block.to_dict block'). }
    destruct Hstored as [stored ->]. by eexists.
Qed.

End WithLibs.




End ExportImport.

(** ** Distributed storage *)

Module DistributedStorageFacts.
Import DistributedStorage.

Lemma filter_all {A} (P : A → Prop) `{∀ x, Decision (P x)} (l : list A) :
  Forall P l → filter P l = l.
Proof.
  induction 1 as [|x l Hx _ IH]; [done|].
  by rewrite filter_cons_True, IH.
Qed.

(** Every configured peer starts healthy. *)
Lemma new_node_health (ls : SQLiteStorage.t) (peers : list string)
    (replication_factor : Z) (level : string) (node : string) :
  node ∈ peers →
  node_health (new ls peers replication_factor level) !! node = Some true.
Proof.
  cbn [new node_health]. induction peers as [|peer peers IH]; [by intros ?%elem_of_nil|].
  intros Hin. cbn [map]. rewrite list_to_map_cons.
  destruct (decide (peer = node)) as [->|Hne]; [apply lookup_insert_eq|].
  rewrite lookup_insert_ne by done. apply IH.
  apply elem_of_cons in Hin as [?|?]; [congruence | done].
Qed.

Lemma successful_replications_singleton (node : string) (acked : bool) :
  successful_replications {[node := acked]} = if acked then 1 else 0.
Proof.
  unfold successful_replications. rewrite map_to_list_singleton.
  by destruct acked.
Qed.

Section WithLibs.
Context `{!Libs}.

(** With two healthy peers and replication factor 2, one peer is selected
    for a key: the local node is the other replica. *)
Lemma select_one_of_two (self : t) (p1 p2 : string) (key : string) :
  peer_nodes self = [p1; p2] →
  replication_factor self = 2 →
  node_health self !! p1 = Some true →
  node_health self !! p2 = Some true →
  ∃ node, _select_nodes_for_key self key = [node] ∧ (node = p1 ∨ node = p2).
Proof.
  intros Hpeers Hrf H1 H2. unfold _select_nodes_for_key.
  rewrite Hpeers, Hrf.
  rewrite filter_all by (repeat constructor; cbn; rewrite ?H1, ?H2; done).
  change (seqZ 0 (2 - 1)) with [0]. cbn [omap list_omap length].
  set (i := (Z.of_N (Py.int16 (_get_key_hash key)) + 0) `mod` Z.of_nat 2).
  assert (Hi : i = 0 ∨ i = 1).
  { pose proof (Z.mod_pos_bound (Z.of_N (Py.int16 (_get_key_hash key)) + 0) 2).
    unfold i. change (Z.of_nat 2) with 2. lia. }
  destruct Hi as [-> | ->]; cbn; eauto.
Qed.

(** One round of replication on an empty result dict records whether the
    peer acknowledged: it answered the health probe and the put with 200. *)
Lemma replicate_to_put (self : t) (net : network) (key : string)
    (value : SQLiteStorage.bytes) (node : string) :
  (replicate_to net key value "put" (∅, self) node).1
  = {[node := is_ok (health net node) && is_ok (storage_put net node key value)]}.
Proof.
  unfold replicate_to, _check_node_health.
  destruct (is_ok (health net node)); cbn; [|by rewrite insert_empty].
  destruct (storage_put net node key value); cbn; by rewrite insert_empty.
Qed.

(** [put] under a synchronous consistency level. *)
Lemma put_synchronous (self : t) (net : network) (key : string)
    (value : SQLiteStorage.bytes) :
  String.eqb (consistency_level self) "eventual" = false →
  (put self net key value).1
  = let local := SQLiteStorage.put (local_storage self) key value in
    let replication_results :=
      (_replicate_to_peers (set_local_storage self local.2) net key value "put").1 in
    local.1 && (required_success self replication_results
                <=? successful_replications replication_results).
Proof.
  intros Hlevel. unfold put.
  destruct (SQLiteStorage.put (local_storage self) key value) as [local_success ls].
  rewrite Hlevel. cbn [fst snd].
  by destruct (_replicate_to_peers _ _ _ _ _).
Qed.

End WithLibs.
End DistributedStorageFacts.

Module DistributedStorageClaims.
Import DistributedStorage DistributedStorageFacts.

(** C4. Under ["quorum"], with two configured (healthy) peers and
    replication factor 2, [put] selects one peer for the key and reports
    success exactly when the local write succeeds and that peer acknowledges:
    the threshold [len(replication_results) // 2 + 1] over the selected peers
    is 1, so two acknowledgements count, the local one and one peer's; with
    fewer peer acknowledgements than the threshold the put is reported as
    failed. *)
Theorem quorum_put_two_peers `{!Libs} (ls : SQLiteStorage.t) (p1 p2 : string)
    (net : network) (key : string) (value : SQLiteStorage.bytes) :
  let self := new ls [p1; p2] 2 "quorum" in
  let local := SQLiteStorage.put ls key value in
  let replication_results :=
    (_replicate_to_peers (set_local_storage self local.2) net key value "put").1 in
  ∃ node,
    _select_nodes_for_key self key = [node] ∧ (node = p1 ∨ node = p2) ∧
    replication_results
    = {[node := is_ok (health net node) && is_ok (storage_put net node key value)]} ∧
    required_success self replication_results = 1 ∧
    ((put self net key value).1 = true ↔
     local.1 = true ∧ 1 ≤ successful_replications replication_results) ∧
    ((put self net key value).1 = true ↔
     local.1 = true ∧
     is_ok (health net node) = true ∧ is_ok (storage_put net node key value) = true) ∧
    (successful_replications replication_results
       < required_success self replication_results →
     (put self net key value).1 = false).
Proof.
  intros self local replication_results.
  assert (Hselect : ∃ node, _select_nodes_for_key (set_local_storage self local.2) key
                            = [node] ∧ (node = p1 ∨ node = p2)).
  { apply (select_one_of_two _ p1 p2); [done | done | |];
      apply (new_node_health ls [p1; p2] 2 "quorum"); set_solver. }
  destruct Hselect as (node & Hnode & Hwhich).
  exists node.
  assert (Hresults : replication_results
                     = {[node := is_ok (health net node)
                                 && is_ok (storage_put net node key value)]}).
  { unfold replication_results, _replicate_to_peers. rewrite Hnode.
    cbn [foldl]. apply replicate_to_put. }
  assert (Hrequired : required_success self replication_results = 1).
  { rewrite Hresults. unfold required_success. cbn. by rewrite map_size_singleton. }
  assert (Hput : (put self net key value).1
                 = local.1 && (required_success self replication_results
                               <=? successful_replications replication_results)).
  { by rewrite put_synchronous. }
  split; [exact Hnode|]. split; [exact Hwhich|]. split; [exact Hresults|].
  split; [exact Hrequired|].
  rewrite Hput, Hrequired. rewrite Hresults at 1 2 3.
  rewrite successful_replications_singleton.
  split; [|split].
  - rewrite andb_true_iff, Z.leb_le. done.
  - rewrite andb_true_iff, Z.leb_le.
    destruct (is_ok (health net node)), (is_ok (storage_put net node key value));
      cbn; intuition (done || lia).
  - intros Hbelow. apply andb_false_iff. right. by apply Z.leb_gt.
Qed.

End DistributedStorageClaims.

(** ** Further properties of the Merkle tree *)

Module MerkleTreeProperties.
Import MerkleTree MerkleSpec MerkleTreeFacts.

Section WithLibs.
Context `{!Libs}.

(** The last recorded level is the final [current_level]. *)
Lemma build_levels_last (fuel : nat) (l : list string) :
  last (l :: (build_levels fuel l).1) = Some (build_levels fuel l).2.
Proof.
  revert l. induction fuel as [|fuel IH]; intros l; [done|].
  cbn [build_levels]. destruct (1 <? length l)%nat; [|done].
  specialize (IH (pair_up (pad_odd l))).
  destruct (build_levels fuel (pair_up (pad_odd l))) as [levels final].
  cbn [fst snd] in *. by rewrite last_cons, IH.
Qed.

(** An odd level and the level with its last node doubled have the same
    parents. *)
Lemma pad_odd_doubled (l : list string) (x : string) :
  Nat.even (length l) = true →
  pad_odd (l ++ [x]) = l ++ [x; x] ∧ pad_odd (l ++ [x; x]) = l ++ [x; x].
Proof.
  intros Heven. unfold pad_odd. rewrite !length_app. cbn [length].
  replace (length l + 1)%nat with (S (length l)) by lia.
  replace (length l + 2)%nat with (S (S (length l))) by lia.
  rewrite Nat.odd_succ, Heven. rewrite Nat.odd_succ, Nat.even_succ.
  rewrite <- Nat.negb_even, Heven. cbn [negb].
  rewrite last_snoc. by rewrite <- app_assoc.
Qed.

End WithLibs.

(** X1. When the number of transactions is a power of two, at least 2, the
    path that [get_merkle_path] gives for an index verifies the transaction
    at that index against the root. *)
Theorem merkle_round_trip_power_of_two `{!Libs} (transactions : list string)
    (k i : nat) (tx : string) :
  length transactions = (2 ^ S k)%nat →
  transactions !! i = Some tx →
  verify_transaction (new transactions) tx i (get_merkle_path (new transactions) i)
  = true.
Proof. apply round_trip_full_tree. Qed.

Lemma merkle_round_trip_power_of_two_witness :
  verify_transaction (H := python) (new (H := python) ["a"; "b"; "c"; "d"]) "c" 2
    (get_merkle_path (new (H := python) ["a"; "b"; "c"; "d"]) 2) = true.
Proof.
  apply (merkle_round_trip_power_of_two (H := python) ["a"; "b"; "c"; "d"] 1 2 "c");
    reflexivity.
Defined.

(** X2. The tree of an empty list has no root and no level. The tree of a
    non-empty list has a root: the loop ends with one node, which is the only
    node of the last recorded level, and the first level holds the hashes of
    the transactions. *)
Theorem merkle_root_of_tree `{!Libs} (transactions : list string) :
  (root (new transactions) = None ↔ transactions = []) ∧
  (transactions = [] → tree_levels (new transactions) = []) ∧
  (transactions ≠ [] →
   ∃ r, root (new transactions) = Some r ∧
        last (tree_levels (new transactions)) = Some [r] ∧
        head (tree_levels (new transactions)) = Some (map _hash_data transactions)).
Proof.
  assert (Hroot : transactions ≠ [] →
    ∃ r, root (new transactions) = Some r ∧
         last (tree_levels (new transactions)) = Some [r] ∧
         head (tree_levels (new transactions)) = Some (map _hash_data transactions)).
  { intros Hne. destruct transactions as [|tx rest]; [done|].
    unfold new.
    pose proof (build_levels_final (length (map _hash_data (tx :: rest)))
                  (map _hash_data (tx :: rest))) as Hfinal.
    pose proof (build_levels_last (length (map _hash_data (tx :: rest)))
                  (map _hash_data (tx :: rest))) as Hlast.
    destruct (build_levels _ _) as [levels final]. cbn [fst snd root tree_levels] in *.
    specialize (Hfinal ltac:(cbn; lia)).
    destruct final as [|r [|? ?]]; try done.
    exists r. by rewrite Hlast. }
  split; [|split; [by intros ->|exact Hroot]].
  split.
  - intros Hnone. destruct transactions as [|tx rest]; [done|].
    destruct (Hroot ltac:(done)) as (r & Hr & _). by rewrite Hr in Hnone.
  - by intros ->.
Qed.

Lemma merkle_root_of_tree_witness :
  ∃ r, root (new (H := python) ["a"; "b"; "c"]) = Some r ∧
       last (tree_levels (new (H := python) ["a"; "b"; "c"])) = Some [r] ∧
       head (tree_levels (new (H := python) ["a"; "b"; "c"]))
       = Some (map (_hash_data (H := python)) ["a"; "b"; "c"]).
Proof.
  apply (proj2 (proj2 (merkle_root_of_tree (H := python) ["a"; "b"; "c"]))).
  discriminate.
Defined.

(** X3. A list of odd length, at least 3, and the list with its last
    transaction repeated once more have the same Merkle root: the odd level is
    padded with a copy of its last node. *)
Theorem merkle_root_of_repeated_last `{!Libs} (transactions : list string)
    (tx : string) :
  transactions ≠ [] →
  Nat.even (length transactions) = true →
  root (new (transactions ++ [tx; tx])) = root (new (transactions ++ [tx])).
Proof.
  intros Hne Heven.
  assert (Hlen : (2 ≤ length transactions)%nat).
  { destruct transactions as [|a [|b rest]]; cbn in *; try done; lia. }
  unfold new.
  destruct (transactions ++ [tx; tx]) as [|a1 r1] eqn:H1;
    [by apply app_eq_nil in H1 as [_ ?]|].
  destruct (transactions ++ [tx]) as [|a2 r2] eqn:H2;
    [by apply app_eq_nil in H2 as [_ ?]|].
  rewrite <- H1, <- H2. clear a1 r1 a2 r2 H1 H2.
  rewrite !map_app. cbn [map].
  set (l := map _hash_data transactions).
  set (x := _hash_data tx).
  assert (Hl : Nat.even (length l) = true) by (unfold l; by rewrite length_map).
  assert (Hll : (2 ≤ length l)%nat) by (unfold l; by rewrite length_map).
  destruct (pad_odd_doubled l x Hl) as [Hodd Hfull].
  assert (Hstep : ∀ l' n, (2 ≤ length l')%nat →
    (build_levels (S n) l').2 = (build_levels n (pair_up (pad_odd l'))).2).
  { intros l' n Hl'. cbn [build_levels].
    replace (1 <? length l')%nat with true by (symmetry; apply Nat.ltb_lt; lia).
    by destruct (build_levels n (pair_up (pad_odd l'))). }
  assert (Hfinal : (build_levels (length (l ++ [x; x])) (l ++ [x; x])).2
                   = (build_levels (length (l ++ [x])) (l ++ [x])).2).
  { rewrite (build_levels_fuel (length (l ++ [x])) (length (l ++ [x; x])) (l ++ [x]))
      by (rewrite !length_app; cbn; lia).
    rewrite !length_app. cbn [length].
    replace (length l + 2)%nat with (S (S (length l))) by lia.
    rewrite (Hstep (l ++ [x; x])), (Hstep (l ++ [x]))
      by (rewrite length_app; cbn; lia).
    by rewrite Hodd, Hfull. }
  destruct (build_levels (length (l ++ [x; x])) (l ++ [x; x])) as [levels1 final1].
  destruct (build_levels (length (l ++ [x])) (l ++ [x])) as [levels2 final2].
  cbn [snd root] in *. by rewrite Hfinal.
Qed.

Lemma merkle_root_of_repeated_last_witness :
  root (new (H := python) (["a"; "b"] ++ ["c"; "c"]))
  = root (new (H := python) (["a"; "b"] ++ ["c"])).
Proof.
  apply (merkle_root_of_repeated_last (H := python) ["a"; "b"] "c"); [discriminate | reflexivity].
Defined.

End MerkleTreeProperties.

(** ** Further properties of the ledger core *)

Module LedgerFacts.
Import Blockchain BlockchainFacts.

(** *** Sums of balances *)

Lemma Qplus_swap (a b c : Q) : (a + (b + c))%Q = (b + (a + c))%Q.
Proof.
  destruct a as [an ad], b as [bn bd], c as [cn cd].
  unfold Qplus. cbn [Qnum Qden]. f_equal.
  - rewrite !Pos2Z.inj_mul. ring.
  - by rewrite !Pos.mul_assoc, (Pos.mul_comm ad bd).
Qed.

Lemma total_insert (balances : gmap string Q) (address : string) (balance : Q) :
  (BalanceSpec.total (<[address := balance]> balances)
   == BalanceSpec.total balances - default 0 (balances !! address) + balance)%Q.
Proof.
  unfold BalanceSpec.total.
  destruct (balances !! address) as [old|] eqn:Hold; cbn [default].
  - rewrite (map_fold_delete_L _ _ address old balances);
      [|intros; apply Qplus_swap | done].
    rewrite <- (insert_delete_eq balances).
    rewrite map_fold_insert_L;
      [|intros; apply Qplus_swap | apply lookup_delete_eq].
    unfold id. ring.
  - rewrite map_fold_insert_L; [|intros; apply Qplus_swap | done]. ring.
Qed.

Lemma total_update_balance (balances : gmap string Q) (transaction : Transaction.t) :
  (BalanceSpec.total (update_balance balances transaction)
   == BalanceSpec.total balances + BalanceSpec.minted [transaction])%Q.
Proof.
  unfold update_balance, BalanceSpec.minted. cbn [foldr].
  destruct (Py.truthy (Transaction.sender transaction)).
  - rewrite !total_insert.
    destruct (decide (Transaction.sender transaction = Transaction.receiver transaction))
      as [Heq|Hne].
    + rewrite Heq, lookup_insert_eq. cbn [default]. unfold id. ring.
    + rewrite lookup_insert_ne by done. ring.
  - rewrite total_insert. ring.
Qed.

Lemma minted_cons (transaction : Transaction.t) (rest : list Transaction.t) :
  (BalanceSpec.minted (transaction :: rest)
   == BalanceSpec.minted [transaction] + BalanceSpec.minted rest)%Q.
Proof.
  unfold BalanceSpec.minted. cbn [foldr].
  destruct (Py.truthy (Transaction.sender transaction)); ring.
Qed.

Lemma minted_app (l1 l2 : list Transaction.t) :
  (BalanceSpec.minted (l1 ++ l2) == BalanceSpec.minted l1 + BalanceSpec.minted l2)%Q.
Proof.
  induction l1 as [|tx l1 IH].
  { cbn [app]. change (BalanceSpec.minted []) with 0%Q. ring. }
  cbn [app]. rewrite (minted_cons tx (l1 ++ l2)), (minted_cons tx l1), IH. ring.
Qed.

(** *** The result of the nonce search and of mining *)

Section WithLibs.
Context `{!Libs}.

Lemma nonce_search_Some (fuel : nat) (target : string) (block new_block : Block.t) :
  Block.nonce_search fuel target block = Some new_block →
  Py.startswith (Block.hash new_block) target = true ∧
  BlockSpec.same_content new_block block.
Proof.
  revert block. induction fuel as [|fuel IH]; intros block; cbn [Block.nonce_search].
  - destruct (Py.startswith (Block.hash block) target) eqn:Hhit; [|done].
    intros [= <-]. by repeat split.
  - destruct (Py.startswith (Block.hash block) target) eqn:Hhit.
    + intros [= <-]. by repeat split.
    + intros Hsearch. destruct (IH _ Hsearch) as [Hgood Hsame].
      split; [done|].
      destruct Hsame as (? & ? & ? & ? & ? & ? & ? & ?). by repeat split.
Qed.

Lemma mine_pending_transactions_Some (fuel : nat) (self self' : t) (address : string)
    (env : mine_env) (new_block : Block.t) :
  mine_pending_transactions fuel self address env = Some (Some new_block, self') →
  pending_transactions self ≠ [] ∧
  _mine_block fuel self (candidate_block self address env) = Some new_block ∧
  (StorageManager.store_block (storage_manager self) new_block).1 = true ∧
  self' = _save_to_storage
            (set_pending_transactions
               (_update_balances_from_block
                  (set_storage_manager self
                     (StorageManager.store_block (storage_manager self) new_block).2)
                  new_block) [])
            (save_time env).
Proof.
  unfold mine_pending_transactions.
  destruct (pending_transactions self) as [|tx rest] eqn:Hpending; [done|].
  destruct (_mine_block fuel self (candidate_block self address env))
    as [mined|] eqn:Hmined; [|done].
  destruct (StorageManager.store_block (storage_manager self) mined)
    as [[|] sm] eqn:Hstore; [|done].
  intros [= <- <-]. rewrite Hstore. done.
Qed.

Lemma mined_block_content (fuel : nat) (self : t) (address : string)
    (env : mine_env) (new_block : Block.t) :
  _mine_block fuel self (candidate_block self address env) = Some new_block →
  BlockSpec.same_content new_block (candidate_block self address env) ∧
  Py.startswith (Block.hash new_block) (Py.str_mul "0" (difficulty self)) = true.
Proof.
  unfold _mine_block. intros Hsearch.
  by destruct (nonce_search_Some _ _ _ _ Hsearch).
Qed.

(** A transaction without a sender is not valid. *)
Lemma is_valid_needs_sender (transaction : Transaction.t) :
  Transaction.sender transaction = "" → Transaction.is_valid transaction = false.
Proof.
  intros Hsender. unfold Transaction.is_valid. rewrite Hsender.
  destruct (Py.le _ _); [done|]. by destruct (Py.lt _ _).
Qed.

End WithLibs.
End LedgerFacts.

Module HeightFacts.

Lemma foldr_max_elem (h : Z) (hs : list Z) : foldr Z.max h hs ∈ h :: hs.
Proof.
  induction hs as [|h' hs IH]; cbn [foldr]; [set_solver|].
  destruct (Z.max_spec h' (foldr Z.max h hs)) as [[_ ->]|[_ ->]]; set_solver.
Qed.

(** [get_latest_block_height] is -1 on an empty index and otherwise the
    greatest height of the index. *)
Lemma latest_height_spec (ls : SQLiteStorage.t) :
  (SQLiteStorage.block_height_index ls = ∅ ∧
   SQLiteStorage.get_latest_block_height ls = -1) ∨
  (is_Some (SQLiteStorage.block_height_index ls
              !! SQLiteStorage.get_latest_block_height ls) ∧
   ∀ height block_hash,
     SQLiteStorage.block_height_index ls !! height = Some block_hash →
     height ≤ SQLiteStorage.get_latest_block_height ls).
Proof.
  destruct (map_to_list (SQLiteStorage.block_height_index ls)) as [|[h v] rest] eqn:Hlist.
  - left. apply map_to_list_empty_iff in Hlist. split; [done|].
    unfold SQLiteStorage.get_latest_block_height. by rewrite Hlist, map_to_list_empty.
  - right. split; [|apply ExportFacts.latest_block_height_ge].
    unfold SQLiteStorage.get_latest_block_height. rewrite Hlist. cbn [fmap list_fmap fst].
    pose proof (foldr_max_elem h (rest.*1)) as Hin.
    change (h :: rest.*1) with (((h, v) :: rest).*1) in Hin. rewrite <- Hlist in Hin.
    apply list_elem_of_fmap in Hin as ([k w] & Hk & Hin). cbn in Hk.
    apply elem_of_map_to_list in Hin. rewrite Hk. by eexists.
Qed.

Lemma latest_height_insert_above (ls ls' : SQLiteStorage.t) (height : Z)
    (block_hash : string) :
  SQLiteStorage.block_height_index ls'
  = <[height := block_hash]> (SQLiteStorage.block_height_index ls) →
  SQLiteStorage.get_latest_block_height ls ≤ height →
  SQLiteStorage.get_latest_block_height ls' = height.
Proof.
  intros Hindex Habove.
  destruct (latest_height_spec ls') as [[Hempty _]|[[v Hkey] Hmax]].
  { rewrite Hindex in Hempty. by apply insert_non_empty in Hempty. }
  pose proof (Hmax height block_hash) as Hle.
  rewrite Hindex, lookup_insert_eq in Hle. specialize (Hle eq_refl).
  rewrite Hindex in Hkey.
  apply lookup_insert_Some in Hkey as [[Heq _]|[_ Hold]]; [done|].
  apply ExportFacts.latest_block_height_ge in Hold. lia.
Qed.

End HeightFacts.

Module LedgerProperties.
Import Blockchain BlockchainFacts LedgerFacts.

(** X7. [is_chain_valid] returns [True] exactly when the storage holds no
    height above 0: the first round of its loop ends in [return False] or in
    the [AttributeError] of [calculate_hash], which [except] turns into
    [False]. *)
Theorem is_chain_valid_only_at_genesis `{!Libs} (self : t) :
  is_chain_valid self = true ↔
  StorageManager.get_latest_block_height (storage_manager self) < 1.
Proof. apply ChainValidity.is_chain_valid_iff. Qed.



(** X9. [add_transaction] checks a transfer against the stored balance of
    its sender and not against what is already pending: two transactions that
    each pass [validate_transaction] on a chain are both admitted, one after
    the other, whatever they spend together. *)
Theorem pending_spends_not_counted `{!Libs} (self : t) (tx1 tx2 : Transaction.t) :
  validate_transaction self tx1 = true →
  validate_transaction self tx2 = true →
  let first := add_transaction self tx1 in
  let second := add_transaction first.2 tx2 in
  first.1 = true ∧ second.1 = true ∧
  pending_transactions second.2 = pending_transactions self ++ [tx1; tx2] ∧
  storage_manager second.2 = storage_manager self.
Proof.
  intros Hfirst Hsecond.
  assert (Hadd1 : add_transaction self tx1
                  = (true, set_pending_transactions self (pending_transactions self ++ [tx1])))
    by (unfold add_transaction; by rewrite Hfirst).
  assert (Hadd2 : add_transaction
                    (set_pending_transactions self (pending_transactions self ++ [tx1])) tx2
                  = (true, set_pending_transactions
                             (set_pending_transactions self (pending_transactions self ++ [tx1]))
                             ((pending_transactions self ++ [tx1]) ++ [tx2]))).
  { unfold add_transaction.
    change (validate_transaction (set_pending_transactions self _) tx2)
      with (validate_transaction self tx2).
    by rewrite Hsecond. }
  cbn zeta. rewrite Hadd1. cbn [fst snd]. rewrite Hadd2. cbn.
  by rewrite <- app_assoc.
Qed.

Lemma pending_spends_not_counted_witness :
  (add_transaction (H := python) Scenario.chain0 Scenario.tx_carol1).1 = true ∧
  (add_transaction (H := python)
     (add_transaction (H := python) Scenario.chain0 Scenario.tx_carol1).2
     Scenario.tx_carol2).1 = true ∧
  pending_transactions
    (add_transaction (H := python)
       (add_transaction (H := python) Scenario.chain0 Scenario.tx_carol1).2
       Scenario.tx_carol2).2
  = pending_transactions Scenario.chain0 ++ [Scenario.tx_carol1; Scenario.tx_carol2] ∧
  storage_manager
    (add_transaction (H := python)
       (add_transaction (H := python) Scenario.chain0 Scenario.tx_carol1).2
       Scenario.tx_carol2).2
  = storage_manager Scenario.chain0.
Proof.
  apply (pending_spends_not_counted (H := python) Scenario.chain0
           Scenario.tx_carol1 Scenario.tx_carol2).
  - vm_compute. reflexivity.
  - vm_compute. reflexivity.
Defined.

(** X10. No block that [mine_pending_transactions] returns passes
    [Block.is_valid]: its last transaction is the reward, which has no sender,
    and a transaction without a sender is not valid. *)
Theorem mined_block_fails_is_valid `{!Libs} (fuel : nat) (self self' : t)
    (address : string) (env : mine_env) (new_block : Block.t) :
  mine_pending_transactions fuel self address env = Some (Some new_block, self') →
  Block.is_valid new_block = false.
Proof.
  intros Hmined.
  destruct (mine_pending_transactions_Some _ _ _ _ _ _ Hmined) as (_ & Hsearch & _).
  destruct (mined_block_content _ _ _ _ _ Hsearch) as [(_ & _ & Htxs & _) _].
  unfold Block.is_valid.
  destruct (negb (String.eqb _ _)); [done|].
  destruct (negb (Py.startswith _ _)); [done|].
  rewrite Htxs, candidate_transactions, forallb_app. cbn [forallb].
  rewrite (is_valid_needs_sender (Transaction.new "" _ _ _ _ _ _)) by reflexivity.
  by rewrite andb_false_r.
Qed.

Lemma mined_block_fails_is_valid_witness :
  Block.is_valid (H := python) Scenario.block1 = false.
Proof.
  apply (mined_block_fails_is_valid (H := python) 64 Scenario.chain1 Scenario.chain2
           "miner" Scenario.env1 Scenario.block1).
  vm_compute. reflexivity.
Defined.


End LedgerProperties.

Module BlockRoundTrip.

Section WithLibs.
Context `{!Libs}.

(** The dict of a block gives the block back when its Merkle tree is the
    tree of its transactions, as it is for a block that the constructor has
    built, also after a nonce search. *)
Lemma from_dict_to_dict (block : Block.t) :
  Block.merkle_tree block
  = MerkleTree.new (map Transaction.to_json (Block.transactions block)) →
  Block.from_dict (Block.to_dict block) = block.
Proof.
  destruct block as [index timestamp transactions previous_hash miner_address
                     merkle_tree merkle_root nonce difficulty hash].
  cbn. by intros ->.
Qed.

Lemma same_content_merkle_tree (block candidate : Block.t) :
  BlockSpec.same_content block candidate →
  Block.merkle_tree candidate
  = MerkleTree.new (map Transaction.to_json (Block.transactions candidate)) →
  Block.merkle_tree block
  = MerkleTree.new (map Transaction.to_json (Block.transactions block)).
Proof. intros (_ & _ & -> & _ & _ & -> & _) Htree. exact Htree. Qed.

(** What the storage returns for a block that [store_block] has accepted. *)
Lemma stored_block_found (sm : StorageManager.t) (block : Block.t) :
  SQLiteStorage.blocks (StorageManager.local_storage sm) !! Block.hash block
  = Some (Block.to_dict block, Block.index block) →
  SQLiteStorage.block_height_index (StorageManager.local_storage sm) !! Block.index block
  = Some (Block.hash block) →
  Block.hash block ≠ "" →
  Block.merkle_tree block
  = MerkleTree.new (map Transaction.to_json (Block.transactions block)) →
  StorageManager.get_block_by_hash sm (Block.hash block) = Some block ∧
  StorageManager.get_block_by_height sm (Block.index block) = Some block.
Proof.
  intros Hrow Hindex Hhash Htree.
  assert (Hfound : StorageManager.get_block_by_hash sm (Block.hash block) = Some block).
  { unfold StorageManager.get_block_by_hash, SQLiteStorage.get_block.
    rewrite Hrow. cbn. by rewrite from_dict_to_dict. }
  split; [done|].
  unfold StorageManager.get_block_by_height, SQLiteStorage.get_block_hash_by_height.
  rewrite Hindex.
  replace (Py.truthy (Block.hash block)) with true; [done|].
  unfold Py.truthy. symmetry. apply negb_true_iff. by apply String.eqb_neq.
Qed.

End WithLibs.
End BlockRoundTrip.

Module ChainGrowth.
Import Blockchain BlockchainFacts LedgerFacts.

Section WithLibs.
Context `{!Libs}.

Lemma candidate_on_latest (self : t) (address : string) (env : mine_env)
    (latest_block : Block.t) :
  get_latest_block self = Some latest_block →
  Block.index (candidate_block self address env) = Block.index latest_block + 1 ∧
  Block.previous_hash (candidate_block self address env) = Block.hash latest_block.
Proof. intros Hlatest. unfold candidate_block. by rewrite Hlatest. Qed.

Lemma candidate_merkle_tree (self : t) (address : string) (env : mine_env) :
  Block.merkle_tree (candidate_block self address env)
  = MerkleTree.new (map Transaction.to_json
                        (Block.transactions (candidate_block self address env))).
Proof. reflexivity. Qed.

End WithLibs.

(** X12. When the latest block sits at the latest height, a successful
    [mine_pending_transactions] appends to the chain: the new block has the
    next index and names the hash of the latest block, the latest height
    grows by one, and the new block is then the latest block (its hash is
    not empty). *)
Theorem mining_extends_chain `{!Libs} (fuel : nat) (self self' : t) (address : string)
    (env : mine_env) (new_block latest_block : Block.t) :
  mine_pending_transactions fuel self address env = Some (Some new_block, self') →
  get_latest_block self = Some latest_block →
  Block.index latest_block = StorageManager.get_latest_block_height (storage_manager self) →
  Block.hash new_block ≠ "" →
  Block.index new_block
  = StorageManager.get_latest_block_height (storage_manager self) + 1 ∧
  Block.previous_hash new_block = Block.hash latest_block ∧
  StorageManager.get_latest_block_height (storage_manager self')
  = StorageManager.get_latest_block_height (storage_manager self) + 1 ∧
  get_latest_block self' = Some new_block.
Proof.
  intros Hmined Hlatest Htip Hhash.
  destruct (mine_pending_transactions_Some _ _ _ _ _ _ Hmined)
    as (_ & Hsearch & Hstored & ->).
  destruct (mined_block_content _ _ _ _ _ Hsearch) as [Hsame _].
  destruct (candidate_on_latest self address env latest_block Hlatest) as [Hindex Hprev].
  pose proof (BlockRoundTrip.same_content_merkle_tree _ _ Hsame
                (candidate_merkle_tree self address env)) as Htree.
  destruct Hsame as (Hi & _ & _ & Hp & _).
  rewrite Hindex in Hi. rewrite Hprev in Hp. rewrite Htip in Hi.
  destruct (_save_to_storage_keeps
              (set_pending_transactions
                 (_update_balances_from_block
                    (set_storage_manager self
                       (StorageManager.store_block (storage_manager self) new_block).2)
                    new_block) [])
              (save_time env)) as (_ & _ & _ & _ & Hblocks & Hheights).
  cbn zeta in Hblocks, Hheights. cbn [storage_manager set_pending_transactions
    _update_balances_from_block set_balances set_storage_manager] in Hblocks, Hheights.
  destruct (StorageFacts.store_block_stored (storage_manager self) new_block Hstored)
    as (Hb & Hh & _).
  cbn zeta in Hb, Hh. rewrite Hb in Hblocks. rewrite Hh in Hheights.
  set (self' := _save_to_storage _ _) in *.
  assert (Hheight : StorageManager.get_latest_block_height (storage_manager self')
                    = StorageManager.get_latest_block_height (storage_manager self) + 1).
  { unfold StorageManager.get_latest_block_height at 1.
    rewrite (HeightFacts.latest_height_insert_above
               (StorageManager.local_storage (storage_manager self)) _
               (Block.index new_block) (Block.hash new_block) Hheights);
      [done|]. rewrite Hi. unfold StorageManager.get_latest_block_height. lia. }
  split; [done|]. split; [done|]. split; [done|].
  assert (Hpos : 0 ≤ StorageManager.get_latest_block_height (storage_manager self)).
  { unfold get_latest_block in Hlatest.
    destruct (0 <=? _) eqn:Hle; [by apply Z.leb_le in Hle | done]. }
  unfold get_latest_block. rewrite Hheight.
  replace (0 <=? _ + 1) with true by (symmetry; apply Z.leb_le; lia).
  rewrite <- Hi.
  apply (BlockRoundTrip.stored_block_found (storage_manager self') new_block); try done.
  - rewrite Hblocks. apply lookup_insert_eq.
  - rewrite Hheights. apply lookup_insert_eq.
Qed.

Lemma mining_extends_chain_witness :
  Block.index Scenario.block1
  = StorageManager.get_latest_block_height (storage_manager Scenario.chain1) + 1 ∧
  Block.previous_hash Scenario.block1
  = Block.hash (Block.with_nonce (H := python) (Block.new (H := python) 0 [] "0" "" 1700000011) 0) ∧
  StorageManager.get_latest_block_height (storage_manager Scenario.chain2)
  = StorageManager.get_latest_block_height (storage_manager Scenario.chain1) + 1 ∧
  get_latest_block (H := python) Scenario.chain2 = Some Scenario.block1.
Proof.
  apply (mining_extends_chain (H := python) 64 Scenario.chain1 Scenario.chain2 "miner"
           Scenario.env1 Scenario.block1
           (Block.with_nonce (H := python) (Block.new (H := python) 0 [] "0" "" 1700000011) 0)).
  - vm_compute. reflexivity.
  - vm_compute. reflexivity.
  - vm_compute. reflexivity.
  - vm_compute. discriminate.
Defined.

End ChainGrowth.

Module Persistence.
Import Blockchain BlockchainFacts.

Lemma store_blockchain_metadata_quiet (sm : StorageManager.t) (metadata : Metadata.t) :
  ExportSpec.quiet sm →
  let sm' := (StorageManager.store_blockchain_metadata sm metadata).2 in
  ExportSpec.quiet sm' ∧
  SQLiteStorage.get (StorageManager.local_storage sm') "blockchain:metadata"
  = Some (SQLiteStorage.MetadataJson metadata) ∧
  SQLiteStorage.account_balances (StorageManager.local_storage sm')
  = SQLiteStorage.account_balances (StorageManager.local_storage sm).
Proof.
  unfold ExportSpec.quiet, StorageManager.store_blockchain_metadata, SQLiteStorage.put.
  intros Hquiet. rewrite StorageFacts.write_no_faults by done. cbn.
  split; [done|]. split; [|done].
  unfold SQLiteStorage.get. cbn. apply lookup_insert_eq.
Qed.

Lemma store_balances_key_value (sm : StorageManager.t) (balances : gmap string Q) :
  SQLiteStorage.key_value
    (StorageManager.local_storage (StorageManager.store_balances sm balances).2)
  = SQLiteStorage.key_value (StorageManager.local_storage sm).
Proof.
  unfold StorageManager.store_balances.
  generalize (map_to_list balances) O (StorageManager.local_storage sm).
  intros items. induction items as [|[address balance] items IH]; intros n ls; [done|].
  cbn [foldl]. cbn [fst snd].
  destruct (SQLiteStorage.store_account_balance ls address balance) as [ok ls1] eqn:Hstore.
  specialize (IH (if ok then S n else n) ls1).
  destruct (foldl _ _ items) as [count ls2]. cbn in *. rewrite IH.
  unfold SQLiteStorage.store_account_balance, SQLiteStorage.write in Hstore.
  StorageFacts.write_cases ls; injection Hstore as <- <-; done.
Qed.

(** [close]: [_save_to_storage], then the connection is closed. *)
Lemma saved_balance (self : t) (now : Q) (address : string) (balance : Q) :
  ExportSpec.quiet (storage_manager self) →
  balances self !! address = Some balance →
  get_balance (_save_to_storage self now) address = balance.
Proof.
  intros Hquiet Hbalance. unfold get_balance, _save_to_storage. cbn [storage_manager
    set_storage_manager].
  destruct (store_blockchain_metadata_quiet (storage_manager self)
              (Metadata.Build (Some (difficulty self)) (Some (mining_reward self))
                              (Some now) None) Hquiet) as (Hquiet1 & _ & _).
  unfold StorageManager.get_balance, SQLiteStorage.get_account_balance.
  rewrite ExportFacts.store_balances_quiet by done. by rewrite Hbalance.
Qed.





End Persistence.

Module ChainQueries.
Import Blockchain.

Section WithLibs.
Context `{!Libs}.

Lemma find_transaction_Some (blocks : list Block.t) (id : string)
    (tx : Transaction.t) (idx : Z) :
  find_transaction blocks id = Some (tx, idx) →
  ∃ block, block ∈ blocks ∧ Block.index block = idx ∧
           tx ∈ Block.transactions block ∧ Transaction.transaction_id tx = id.
Proof.
  induction blocks as [|block blocks IH]; [done|]. cbn [find_transaction].
  destruct (Block.get_transaction_by_id block id) as [found|] eqn:Hfound.
  - intros [= -> <-]. exists block. split; [set_solver|]. split; [done|].
    unfold Block.get_transaction_by_id in Hfound.
    apply fmap_Some in Hfound as ([i tx'] & Hfind & ->).
    apply list_find_Some in Hfind as (Hlookup & Hid & _).
    split; [by eapply list_elem_of_lookup_2 | done].
  - intros (b & Hin & Hrest)%IH. exists b. split; [set_solver | done].
Qed.

Lemma find_transaction_None (blocks : list Block.t) (id : string) :
  find_transaction blocks id = None ↔
  ∀ block tx, block ∈ blocks → tx ∈ Block.transactions block →
              Transaction.transaction_id tx ≠ id.
Proof.
  induction blocks as [|block blocks IH]; cbn [find_transaction].
  { split; [|done]. by intros _ block tx ?%elem_of_nil. }
  destruct (Block.get_transaction_by_id block id) as [found|] eqn:Hfound.
  - split; [done|]. intros Hnone.
    unfold Block.get_transaction_by_id in Hfound.
    apply fmap_Some in Hfound as ([i tx'] & Hfind & ->).
    apply list_find_Some in Hfind as (Hlookup & Hid & _).
    destruct (Hnone block tx'); [set_solver | by eapply list_elem_of_lookup_2 | done].
  - rewrite IH. unfold Block.get_transaction_by_id in Hfound.
    apply fmap_None in Hfound.
    rewrite (list_find_None (λ tx, Transaction.transaction_id tx = id)) in Hfound.
    rewrite Forall_forall in Hfound. split.
    + intros Hrest b tx [->|Hin]%elem_of_cons Htx; [by apply Hfound | by eapply Hrest].
    + intros Hall b tx Hin. apply Hall. set_solver.
Qed.

End WithLibs.

(** X30. The [chain] property lists the blocks that the storage returns
    for the heights from 0 to the latest. [get_transactions_by_address]
    returns exactly the transactions of these blocks that name the address as
    sender or receiver, each with the index of its block;
    [get_transaction_by_id] returns a transaction of one of these blocks with
    that identifier, and [None] exactly when none of them holds one. *)
Theorem chain_queries_cover_the_chain `{!Libs} (self : t) :
  (∀ block, block ∈ chain self ↔
     ∃ height,
       0 ≤ height ≤ StorageManager.get_latest_block_height (storage_manager self) ∧
       StorageManager.get_block_by_height (storage_manager self) height = Some block) ∧
  (∀ address tx idx,
     (tx, idx) ∈ get_transactions_by_address self address ↔
     ∃ block, block ∈ chain self ∧ Block.index block = idx ∧
              tx ∈ Block.transactions block ∧
              (Transaction.sender tx = address ∨ Transaction.receiver tx = address)) ∧
  (∀ id tx idx,
     get_transaction_by_id self id = Some (tx, idx) →
     ∃ block, block ∈ chain self ∧ Block.index block = idx ∧
              tx ∈ Block.transactions block ∧ Transaction.transaction_id tx = id) ∧
  (∀ id, get_transaction_by_id self id = None ↔
         ∀ block tx, block ∈ chain self → tx ∈ Block.transactions block →
                     Transaction.transaction_id tx ≠ id).
Proof.
  split; [|split; [|split]].
  - intros block. unfold chain. rewrite list_elem_of_omap. split.
    + intros (height & Hin & Hblock). apply elem_of_seqZ in Hin.
      exists height. split; [lia | done].
    + intros (height & Hrange & Hblock). exists height.
      split; [apply elem_of_seqZ; lia | done].
  - intros address tx idx. unfold get_transactions_by_address.
    rewrite list_elem_of_bind. split.
    + intros (block & Hin & Hblock).
      apply list_elem_of_fmap in Hin as (tx' & [= -> ->] & Hin).
      apply list_elem_of_filter in Hin as [Haddr Hin].
      exists block. done.
    + intros (block & Hblock & <- & Hin & Haddr). exists block. split; [|done].
      apply list_elem_of_fmap. exists tx. split; [done|].
      by apply list_elem_of_filter.
  - intros id tx idx. apply find_transaction_Some.
  - intros id. apply find_transaction_None.
Qed.

End ChainQueries.

(** ** The order of the transaction pool *)

Module TransactionPoolOrder.
Import TransactionPool PoolSpec PyFacts TransactionPoolFacts.

Lemma lt_true (x y : Q) : Py.lt x y = true → (x <= y)%Q.
Proof.
  unfold Py.lt. intros Hlt. apply negb_true_iff in Hlt.
  destruct (Qlt_le_dec x y) as [?|Hle]; [by apply Qlt_le_weak|].
  apply Qle_bool_iff in Hle. congruence.
Qed.

Lemma lt_false (x y : Q) : Py.lt x y = false → (y <= x)%Q.
Proof.
  unfold Py.lt. intros Hlt. apply negb_false_iff in Hlt. by apply Qle_bool_iff.
Qed.

(** The insertion of the stable sort keeps a list ordered. *)
Lemma insert_desc_sorted (x : Transaction.t) (l : list Transaction.t) :
  StronglySorted by_fee_desc l →
  StronglySorted by_fee_desc (Py.insert_desc Transaction.fee x l).
Proof.
  induction 1 as [|y l Hsorted IH Hall]; cbn [Py.insert_desc].
  { repeat constructor. }
  destruct (Py.lt (Transaction.fee x) (Transaction.fee y)) eqn:Hlt.
  - constructor; [done|].
    rewrite (insert_desc_perm Transaction.fee x l). constructor; [|done].
    by apply lt_true.
  - apply lt_false in Hlt. constructor; [by constructor|].
    constructor; [done|].
    eapply Forall_impl; [exact Hall|]. intros z Hz. unfold by_fee_desc in *.
    by eapply Qle_trans.
Qed.

(** [min] returns an element with the least key. *)
Lemma min_from_le (best : Transaction.t) (l : list Transaction.t) :
  (Transaction.fee (Py.min_from Transaction.fee best l) <= Transaction.fee best)%Q ∧
  ∀ x, x ∈ l →
    (Transaction.fee (Py.min_from Transaction.fee best l) <= Transaction.fee x)%Q.
Proof.
  revert best. induction l as [|y l IH]; intros best; cbn [Py.min_from].
  { split; [apply Qle_refl|]. by intros x ?%elem_of_nil. }
  destruct (IH (if Py.lt (Transaction.fee y) (Transaction.fee best) then y else best))
    as [Hbest Hrest].
  destruct (Py.lt (Transaction.fee y) (Transaction.fee best)) eqn:Hlt.
  - apply lt_true in Hlt. split; [by eapply Qle_trans|].
    intros x [->|Hx]%elem_of_cons; [done | by apply Hrest].
  - apply lt_false in Hlt. split; [done|].
    intros x [->|Hx]%elem_of_cons; [by eapply Qle_trans | by apply Hrest].
Qed.

Lemma min_by_le (l : list Transaction.t) (lowest other : Transaction.t) :
  Py.min_by Transaction.fee l = Some lowest → other ∈ l →
  (Transaction.fee lowest <= Transaction.fee other)%Q.
Proof.
  destruct l as [|x l]; [done|]. cbn [Py.min_by]. intros [= <-].
  destruct (min_from_le x l) as [Hbest Hrest].
  intros [->|Hin]%elem_of_cons; [done | by apply Hrest].
Qed.

Lemma sort_desc_sorted (l : list Transaction.t) :
  StronglySorted by_fee_desc (Py.sort_desc Transaction.fee l).
Proof.
  induction l as [|x l IH]; [constructor|]. by apply insert_desc_sorted.
Qed.

Lemma sublist_sorted (l1 l2 : list Transaction.t) :
  l1 `sublist_of` l2 → StronglySorted by_fee_desc l2 → StronglySorted by_fee_desc l1.
Proof.
  induction 1 as [|x l1 l2 Hsub IH|x l1 l2 Hsub IH]; intros Hsorted; [done| |].
  - apply StronglySorted_cons in Hsorted as [Hall Hsorted].
    constructor; [by apply IH|].
    rewrite Forall_forall in Hall. apply Forall_forall. intros z Hz.
    apply Hall. by eapply elem_of_sublist.
  - apply StronglySorted_cons in Hsorted as [_ Hsorted]. by apply IH.
Qed.

Lemma fee_sorted_remove (pool : t) (id : string) :
  fee_sorted pool → fee_sorted (remove_transaction pool id).2.
Proof.
  unfold fee_sorted, remove_transaction. intros Hsorted.
  destruct (transaction_map pool !! id) as [tx|]; [|done].
  cbn. case_decide; [|done].
  eapply sublist_sorted; [apply remove_sublist | done].
Qed.

Lemma fee_sorted_apply `{!Libs} (pool : t) (o : op) :
  fee_sorted pool → fee_sorted (apply pool o).
Proof.
  intros Hsorted. destruct o as [tx|max_count|id|]; cbn [apply].
  - unfold add_transaction.
    destruct (negb (Transaction.is_valid tx)); [done|].
    case_decide; [done|]. apply sort_desc_sorted.
  - unfold fee_sorted, get_transactions_for_block, Py.slice_from. cbn.
    eapply sublist_sorted; [apply sublist_drop | done].
  - by apply fee_sorted_remove.
  - constructor.
Qed.

Lemma fee_sorted_run `{!Libs} (pool : t) (ops : list op) :
  fee_sorted pool → fee_sorted (run pool ops).
Proof.
  unfold run. revert pool.
  induction ops as [|o ops IH]; intros pool Hsorted; [done|].
  cbn [foldl]. apply IH. by apply fee_sorted_apply.
Qed.






End TransactionPoolOrder.

Module TransactionProperties.

Lemma truthy_iff (s : string) : Py.truthy s = true ↔ s ≠ "".
Proof.
  unfold Py.truthy. rewrite negb_true_iff. split.
  - intros Hne ->. by rewrite String.eqb_refl in Hne.
  - by intros ?%String.eqb_neq.
Qed.



End TransactionProperties.

(** ** Further properties of blocks and of the storage *)

Module BlockProperties.
Import Block.

(** [s[:d] == "0" * d] is [s.startswith("0" * d)] when [d] is not
    negative. *)
Lemma take_zeros (n : nat) (s : string) :
  String.eqb (string_of_list_ascii (take n (list_ascii_of_string s)))
             (Py.repeat_str "0" n)
  = String.prefix (Py.repeat_str "0" n) s.
Proof.
  revert s. induction n as [|n IH]; intros s.
  - cbn. by destruct s.
  - destruct s as [|c s]; [done|].
    cbn [list_ascii_of_string take string_of_list_ascii Py.repeat_str].
    change ("0" +:+ Py.repeat_str "0" n) with (String "0"%char (Py.repeat_str "0" n)).
    cbn [String.eqb String.prefix]. rewrite IH.
    destruct (Ascii.eqb_spec c "0"%char) as [->|Hne].
    + by destruct (ascii_dec "0" "0").
    + destruct (ascii_dec "0" c) as [<-|?]; done.
Qed.

Lemma slice_is_prefix (s : string) (difficulty : Z) :
  0 ≤ difficulty →
  String.eqb (Py.str_slice_to s difficulty) (Py.str_mul "0" difficulty)
  = Py.startswith s (Py.str_mul "0" difficulty).
Proof.
  intros Hpos. unfold Py.str_slice_to, Py.slice_to, Py.slice_bound, Py.str_mul,
    Py.startswith.
  replace (difficulty <? 0) with false by (symmetry; apply Z.ltb_ge; lia).
  rewrite <- take_zeros. do 2 f_equal.
  destruct (decide (difficulty ≤ Z.of_nat (length (list_ascii_of_string s)))).
  - by rewrite Z.min_l by lia.
  - rewrite Z.min_r, Nat2Z.id by lia. rewrite !take_ge; [done|lia|lia].
Qed.

Section WithLibs.
Context `{!Libs}.

Lemma mine_search_nonce_search (fuel : nat) (difficulty : Z) (block : t) :
  0 ≤ difficulty →
  mine_search fuel difficulty block
  = nonce_search fuel (Py.str_mul "0" difficulty) block.
Proof.
  intros Hpos. revert block. induction fuel as [|fuel IH]; intros block;
    cbn [mine_search nonce_search]; rewrite slice_is_prefix by done; [done|].
  by rewrite IH.
Qed.

Lemma nonce_search_hash (fuel : nat) (target : string) (block new_block : t) :
  hash block = _calculate_hash block →
  nonce_search fuel target block = Some new_block →
  hash new_block = _calculate_hash new_block.
Proof.
  revert block. induction fuel as [|fuel IH]; intros block Hhash; cbn [nonce_search].
  - destruct (Py.startswith _ _); [|done]. by intros [= <-].
  - destruct (Py.startswith _ _); [by intros [= <-]|].
    by apply IH.
Qed.

(** The blocks that the constructor builds carry their own hash. *)
Lemma candidate_hash (chain : Blockchain.t) (address : string)
    (env : Blockchain.mine_env) :
  hash (Blockchain.candidate_block chain address env)
  = _calculate_hash (Blockchain.candidate_block chain address env).
Proof. reflexivity. Qed.

End WithLibs.

(** X15. [Block.mine_block] with a difficulty [d >= 0], on a block that
    carries its own hash: when the search ends, the block has the difficulty
    [d], a hash that begins with [d] characters ["0"] and that is the hash of
    its content, and otherwise the content it had; so [is_valid] only depends
    on its transactions and its Merkle root. The search ends when some nonce
    from the current one on gives such a hash. *)
Theorem mine_block_result `{!Libs} (self : t) (d : Z) :
  0 ≤ d →
  hash self = _calculate_hash self →
  (∀ fuel mined,
     mine_block fuel self d = Some mined →
     difficulty mined = d ∧
     Py.startswith (hash mined) (Py.str_mul "0" d) = true ∧
     hash mined = _calculate_hash mined ∧
     index mined = index self ∧ timestamp mined = timestamp self ∧
     transactions mined = transactions self ∧
     previous_hash mined = previous_hash self ∧
     merkle_root mined = merkle_root self ∧
     is_valid mined
     = forallb Transaction.is_valid (transactions self)
       && bool_decide (MerkleTree.root
                         (MerkleTree.new (map Transaction.to_json (transactions self)))
                       = Some (merkle_root self))) ∧
  (∀ k : nat,
     Py.startswith (hash (with_nonce self (nonce self + Z.of_nat k)))
                   (Py.str_mul "0" d) = true →
     ∃ mined, ∀ fuel, (k ≤ fuel)%nat → mine_block fuel self d = Some mined).
Proof.
  intros Hpos Hhash. split.
  - intros fuel mined. unfold mine_block. rewrite mine_search_nonce_search by done.
    intros Hsearch.
    pose proof (nonce_search_hash fuel _ (set_difficulty self d) mined Hhash Hsearch)
      as Hown.
    destruct (LedgerFacts.nonce_search_Some _ _ _ _ Hsearch)
      as (Htarget & Hi & Ht & Htx & Hp & _ & _ & Hr & Hd).
    cbn in Hi, Ht, Htx, Hp, Hr, Hd.
    repeat (split; [done|]).
    unfold is_valid. rewrite <- Hown, String.eqb_refl. cbn [negb].
    rewrite Hd, Htarget. cbn [negb]. rewrite Htx, Hr.
    destruct (forallb _ _); [|done]. cbn [negb andb]. by destruct (bool_decide _).
  - intros k Hgood.
    assert (Hstart : set_difficulty self d
                     = with_nonce (set_difficulty self d) (nonce self)).
    { destruct self. cbn in *. by rewrite Hhash. }
    destruct (BlockFacts.nonce_search_finds (Py.str_mul "0" d) (set_difficulty self d)
                k (nonce self) Hgood) as (j & _ & _ & Hsearch).
    eexists. intros fuel Hfuel. unfold mine_block.
    rewrite mine_search_nonce_search by done.
    rewrite Hstart. by apply Hsearch.
Qed.

Lemma mine_block_result_witness :
  ∃ mined, ∀ fuel, (20 ≤ fuel)%nat →
    mine_block (H := python) fuel
      (Blockchain.candidate_block (H := python) Scenario.chain1 "miner" Scenario.env1) 1
    = Some mined.
Proof.
  apply (proj2 (mine_block_result (H := python)
                  (Blockchain.candidate_block (H := python) Scenario.chain1 "miner"
                     Scenario.env1) 1 ltac:(lia)
                  (candidate_hash (H := python) Scenario.chain1 "miner" Scenario.env1))
           20%nat).
  vm_compute. reflexivity.
Defined.

(** X16. [get_transaction_by_id] returns the first transaction of the
    block with that identifier, and [None] exactly when the block has none.
    [verify_transaction_in_block] returns [False] for an identifier that the
    block does not hold; for a block built by the constructor it returns
    [True] for every identifier it holds when the number of its transactions
    is a power of two, at least 2, and [False] when the block holds a single
    transaction. *)
Theorem transaction_lookup_in_block `{!Libs} (self : t) (transaction_id : string) :
  (∀ tx, get_transaction_by_id self transaction_id = Some tx →
         ∃ i, transactions self !! i = Some tx ∧
              Transaction.transaction_id tx = transaction_id ∧
              ∀ j other, transactions self !! j = Some other → (j < i)%nat →
                         Transaction.transaction_id other ≠ transaction_id) ∧
  (get_transaction_by_id self transaction_id = None ↔
   ∀ tx, tx ∈ transactions self → Transaction.transaction_id tx ≠ transaction_id) ∧
  (get_transaction_by_id self transaction_id = None →
   verify_transaction_in_block self transaction_id = false) ∧
  (merkle_tree self = MerkleTree.new (map Transaction.to_json (transactions self)) →
   (∀ k, length (transactions self) = (2 ^ S k)%nat →
         is_Some (get_transaction_by_id self transaction_id) →
         verify_transaction_in_block self transaction_id = true) ∧
   (length (transactions self) = 1%nat →
    verify_transaction_in_block self transaction_id = false)).
Proof.
  unfold get_transaction_by_id, verify_transaction_in_block.
  split; [|split; [|split; [|intros Htree; split]]].
  - intros tx Hfound. apply fmap_Some in Hfound as ([i tx'] & Hfind & ->).
    apply list_find_Some in Hfind as (Hlookup & Hid & Hfirst).
    exists i. cbn. split; [done|]. split; [done|]. exact Hfirst.
  - rewrite fmap_None.
    rewrite (list_find_None (λ tx, Transaction.transaction_id tx = transaction_id)).
    by rewrite Forall_forall.
  - intros Hnone. apply fmap_None in Hnone. by rewrite Hnone.
  - intros k Hlen [tx Hfound].
    apply fmap_Some in Hfound as ([i tx'] & Hfind & ->). rewrite Hfind.
    apply list_find_Some in Hfind as (Hlookup & _ & _).
    rewrite Htree. apply (MerkleTreeFacts.round_trip_full_tree _ k).
    + by rewrite length_map.
    + by rewrite list_lookup_fmap, Hlookup.
  - intros Hone.
    destruct (transactions self) as [|tx [|? ?]] eqn:Htxs; try done.
    destruct (list_find _ [tx]) as [[i tx']|] eqn:Hfind; [|done].
    apply list_find_Some in Hfind as (Hlookup & _ & _).
    destruct i as [|i]; [|done]. injection Hlookup as <-.
    rewrite Htree. cbn [map]. apply MerkleTreeFacts.single_leaf_rejected.
Qed.

Lemma transaction_lookup_in_block_witness :
  verify_transaction_in_block (H := python)
    (Block.new (H := python) 1 [Scenario.tx_fee5; Scenario.tx_fee1] "00" "" 1700000005)
    (Transaction.transaction_id Scenario.tx_fee1) = true.
Proof.
  apply (proj1 (proj2 (proj2 (proj2
           (transaction_lookup_in_block (H := python)
              (Block.new (H := python) 1 [Scenario.tx_fee5; Scenario.tx_fee1] "00" ""
                 1700000005)
              (Transaction.transaction_id Scenario.tx_fee1)))) eq_refl) 0%nat).
  - reflexivity.
  - vm_compute. eexists. reflexivity.
Defined.

End BlockProperties.

Module StorageProperties.
Import StorageManager.

(** The transaction index after the loop of [store_block], when no write
    raises. *)
Lemma store_transaction_indices_other (ls : SQLiteStorage.t) (block_hash : string)
    (tx_index : Z) (transactions : list Transaction.t) (tx_hash : string) :
  (∀ tx, tx ∈ transactions → Transaction.transaction_id tx ≠ tx_hash) →
  SQLiteStorage.transaction_index
    (store_transaction_indices ls block_hash tx_index transactions) !! tx_hash
  = SQLiteStorage.transaction_index ls !! tx_hash.
Proof.
  revert ls tx_index. induction transactions as [|tx rest IH]; intros ls tx_index Hother;
    [done|].
  cbn [store_transaction_indices]. rewrite IH by (intros; apply Hother; set_solver).
  unfold SQLiteStorage.store_transaction_index, SQLiteStorage.write.
  StorageFacts.write_cases ls; cbn; try done;
    rewrite lookup_insert_ne; try done; apply Hother; set_solver.
Qed.

Lemma store_transaction_indices_last (ls : SQLiteStorage.t) (block_hash : string)
    (tx_index : Z) (transactions : list Transaction.t) (i : nat) (tx : Transaction.t) :
  SQLiteStorage.io_faults ls = [] →
  transactions !! i = Some tx →
  (∀ j other, transactions !! j = Some other → (i < j)%nat →
              Transaction.transaction_id other ≠ Transaction.transaction_id tx) →
  SQLiteStorage.transaction_index
    (store_transaction_indices ls block_hash tx_index transactions)
    !! Transaction.transaction_id tx
  = Some (block_hash, tx_index + Z.of_nat i).
Proof.
  revert ls tx_index i. induction transactions as [|tx0 rest IH];
    intros ls tx_index i Hquiet Hlookup Hlast; [done|].
  cbn [store_transaction_indices].
  unfold SQLiteStorage.store_transaction_index at 1.
  rewrite StorageFacts.write_no_faults by done. cbn [snd].
  destruct i as [|i].
  - injection Hlookup as ->.
    rewrite store_transaction_indices_other.
    + cbn. rewrite lookup_insert_eq. do 2 f_equal. lia.
    + intros other Hin. apply list_elem_of_lookup in Hin as [j Hj].
      apply (Hlast (S j) other); [done | lia].
  - rewrite (IH _ _ i); [do 2 f_equal; lia | done | done |].
    intros j other Hj Hlt. apply (Hlast (S j) other); [done | lia].
Qed.

(** X17. [get_all_balances] returns exactly the accounts of the database
    with a balance above 0, each with its balance: accounts at 0 and
    overdrawn accounts are left out. *)
Theorem get_all_balances_positive_only (sm : t) (address : string) (balance : Q) :
  get_all_balances sm !! address = Some balance ↔
  SQLiteStorage.get_account_balance (local_storage sm) address = Some balance ∧
  Py.lt 0 balance = true.
Proof.
  rewrite ExportFacts.get_all_balances_lookup. unfold get_balance.
  destruct (SQLiteStorage.get_account_balance (local_storage sm) address) as [stored|].
  - destruct (Py.lt 0 stored) eqn:Hpos.
    + split; [by intros [= <-] | by intros [[= <-] _]].
    + split; [done | intros [[= <-] ?]; congruence].
  - change (Py.lt 0 0) with false. split; [done | by intros [? _]].
Qed.

(** X18. A block that [store_block] has accepted is what
    [get_block_by_hash] returns for its hash and [get_block_by_height] for
    its index (its hash is not empty, and its Merkle tree is that of its
    transactions, as the constructor builds it); the balances are left as
    they were. *)
Theorem stored_block_is_returned `{!Libs} (sm : t) (block : Block.t) :
  (store_block sm block).1 = true →
  Block.hash block ≠ "" →
  Block.merkle_tree block
  = MerkleTree.new (map Transaction.to_json (Block.transactions block)) →
  let sm' := (store_block sm block).2 in
  get_block_by_hash sm' (Block.hash block) = Some block ∧
  get_block_by_height sm' (Block.index block) = Some block ∧
  Block.index block ≤ get_latest_block_height sm' ∧
  ∀ address, get_balance sm' address = get_balance sm address.
Proof.
  intros Hstored Hhash Htree sm'.
  destruct (StorageFacts.store_block_stored sm block Hstored) as (Hb & Hh & _ & Ha).
  cbn zeta in Hb, Hh, Ha. fold sm' in Hb, Hh, Ha.
  destruct (BlockRoundTrip.stored_block_found sm' block) as [Hbyhash Hbyheight];
    try done.
  { rewrite Hb. apply lookup_insert_eq. }
  { rewrite Hh. apply lookup_insert_eq. }
  split; [done|]. split; [done|]. split.
  - apply (ExportFacts.latest_block_height_ge _ _ (Block.hash block)).
    rewrite Hh. apply lookup_insert_eq.
  - intros address. unfold get_balance, SQLiteStorage.get_account_balance.
    by rewrite Ha.
Qed.

Lemma stored_block_is_returned_witness :
  get_block_by_hash (H := python)
    (store_block (Build (SQLiteStorage.fresh [])) Scenario.block1).2
    (Block.hash Scenario.block1) = Some Scenario.block1 ∧
  get_block_by_height (H := python)
    (store_block (Build (SQLiteStorage.fresh [])) Scenario.block1).2
    (Block.index Scenario.block1) = Some Scenario.block1 ∧
  Block.index Scenario.block1
  ≤ get_latest_block_height
      (store_block (Build (SQLiteStorage.fresh [])) Scenario.block1).2 ∧
  ∀ address,
    get_balance (store_block (Build (SQLiteStorage.fresh [])) Scenario.block1).2 address
    = get_balance (Build (SQLiteStorage.fresh [])) address.
Proof.
  apply (stored_block_is_returned (H := python) (Build (SQLiteStorage.fresh []))
           Scenario.block1).
  - reflexivity.
  - vm_compute. discriminate.
  - vm_compute. reflexivity.
Defined.

(** X19. After [store_block] on a database that raises no error,
    [get_transaction_by_hash] finds every transaction of the block by its
    identifier, with the index of the block; of several transactions of the
    block with one identifier it finds the last. *)
Theorem stored_transaction_is_located `{!Libs} (sm : t) (block : Block.t) (i : nat)
    (tx : Transaction.t) :
  ExportSpec.quiet sm →
  Block.merkle_tree block
  = MerkleTree.new (map Transaction.to_json (Block.transactions block)) →
  Block.transactions block !! i = Some tx →
  (∀ j other, Block.transactions block !! j = Some other → (i < j)%nat →
              Transaction.transaction_id other ≠ Transaction.transaction_id tx) →
  get_transaction_by_hash (store_block sm block).2 (Transaction.transaction_id tx)
  = Some (tx, Block.index block).
Proof.
  intros Hquiet Htree Hlookup Hlast.
  assert (Hstored : (store_block sm block).1 = true)
    by (rewrite StorageFacts.store_block_1; by rewrite Hquiet).
  destruct (StorageFacts.store_block_stored sm block Hstored) as (Hb & _).
  cbn zeta in Hb.
  assert (Hlocation :
    SQLiteStorage.get_transaction_location (local_storage (store_block sm block).2)
      (Transaction.transaction_id tx)
    = Some (Block.hash block, Z.of_nat i)).
  { unfold store_block, SQLiteStorage.store_block, SQLiteStorage.store_block_index.
    rewrite StorageFacts.write_no_faults by done. cbn.
    rewrite StorageFacts.write_no_faults by done. cbn.
    unfold SQLiteStorage.get_transaction_location.
    by rewrite (store_transaction_indices_last _ _ 0 _ i tx). }
  unfold get_transaction_by_hash. rewrite Hlocation.
  unfold get_block_by_hash, SQLiteStorage.get_block. rewrite Hb, lookup_insert_eq.
  cbn [fmap option_fmap option_map fst].
  rewrite (BlockRoundTrip.from_dict_to_dict block Htree).
  pose proof (lookup_lt_Some _ _ _ Hlookup) as Hlt.
  replace (Z.of_nat i <? Z.of_nat (length (Block.transactions block))) with true
    by (symmetry; apply Z.ltb_lt; lia).
  unfold Py.getitem.
  replace (0 <=? Z.of_nat i) with true by (symmetry; apply Z.leb_le; lia).
  by rewrite Nat2Z.id, Hlookup.
Qed.

Lemma stored_transaction_is_located_witness :
  get_transaction_by_hash (H := python)
    (store_block (Build (SQLiteStorage.fresh [])) Scenario.block1).2
    (Transaction.transaction_id
       (Transaction.new (H := python) "" "miner" 50 0 "" 1700000030 "0d"))
  = Some (Transaction.new (H := python) "" "miner" 50 0 "" 1700000030 "0d",
          Block.index Scenario.block1).
Proof.
  apply (stored_transaction_is_located (H := python) (Build (SQLiteStorage.fresh []))
           Scenario.block1 1
           (Transaction.new (H := python) "" "miner" 50 0 "" 1700000030 "0d")).
  - reflexivity.
  - vm_compute. reflexivity.
  - vm_compute. reflexivity.
  - intros j other Hj Hlt. apply lookup_lt_Some in Hj.
    assert (Hlen : length (Block.transactions Scenario.block1) = 2%nat)
      by (vm_compute; reflexivity).
    lia.
Defined.

End StorageProperties.

Module Pruning.
Import StorageManager.

Lemma lookup_filter_if {K V} `{Countable K} (P : K * V → Prop)
    `{!∀ row, Decision (P row)} (m : gmap K V) (k : K) :
  filter P m !! k
  = match m !! k with
    | Some v => if decide (P (k, v)) then Some v else None
    | None => None
    end.
Proof.
  rewrite map_lookup_filter. destruct (m !! k) as [v|]; [|done].
  cbn. destruct (decide (P (k, v))).
  - by rewrite option_guard_True.
  - by rewrite option_guard_False.
Qed.

(** The latest height is determined by being a height of the index above
    all others. *)
Lemma latest_height_unique (ls : SQLiteStorage.t) (height : Z) :
  is_Some (SQLiteStorage.block_height_index ls !! height) →
  (∀ other block_hash,
     SQLiteStorage.block_height_index ls !! other = Some block_hash → other ≤ height) →
  SQLiteStorage.get_latest_block_height ls = height.
Proof.
  intros [block_hash Hkey] Hmax.
  destruct (HeightFacts.latest_height_spec ls) as [[Hempty _]|[[v Hlatest] Hle]].
  { by rewrite Hempty in Hkey. }
  specialize (Hmax _ _ Hlatest). specialize (Hle _ _ Hkey). lia.
Qed.

Lemma latest_height_empty (ls : SQLiteStorage.t) :
  (∀ height, SQLiteStorage.block_height_index ls !! height = None) →
  SQLiteStorage.get_latest_block_height ls = -1.
Proof.
  intros Hnone.
  destruct (HeightFacts.latest_height_spec ls) as [[_ ?]|[[v Hlatest] _]]; [done|].
  by rewrite Hnone in Hlatest.
Qed.

Section WithLibs.
Context `{!Libs}.

Lemma heights_recorded_b_sound (sm : t) :
  ExportSpec.heights_recorded_b sm = true → ExportSpec.heights_recorded sm.
Proof.
  unfold ExportSpec.heights_recorded_b, ExportSpec.heights_recorded.
  rewrite forallb_forall. intros Hall block_hash block_data block_height Hrow.
  specialize (Hall (block_hash, (block_data, block_height))).
  ospecialize (Hall _).
  { apply list_elem_of_In. by apply elem_of_map_to_list. }
  cbn in Hall. lia.
Qed.

(** The database after a [cleanup_old_data] that has something to do and
    meets no error. *)
Lemma cleanup_old_data_quiet (sm : t) (keep_blocks : Z) :
  ExportSpec.quiet sm →
  keep_blocks < get_latest_block_height sm →
  cleanup_old_data sm keep_blocks
  = (true,
     Build
       (SQLiteStorage.Build
          (SQLiteStorage.key_value (local_storage sm))
          (filter (λ row : string * (Block.dict * Z),
                     get_latest_block_height sm - keep_blocks ≤ row.2.2)
                  (SQLiteStorage.blocks (local_storage sm)))
          (filter (λ row : Z * string,
                     get_latest_block_height sm - keep_blocks ≤ row.1)
                  (SQLiteStorage.block_height_index (local_storage sm)))
          (SQLiteStorage.transaction_index (local_storage sm))
          (SQLiteStorage.account_balances (local_storage sm))
          (SQLiteStorage.io_faults (local_storage sm)))).
Proof.
  intros Hquiet Hlate. unfold cleanup_old_data.
  replace (get_latest_block_height sm <=? keep_blocks) with false
    by (symmetry; apply Z.leb_gt; lia).
  rewrite StorageFacts.write_no_faults by done. cbn [negb].
  by rewrite StorageFacts.write_no_faults by done.
Qed.

End WithLibs.

(** X20. [cleanup_old_data] does nothing when the latest height is at most
    [keep_blocks]. Otherwise, on a database that raises no error, it removes
    the blocks below the height [latest - keep_blocks]: no block is found
    there afterwards, the blocks from that height on are found as before
    (when every block is stored under its own index), so that
    [keep_blocks + 1] heights are kept, and the latest height stays when
    [keep_blocks] is not negative; with a negative [keep_blocks] nothing is
    left and the latest height is -1. The transaction index and the balances
    are not touched. *)
Theorem cleanup_old_data_prunes `{!Libs} (sm : t) (keep_blocks : Z) :
  ExportSpec.quiet sm →
  let latest := get_latest_block_height sm in
  let result := cleanup_old_data sm keep_blocks in
  (latest ≤ keep_blocks → result = (true, sm)) ∧
  (keep_blocks < latest →
   result.1 = true ∧
   (∀ height, height < latest - keep_blocks →
              get_block_by_height result.2 height = None) ∧
   (0 ≤ keep_blocks → get_latest_block_height result.2 = latest) ∧
   (keep_blocks < 0 → get_latest_block_height result.2 = -1) ∧
   (ExportSpec.well_indexed sm → ExportSpec.heights_recorded sm →
    ∀ height, latest - keep_blocks ≤ height →
              get_block_by_height result.2 height = get_block_by_height sm height) ∧
   (∀ tx_hash,
      SQLiteStorage.get_transaction_location (local_storage result.2) tx_hash
      = SQLiteStorage.get_transaction_location (local_storage sm) tx_hash) ∧
   (∀ address, get_balance result.2 address = get_balance sm address)).
Proof.
  intros Hquiet latest result. split.
  { intros Hfew. unfold result, cleanup_old_data. fold latest.
    by replace (latest <=? keep_blocks) with true by (symmetry; apply Z.leb_le; lia). }
  intros Hlate. unfold result. rewrite (cleanup_old_data_quiet sm keep_blocks Hquiet Hlate).
  fold latest. cbn [fst snd].
  split; [done|]. split; [|split; [|split; [|split; [|split; [done|done]]]]].
  - intros height Hlow. unfold get_block_by_height, SQLiteStorage.get_block_hash_by_height.
    cbn [local_storage SQLiteStorage.block_height_index].
    rewrite lookup_filter_if.
    destruct (SQLiteStorage.block_height_index (local_storage sm) !! height); [|done].
    cbn [fst]. by rewrite decide_False by lia.
  - intros Hkeep. apply latest_height_unique.
    + cbn [local_storage SQLiteStorage.block_height_index]. rewrite lookup_filter_if.
      destruct (HeightFacts.latest_height_spec (local_storage sm))
        as [[_ Hnone]|[[v Hkey] _]].
      { unfold latest, get_latest_block_height in Hlate. lia. }
      fold (get_latest_block_height sm) in Hkey. fold latest in Hkey. rewrite Hkey.
      cbn [fst]. rewrite decide_True by lia. by eexists.
    + intros other block_hash. cbn [local_storage SQLiteStorage.block_height_index].
      rewrite lookup_filter_if.
      destruct (SQLiteStorage.block_height_index (local_storage sm) !! other)
        as [v|] eqn:Hkey; [|done].
      intros _. by apply ExportFacts.latest_block_height_ge in Hkey.
  - intros Hneg. apply latest_height_empty. intros height.
    cbn [local_storage SQLiteStorage.block_height_index]. rewrite lookup_filter_if.
    destruct (SQLiteStorage.block_height_index (local_storage sm) !! height)
      as [v|] eqn:Hkey; [|done].
    apply ExportFacts.latest_block_height_ge in Hkey.
    fold (get_latest_block_height sm) in Hkey. fold latest in Hkey.
    cbn [fst]. by rewrite decide_False by lia.
  - intros Hwell Hrows height Hhigh.
    pose proof (Hwell height) as Hwell'.
    unfold get_block_by_height, SQLiteStorage.get_block_hash_by_height in *.
    cbn [local_storage SQLiteStorage.block_height_index].
    rewrite lookup_filter_if.
    destruct (SQLiteStorage.block_height_index (local_storage sm) !! height)
      as [block_hash|]; [|done].
    cbn [fst]. rewrite decide_True by lia.
    destruct (Py.truthy block_hash); [|done].
    unfold get_block_by_hash, SQLiteStorage.get_block in *.
    cbn [local_storage SQLiteStorage.blocks]. rewrite lookup_filter_if.
    destruct (SQLiteStorage.blocks (local_storage sm) !! block_hash)
      as [[block_data block_height]|] eqn:Hrow; [|done].
    cbn [snd]. cbn [fmap option_fmap option_map fst] in Hwell'.
    destruct (Hwell' _ eq_refl) as (_ & Hindex & _).
    rewrite (Hrows _ _ _ Hrow).
    change (Block.index (Block.from_dict block_data)) with (Block.d_index block_data)
      in Hindex.
    by rewrite decide_True by lia.
Qed.

Lemma cleanup_old_data_prunes_witness :
  (cleanup_old_data (Blockchain.storage_manager Scenario.chain3) 1).1 = true ∧
  (∀ height, height < 2 - 1 →
     get_block_by_height (H := python)
       (cleanup_old_data (Blockchain.storage_manager Scenario.chain3) 1).2 height
     = None) ∧
  (∀ height, 2 - 1 ≤ height →
     get_block_by_height (H := python)
       (cleanup_old_data (Blockchain.storage_manager Scenario.chain3) 1).2 height
     = get_block_by_height (H := python)
         (Blockchain.storage_manager Scenario.chain3) height).
Proof.
  assert (Hlatest : get_latest_block_height (Blockchain.storage_manager Scenario.chain3) = 2)
    by (vm_compute; reflexivity).
  destruct (proj2 (cleanup_old_data_prunes (H := python)
                     (Blockchain.storage_manager Scenario.chain3) 1
                     ltac:(vm_compute; reflexivity))
              ltac:(rewrite Hlatest; lia))
    as (Hok & Hlow & _ & _ & Hhigh & _).
  rewrite Hlatest in Hlow, Hhigh.
  split; [exact Hok|]. split; [exact Hlow|].
  apply Hhigh.
  - apply ExportImport.well_indexed_b_sound. vm_compute. reflexivity.
  - apply heights_recorded_b_sound. vm_compute. reflexivity.
Defined.

End Pruning.

Module KeyValue.
Import SQLiteStorage.

Lemma put_then_get (self : t) (key : string) (value : bytes) :
  (put self key value).1 = true → get (put self key value).2 key = Some value.
Proof.
  unfold put, write, get.
  StorageFacts.write_cases self; cbn; try done; intros _; apply lookup_insert_eq.
Qed.

(** X21. The key-value table: a [put] that returns [True] makes [get]
    return the value and [exists] return [True] for the key, a [delete] that
    returns [True] makes them return [None] and [False]; either leaves the
    other keys as they were, and one that returns [False] leaves every key
    as it was. Both return [True] when the database raises no error. *)
Theorem key_value_round_trip (self : t) (key : string) (value : bytes) :
  let stored := put self key value in
  let removed := delete self key in
  (stored.1 = true → get stored.2 key = Some value ∧ exists_ stored.2 key = true) ∧
  (removed.1 = true → get removed.2 key = None ∧ exists_ removed.2 key = false) ∧
  (∀ other, other ≠ key →
     get stored.2 other = get self other ∧ get removed.2 other = get self other) ∧
  (stored.1 = false → ∀ other, get stored.2 other = get self other) ∧
  (removed.1 = false → ∀ other, get removed.2 other = get self other) ∧
  (io_faults self = [] → stored.1 = true ∧ removed.1 = true).
Proof.
  unfold put, delete, write, get, exists_.
  StorageFacts.write_cases self; cbn.
  - split; [intros _; rewrite lookup_insert_eq; split;
            [done | by apply bool_decide_eq_true]|].
    split; [intros _; rewrite lookup_delete_eq; split;
            [done | apply bool_decide_eq_false; by intros [? ?]]|].
    split; [intros other Hne; by rewrite lookup_insert_ne, lookup_delete_ne|].
    done.
  - repeat split; done.
  - split; [intros _; rewrite lookup_insert_eq; split;
            [done | by apply bool_decide_eq_true]|].
    split; [intros _; rewrite lookup_delete_eq; split;
            [done | apply bool_decide_eq_false; by intros [? ?]]|].
    split; [intros other Hne; by rewrite lookup_insert_ne, lookup_delete_ne|].
    done.
Qed.

Lemma key_value_round_trip_witness :
  get (put (fresh []) "k" (Raw "v")).2 "k" = Some (Raw "v") ∧
  exists_ (put (fresh []) "k" (Raw "v")).2 "k" = true.
Proof.
  apply (proj1 (key_value_round_trip (fresh []) "k" (Raw "v"))). reflexivity.
Defined.

End KeyValue.

(** ** The length of a digest and the search with a negative difficulty *)

Module HashlibFacts.
Import Hashlib.

Lemma length_round256 (st : list N) (kw : N * N) :
  length st = 8%nat → length (round256 st kw) = 8%nat.
Proof.
  intros Hlen. do 9 (destruct st as [|? st]; try done).
Qed.

Lemma length_rounds (st : list N) (kws : list (N * N)) :
  length st = 8%nat → length (foldl round256 st kws) = 8%nat.
Proof.
  revert st. induction kws as [|kw kws IH]; intros st Hlen; [done|].
  cbn [foldl]. by apply IH, length_round256.
Qed.

Lemma length_compress256 (st block : list N) :
  length st = 8%nat → length (compress256 st block) = 8%nat.
Proof.
  intros Hlen. unfold compress256. rewrite length_zip_with, length_rounds by done. lia.
Qed.

Lemma length_state (st : list N) (blocks : list (list N)) :
  length st = 8%nat → length (foldl compress256 st blocks) = 8%nat.
Proof.
  revert st. induction blocks as [|block blocks IH]; intros st Hlen; [done|].
  cbn [foldl]. by apply IH, length_compress256.
Qed.

Lemma length_append (s1 s2 : string) :
  String.length (s1 +:+ s2) = (String.length s1 + String.length s2)%nat.
Proof. induction s1 as [|c s1 IH]; [done|]. simpl. by rewrite IH. Qed.

Lemma length_hex_words (ws : list N) :
  String.length (hex_words true ws) = (8 * length ws)%nat.
Proof.
  induction ws as [|w ws IH]; [done|].
  change (hex_words true (w :: ws))
    with (foldr (λ b acc, hex_byte b +:+ acc) (hex_words true ws) (word_bytes true w)).
  unfold word_bytes. cbn [seq map rev app foldr]. unfold hex_byte.
  rewrite !length_append, IH. cbn [length String.length]. lia.
Qed.

(** A SHA-256 digest has 64 hexadecimal characters. *)
Lemma length_sha256_hexdigest (s : string) :
  String.length (sha256_hexdigest s) = 64%nat.
Proof.
  unfold sha256_hexdigest. rewrite length_hex_words, length_state; done.
Qed.

End HashlibFacts.

Module NegativeDifficulty.
Import Block.

Lemma length_list_ascii (s : string) :
  length (list_ascii_of_string s) = String.length s.
Proof. induction s as [|c s IH]; [done|]. cbn. by rewrite IH. Qed.

Lemma negative_slice_not_empty (h : string) (d : Z) :
  d < 0 → - Z.of_nat (String.length h) < d →
  String.eqb (Py.str_slice_to h d) (Py.str_mul "0" d) = false.
Proof.
  intros Hneg Hshort. unfold Py.str_slice_to, Py.slice_to, Py.slice_bound, Py.str_mul.
  replace (d <? 0) with true by (symmetry; apply Z.ltb_lt; lia).
  replace (Z.to_nat d) with 0%nat by lia. cbn [Py.repeat_str].
  rewrite length_list_ascii.
  destruct h as [|c h]; [cbn in Hshort; lia|].
  cbn [String.length list_ascii_of_string] in *.
  destruct (Z.to_nat (Z.max 0 (Z.of_nat (S (String.length h)) + d))) as [|n] eqn:Hn;
    [lia|]. done.
Qed.

Lemma negative_slice_empty (h : string) (d : Z) :
  d ≤ - Z.of_nat (String.length h) →
  d < 0 →
  String.eqb (Py.str_slice_to h d) (Py.str_mul "0" d) = true.
Proof.
  intros Hlong Hneg. unfold Py.str_slice_to, Py.slice_to, Py.slice_bound, Py.str_mul.
  replace (d <? 0) with true by (symmetry; apply Z.ltb_lt; lia).
  replace (Z.to_nat d) with 0%nat by lia. cbn [Py.repeat_str].
  rewrite length_list_ascii.
  replace (Z.to_nat (Z.max 0 (Z.of_nat (String.length h) + d))) with 0%nat by lia.
  by rewrite take_0.
Qed.

(** X29. [Block.mine_block] with a negative difficulty [d], on a block
    whose hash has the 64 characters of a digest: for [-64 < d < 0] the
    search never ends, since [self.hash[:d]] is never empty and the target
    ["0" * d] is; for [d <= -64] it ends at once, with the block as it was
    but for its difficulty. *)
Theorem mine_block_negative_difficulty `{!Libs} (self : t) (d : Z) :
  (∀ s, String.length (sha256 s) = 64%nat) →
  String.length (hash self) = 64%nat →
  (-64 < d < 0 → ∀ fuel, mine_block fuel self d = None) ∧
  (d ≤ -64 → ∀ fuel, mine_block fuel self d = Some (set_difficulty self d)).
Proof.
  intros Hdigest Hhash. split.
  - intros Hd fuel. unfold mine_block.
    assert (Hstart : String.length (hash (set_difficulty self d)) = 64%nat) by done.
    revert Hstart. generalize (set_difficulty self d).
    induction fuel as [|fuel IH]; intros block Hlen; cbn [mine_search];
      rewrite negative_slice_not_empty by (rewrite ?Hlen; lia); [done|].
    apply IH. apply Hdigest.
  - intros Hd fuel. unfold mine_block.
    destruct fuel; cbn [mine_search];
      by rewrite negative_slice_empty by (cbn [hash set_difficulty]; rewrite ?Hhash; lia).
Qed.

Lemma mine_block_negative_difficulty_witness :
  (∀ fuel, mine_block (H := python) fuel
             (Block.new (H := python) 1 [] "00" "" 1700000005) (-1) = None) ∧
  (∀ fuel, mine_block (H := python) fuel
             (Block.new (H := python) 1 [] "00" "" 1700000005) (-64)
           = Some (set_difficulty (Block.new (H := python) 1 [] "00" "" 1700000005)
                                  (-64))).
Proof.
  split.
  - apply (proj1 (mine_block_negative_difficulty (H := python)
                    (Block.new (H := python) 1 [] "00" "" 1700000005) (-1)
                    HashlibFacts.length_sha256_hexdigest
                    (HashlibFacts.length_sha256_hexdigest _))).
    lia.
  - apply (proj2 (mine_block_negative_difficulty (H := python)
                    (Block.new (H := python) 1 [] "00" "" 1700000005) (-64)
                    HashlibFacts.length_sha256_hexdigest
                    (HashlibFacts.length_sha256_hexdigest _))).
    lia.
Defined.

End NegativeDifficulty.

(** ** Further properties of the distributed storage *)

Module DistributedStorageProperties.
Import DistributedStorage DistributedStorageFacts ClusterSpec.

Lemma same_store_trans (a b c : t) : same_store a b → same_store b c → same_store a c.
Proof.
  unfold same_store. intros (Hl & Hp & Hr & Hc) (Hl' & Hp' & Hr' & Hc').
  rewrite Hl, Hp, Hr, Hc. done.
Qed.

Lemma replicate_to_same_store (net : network) (key : string) (value : SQLiteStorage.bytes)
    (operation : string) (results : gmap string bool) (self : t) (node : string) :
  same_store (replicate_to net key value operation (results, self) node).2 self.
Proof.
  unfold replicate_to, _check_node_health. cbn.
  destruct (is_ok (health net node)); cbn; [|done].
  destruct (String.eqb operation "put").
  { by destruct (storage_put net node key value). }
  destruct (String.eqb operation "delete"); [|done].
  by destruct (storage_delete net node key).
Qed.

Lemma foldl_replicate_same_store (net : network) (key : string)
    (value : SQLiteStorage.bytes) (operation : string) (nodes : list string)
    (acc : gmap string bool * t) :
  same_store (foldl (replicate_to net key value operation) acc nodes).2 acc.2.
Proof.
  revert acc. induction nodes as [|node nodes IH]; intros [results self]; [done|].
  cbn [foldl]. eapply same_store_trans; [apply IH|].
  apply replicate_to_same_store.
Qed.

Lemma read_from_same_store (net : network)
    (storage_get : string → string → read_response) (key : string)
    (nodes : list string) (self : t) :
  same_store (read_from net storage_get key self nodes).2 self.
Proof.
  revert self. induction nodes as [|node nodes IH]; intros self; [done|].
  cbn [read_from]. unfold _check_node_health. cbn.
  destruct (is_ok (health net node)); cbn.
  - destruct (storage_get node key); cbn [snd]; [done | |];
      (eapply same_store_trans; [apply IH | done]).
  - eapply same_store_trans; [apply IH | done].
Qed.

Lemma read_from_Some (net : network)
    (storage_get : string → string → read_response) (key : string)
    (nodes : list string) (self : t) (value : SQLiteStorage.bytes) :
  (read_from net storage_get key self nodes).1 = Some value →
  ∃ node, node ∈ nodes ∧ is_ok (health net node) = true ∧
          storage_get node key = Found value.
Proof.
  revert self. induction nodes as [|node nodes IH]; intros self; [done|].
  cbn [read_from]. unfold _check_node_health. cbn.
  destruct (is_ok (health net node)) eqn:Hhealth; cbn.
  - destruct (storage_get node key) as [found| |] eqn:Hget; cbn [fst].
    + intros [= ->]. exists node. split; [set_solver | done].
    + intros (n & ? & ?)%IH. exists n. split; [set_solver | done].
    + intros (n & ? & ?)%IH. exists n. split; [set_solver | done].
  - intros (n & ? & ?)%IH. exists n. split; [set_solver | done].
Qed.

Section WithLibs.
Context `{!Libs}.

Lemma select_same_store (a b : t) (key : string) :
  peer_nodes a = peer_nodes b → replication_factor a = replication_factor b →
  node_health a = node_health b →
  _select_nodes_for_key a key = _select_nodes_for_key b key.
Proof. unfold _select_nodes_for_key. by intros -> -> ->. Qed.

(** No node is selected without peers, and none with a replication factor
    of 1 or less. *)
Lemma select_nothing (self : t) (key : string) :
  peer_nodes self = [] ∨ replication_factor self ≤ 1 →
  _select_nodes_for_key self key = [].
Proof.
  unfold _select_nodes_for_key. intros [-> | Hone]; [done|].
  destruct (filter _ (peer_nodes self)); [done|].
  by rewrite seqZ_nil by lia.
Qed.

Lemma put_local_storage (self : t) (net : network) (key : string)
    (value : SQLiteStorage.bytes) :
  local_storage (put self net key value).2
  = (SQLiteStorage.put (local_storage self) key value).2.
Proof.
  unfold put.
  destruct (SQLiteStorage.put (local_storage self) key value) as [ok ls].
  destruct (String.eqb _ "eventual"); [done|].
  unfold _replicate_to_peers.
  pose proof (foldl_replicate_same_store net key value "put"
                (_select_nodes_for_key (set_local_storage self ls) key)
                (∅, set_local_storage self ls)) as (Hls & _).
  destruct (foldl _ _ _) as [results self2]. cbn in *. done.
Qed.

End WithLibs.

Lemma put_unselected `{!Libs} (self : t) (net : network) (key : string)
    (value : SQLiteStorage.bytes) :
  peer_nodes self = [] ∨ replication_factor self ≤ 1 →
  (consistency_level self = "quorum" → (put self net key value).1 = false) ∧
  (consistency_level self = "strong" ∨ consistency_level self = "eventual" →
   (put self net key value).1 = (SQLiteStorage.put (local_storage self) key value).1).
Proof.
  intros Hnone.
  assert (Hselect : ∀ ls, _select_nodes_for_key (set_local_storage self ls) key = [])
    by (intros ls; by apply select_nothing).
  unfold put.
  destruct (SQLiteStorage.put (local_storage self) key value) as [ok ls].
  unfold _replicate_to_peers. rewrite Hselect. cbn [foldl fst snd].
  unfold required_success, successful_replications.
  rewrite map_to_list_empty, map_size_empty. cbn [filter list_filter length].
  split.
  - intros ->. cbn. by rewrite andb_false_r.
  - intros [-> | ->]; cbn; [by rewrite andb_true_r | done].
Qed.

(** X22. When no peer is selected for a key (there is no peer, or the
    replication factor is 1), a [put] under ["quorum"] returns [False]
    whatever the local write did: the threshold over no result is 1. Under
    ["strong"], where the threshold is then 0, and under ["eventual"] it
    returns what the local write returned. *)
Theorem put_without_selected_peers `{!Libs} (self : t) (net : network) (key : string)
    (value : SQLiteStorage.bytes) :
  peer_nodes self = [] ∨ replication_factor self ≤ 1 →
  (consistency_level self = "quorum" → (put self net key value).1 = false) ∧
  (consistency_level self = "strong" ∨ consistency_level self = "eventual" →
   (put self net key value).1 = (SQLiteStorage.put (local_storage self) key value).1).
Proof. apply put_unselected. Qed.

Lemma put_without_selected_peers_witness :
  (put (H := python) (new (SQLiteStorage.fresh []) [] 2 "quorum")
       (Network (λ _, Status 200) (λ _ _ _, Status 200) (λ _ _, Status 200))
       "k" (SQLiteStorage.Raw "v")).1 = false.
Proof.
  apply (proj1 (put_without_selected_peers (H := python)
                  (new (SQLiteStorage.fresh []) [] 2 "quorum")
                  (Network (λ _, Status 200) (λ _ _ _, Status 200) (λ _ _, Status 200))
                  "k" (SQLiteStorage.Raw "v") (or_introl eq_refl))).
  reflexivity.
Defined.

(** X23. A [put] is not undone when the replication falls short: whenever
    the local write succeeds, the local storage holds the value afterwards,
    also when [put] returns [False]; the peers and the replication factor
    are what they were. *)
Theorem put_keeps_local_write `{!Libs} (self : t) (net : network) (key : string)
    (value : SQLiteStorage.bytes) :
  (SQLiteStorage.put (local_storage self) key value).1 = true →
  SQLiteStorage.get (local_storage (put self net key value).2) key = Some value ∧
  peer_nodes (put self net key value).2 = peer_nodes self ∧
  replication_factor (put self net key value).2 = replication_factor self.
Proof.
  intros Hlocal. rewrite put_local_storage.
  split; [by apply KeyValue.put_then_get|].
  unfold put.
  destruct (SQLiteStorage.put (local_storage self) key value) as [ok ls].
  destruct (String.eqb _ "eventual"); [done|].
  unfold _replicate_to_peers.
  pose proof (foldl_replicate_same_store net key value "put"
                (_select_nodes_for_key (set_local_storage self ls) key)
                (∅, set_local_storage self ls)) as (_ & Hp & Hr & _).
  destruct (foldl _ _ _) as [results self2]. cbn in *. done.
Qed.

Lemma put_keeps_local_write_witness :
  SQLiteStorage.get
    (local_storage
       (put (H := python) (new (SQLiteStorage.fresh []) ["p1"; "p2"] 2 "quorum")
            (Network (λ _, Failed) (λ _ _ _, Failed) (λ _ _, Failed))
            "k" (SQLiteStorage.Raw "v")).2) "k"
  = Some (SQLiteStorage.Raw "v") ∧
  peer_nodes
    (put (H := python) (new (SQLiteStorage.fresh []) ["p1"; "p2"] 2 "quorum")
         (Network (λ _, Failed) (λ _ _ _, Failed) (λ _ _, Failed))
         "k" (SQLiteStorage.Raw "v")).2
  = peer_nodes (new (SQLiteStorage.fresh []) ["p1"; "p2"] 2 "quorum") ∧
  replication_factor
    (put (H := python) (new (SQLiteStorage.fresh []) ["p1"; "p2"] 2 "quorum")
         (Network (λ _, Failed) (λ _ _ _, Failed) (λ _ _, Failed))
         "k" (SQLiteStorage.Raw "v")).2
  = replication_factor (new (SQLiteStorage.fresh []) ["p1"; "p2"] 2 "quorum").
Proof.
  apply (put_keeps_local_write (H := python)
           (new (SQLiteStorage.fresh []) ["p1"; "p2"] 2 "quorum")
           (Network (λ _, Failed) (λ _ _ _, Failed) (λ _ _, Failed))
           "k" (SQLiteStorage.Raw "v")).
  reflexivity.
Defined.

Section Selection.
Context `{!Libs}.

Lemma length_omap_total {A B} (f : A → option B) (l : list A) :
  (∀ x, x ∈ l → is_Some (f x)) → length (omap f l) = length l.
Proof.
  induction l as [|x l IH]; intros Hall; [done|].
  cbn. destruct (Hall x ltac:(set_solver)) as [y ->]. cbn.
  rewrite IH; [done|]. intros z Hz. apply Hall. set_solver.
Qed.

Lemma healthy_iff (self : t) (node : string) :
  default false (node_health self !! node) = true ↔ node_health self !! node = Some true.
Proof. destruct (node_health self !! node) as [[|]|]; cbn; split; congruence. Qed.

End Selection.

(** X24. The nodes that [_select_nodes_for_key] gives are peers that the
    health table marks as healthy. When there is such a peer and the
    replication factor is at least 1, it gives [replication_factor - 1]
    nodes (the same node more than once when fewer peers are healthy);
    when there is none, it gives no node. *)
Theorem selected_nodes_are_healthy_peers `{!Libs} (self : t) (key : string) :
  let nodes := _select_nodes_for_key self key in
  (∀ node, node ∈ nodes →
     node ∈ peer_nodes self ∧ node_health self !! node = Some true) ∧
  ((∃ node, node ∈ peer_nodes self ∧ node_health self !! node = Some true) →
   1 ≤ replication_factor self →
   Z.of_nat (length nodes) = replication_factor self - 1) ∧
  ((∀ node, node ∈ peer_nodes self → node_health self !! node ≠ Some true) →
   nodes = []).
Proof.
  intros nodes. unfold nodes, _select_nodes_for_key.
  set (available := filter _ (peer_nodes self)).
  assert (Havailable : ∀ node, node ∈ available ↔
            node ∈ peer_nodes self ∧ node_health self !! node = Some true).
  { intros node. unfold available. rewrite list_elem_of_filter, healthy_iff. tauto. }
  split; [|split].
  - intros node Hin. destruct available as [|first rest] eqn:Hcase;
      [by apply elem_of_nil in Hin|].
    apply list_elem_of_omap in Hin as (i & _ & Hlookup).
    apply Havailable. by eapply list_elem_of_lookup_2.
  - intros (node & Hnode) Hrf. apply Havailable in Hnode.
    destruct available as [|first rest] eqn:Hcase; [by apply elem_of_nil in Hnode|].
    rewrite length_omap_total.
    + rewrite length_seqZ. lia.
    + intros i _. apply lookup_lt_is_Some.
      pose proof (Z.mod_pos_bound (Z.of_N (Py.int16 (_get_key_hash key)) + i)
                    (Z.of_nat (length (first :: rest)))) as Hbound.
      cbn [length] in Hbound |- *. lia.
  - intros Hnone. destruct available as [|first rest] eqn:Hcase; [done|].
    destruct (proj1 (Havailable first) ltac:(set_solver)) as [Hin Hhealthy].
    by destruct (Hnone first Hin).
Qed.

Lemma selected_nodes_are_healthy_peers_witness :
  Z.of_nat (length (_select_nodes_for_key (H := python)
                      (new (SQLiteStorage.fresh []) ["p1"; "p2"; "p3"] 3 "quorum") "k"))
  = replication_factor (new (SQLiteStorage.fresh []) ["p1"; "p2"; "p3"] 3 "quorum") - 1.
Proof.
  apply (proj1 (proj2 (selected_nodes_are_healthy_peers (H := python)
                         (new (SQLiteStorage.fresh []) ["p1"; "p2"; "p3"] 3 "quorum")
                         "k"))).
  - exists "p1". split; [set_solver | reflexivity].
  - vm_compute. discriminate.
Defined.

(** X25. [get] returns the local value when there is one, and then asks no
    peer. Otherwise a value that it returns is the answer of a selected peer
    that passed the health probe, and is written to the local storage, where
    it is found afterwards if that write succeeds; without a selected peer it
    returns [None]. *)
Theorem get_reads_local_first `{!Libs} (self : t) (net : network)
    (storage_get : string → string → read_response) (key : string) :
  (∀ value, SQLiteStorage.get (local_storage self) key = Some value →
            get self net storage_get key = (Some value, self)) ∧
  (SQLiteStorage.get (local_storage self) key = None →
   (∀ value,
      (get self net storage_get key).1 = Some value →
      (∃ node, node ∈ _select_nodes_for_key self key ∧
               is_ok (health net node) = true ∧
               storage_get node key = Found value) ∧
      ((SQLiteStorage.put (local_storage self) key value).1 = true →
       SQLiteStorage.get (local_storage (get self net storage_get key).2) key
       = Some value)) ∧
   (_select_nodes_for_key self key = [] →
    (get self net storage_get key).1 = None)).
Proof.
  split.
  { intros value Hlocal. unfold get. by rewrite Hlocal. }
  intros Hmiss. unfold get. rewrite Hmiss. split.
  - intros value. destruct (peer_nodes self) as [|peer peers] eqn:Hpeers; [done|].
    unfold _read_from_peers.
    pose proof (read_from_Some net storage_get key (_select_nodes_for_key self key)
                  self value) as Hfound.
    pose proof (read_from_same_store net storage_get key (_select_nodes_for_key self key)
                  self) as (Hls & _).
    destruct (read_from _ _ _ _ _) as [[peer_value|] self1]; [|done].
    cbn [fst snd] in *. intros [= ->]. split; [by apply Hfound|].
    intros Hwrite. cbn [local_storage set_local_storage]. rewrite Hls.
    by apply KeyValue.put_then_get.
  - intros Hnone. destruct (peer_nodes self); [done|].
    unfold _read_from_peers. by rewrite Hnone.
Qed.

Lemma get_reads_local_first_witness :
  get (H := python)
    (new (SQLiteStorage.put (SQLiteStorage.fresh []) "k" (SQLiteStorage.Raw "v")).2
         ["p1"] 2 "quorum")
    (Network (λ _, Failed) (λ _ _ _, Failed) (λ _ _, Failed))
    (λ _ _, ReadFailed) "k"
  = (Some (SQLiteStorage.Raw "v"),
     new (SQLiteStorage.put (SQLiteStorage.fresh []) "k" (SQLiteStorage.Raw "v")).2
         ["p1"] 2 "quorum").
Proof.
  apply (proj1 (get_reads_local_first (H := python)
                  (new (SQLiteStorage.put (SQLiteStorage.fresh []) "k"
                          (SQLiteStorage.Raw "v")).2 ["p1"] 2 "quorum")
                  (Network (λ _, Failed) (λ _ _ _, Failed) (λ _ _, Failed))
                  (λ _ _, ReadFailed) "k")).
  reflexivity.
Defined.

Lemma length_filter_both {A} (P : A → Prop) `{!∀ x, Decision (P x)} (l : list A) :
  (length (filter P l) + length (filter (λ x, ¬ P x) l) = length l)%nat.
Proof.
  induction l as [|x l IH]; [done|].
  destruct (decide (P x)).
  - rewrite filter_cons_True, (filter_cons_False (λ x, ¬ P x)) by tauto. cbn. lia.
  - rewrite filter_cons_False, (filter_cons_True (λ x, ¬ P x)) by tauto. cbn. lia.
Qed.

(** The loop of [get_cluster_status], from any point on. *)
Lemma foldl_probe (net : network) (nodes : list string) (healthy_list unhealthy_list
    : list string) (self : t) :
  let result := foldl (probe net) (healthy_list, unhealthy_list, self) nodes in
  result.1.1 = healthy_list ++ filter (λ node, is_ok (health net node) = true) nodes ∧
  result.1.2 = unhealthy_list ++ filter (λ node, is_ok (health net node) ≠ true) nodes ∧
  same_store result.2 self ∧
  ∀ node, node_health result.2 !! node
          = if decide (node ∈ nodes) then Some (is_ok (health net node))
            else node_health self !! node.
Proof.
  revert healthy_list unhealthy_list self.
  induction nodes as [|n nodes IH]; intros healthy_list unhealthy_list self.
  { cbn. rewrite !app_nil_r. split; [done|]. split; [done|]. split; [done|].
    intros node. rewrite decide_False; [done|]. by intros ?%elem_of_nil. }
  assert (Hstep : probe net (healthy_list, unhealthy_list, self) n
                  = if is_ok (health net n)
                    then (healthy_list ++ [n], unhealthy_list, set_node_health self n true)
                    else (healthy_list, unhealthy_list ++ [n],
                          set_node_health self n false)).
  { unfold probe, _check_node_health. by destruct (is_ok (health net n)). }
  cbn [foldl]. rewrite Hstep. clear Hstep.
  destruct (is_ok (health net n)) eqn:Hn.
  - destruct (IH (healthy_list ++ [n]) unhealthy_list (set_node_health self n true))
      as (Hh & Hu & Hs & Hm).
    cbn zeta in *. rewrite Hh, Hu.
    rewrite filter_cons_True by done. rewrite filter_cons_False by (intros Hne; done).
    rewrite <- app_assoc. split; [done|]. split; [done|].
    split; [eapply same_store_trans; [exact Hs | done]|].
    intros node. rewrite Hm. cbn [node_health set_node_health].
    destruct (decide (node = n)) as [->|Hne].
    + rewrite lookup_insert_eq, Hn, (decide_True (P := n ∈ n :: nodes)) by set_solver.
      by destruct (decide (n ∈ nodes)).
    + rewrite lookup_insert_ne by done.
      destruct (decide (node ∈ nodes)).
      * by rewrite decide_True by set_solver.
      * by rewrite decide_False by set_solver.
  - destruct (IH healthy_list (unhealthy_list ++ [n]) (set_node_health self n false))
      as (Hh & Hu & Hs & Hm).
    cbn zeta in *. rewrite Hh, Hu.
    rewrite filter_cons_False by (by rewrite Hn).
    rewrite filter_cons_True by (by rewrite Hn).
    rewrite <- app_assoc. split; [done|]. split; [done|].
    split; [eapply same_store_trans; [exact Hs | done]|].
    intros node. rewrite Hm. cbn [node_health set_node_health].
    destruct (decide (node = n)) as [->|Hne].
    + rewrite lookup_insert_eq, Hn, (decide_True (P := n ∈ n :: nodes)) by set_solver.
      by destruct (decide (n ∈ nodes)).
    + rewrite lookup_insert_ne by done.
      destruct (decide (node ∈ nodes)).
      * by rewrite decide_True by set_solver.
      * by rewrite decide_False by set_solver.
Qed.

(** X26. [get_cluster_status] probes every peer once, in order: the healthy
    list holds the peers that answer the probe with status 200, the unhealthy
    list the others, each in the order of the peer list; the local node counts
    as healthy, so the healthy and unhealthy counts add up to the total. The
    health table then holds the outcome of the probe for every peer, and
    nothing else of the node has changed. *)
Theorem cluster_status_partitions_peers (self : t) (net : network) :
  let status := (get_cluster_status self net).1 in
  let self' := (get_cluster_status self net).2 in
  healthy_node_list status
  = filter (λ node, is_ok (health net node) = true) (peer_nodes self) ∧
  unhealthy_node_list status
  = filter (λ node, is_ok (health net node) ≠ true) (peer_nodes self) ∧
  total_nodes status = Z.of_nat (length (peer_nodes self)) + 1 ∧
  healthy_nodes status + unhealthy_nodes status = total_nodes status ∧
  same_store self' self ∧
  ∀ node, node ∈ peer_nodes self →
          node_health self' !! node = Some (is_ok (health net node)).
Proof.
  unfold get_cluster_status.
  destruct (foldl_probe net (peer_nodes self) [] [] self) as (Hh & Hu & Hs & Hm).
  cbn zeta in *.
  destruct (foldl (probe net) ([], [], self) (peer_nodes self))
    as [[healthy_list unhealthy_list] self1].
  cbn [fst snd] in *. subst healthy_list unhealthy_list.
  cbn [healthy_node_list unhealthy_node_list total_nodes healthy_nodes unhealthy_nodes].
  split; [done|]. split; [done|]. split; [done|]. split; [|split; [done|]].
  - pose proof (length_filter_both (λ node, is_ok (health net node) = true)
                  (peer_nodes self)) as Hlen.
    cbn [app]. lia.
  - intros node Hin. by rewrite Hm, decide_True.
Qed.

(** [add_peer_node] leaves the replication factor. *)
Lemma add_peer_node_replication_factor (self : t) (net : network) (node_url : string) :
  replication_factor (add_peer_node self net node_url).2 = replication_factor self.
Proof. unfold add_peer_node. by destruct (decide _). Qed.

(** X27. [add_peer_node] returns [False], and changes nothing, exactly for
    a node that is a peer already; a new node is put last and gets the health
    that one probe gives. The replication factor stays as the constructor set
    it, at most the number of peers at that time plus 1: a node created
    without peers selects no node for any key however many peers are added,
    and under ["quorum"] every [put] on it returns [False]. *)
Theorem added_peers_are_not_selected `{!Libs} (ls : SQLiteStorage.t)
    (replication_factor0 : Z) (level : string) (net : network) (urls : list string) :
  (∀ (self : t) node_url,
     ((add_peer_node self net node_url).1 = false ↔ node_url ∈ peer_nodes self) ∧
     ((add_peer_node self net node_url).1 = false →
      (add_peer_node self net node_url).2 = self) ∧
     ((add_peer_node self net node_url).1 = true →
      peer_nodes (add_peer_node self net node_url).2 = peer_nodes self ++ [node_url] ∧
      node_health (add_peer_node self net node_url).2 !! node_url
      = Some (is_ok (health net node_url)))) ∧
  (let self := foldl (λ s node_url, (add_peer_node s net node_url).2)
                     (new ls [] replication_factor0 level) urls in
   replication_factor self ≤ 1 ∧
   (∀ key, _select_nodes_for_key self key = []) ∧
   (level = "quorum" →
    ∀ net' key value, (put self net' key value).1 = false)).
Proof.
  split.
  - intros self node_url. unfold add_peer_node.
    destruct (decide (node_url ∈ peer_nodes self)) as [Hin|Hnew]; cbn.
    + split; [done|]. split; done.
    + split; [split; [done | by intros ?]|]. split; [done|]. intros _.
      split; [done|]. by rewrite lookup_insert_eq.
  - intros self.
    assert (Hfold : ∀ start : t,
      replication_factor (foldl (λ s node_url, (add_peer_node s net node_url).2)
                                start urls) = replication_factor start ∧
      consistency_level (foldl (λ s node_url, (add_peer_node s net node_url).2)
                               start urls) = consistency_level start).
    { induction urls as [|url urls IH]; intros start; [done|].
      cbn [foldl]. destruct (IH (add_peer_node start net url).2) as [-> ->].
      unfold add_peer_node. by destruct (decide _). }
    destruct (Hfold (new ls [] replication_factor0 level)) as [Hrf Hlevel].
    fold self in Hrf, Hlevel. cbn in Hrf, Hlevel.
    assert (Hone : replication_factor self ≤ 1) by lia.
    split; [done|]. split.
    + intros key. apply select_nothing. by right.
    + intros -> net' key value.
      apply (put_unselected self net' key value); [by right | done].
Qed.

End DistributedStorageProperties.
